(** * GSDMM: the MovieGroupProcess sampling engine of [gsdmm/mgp_array.py]

    A shallow embedding of the class [MovieGroupProcess] (array variant) and of
    the token-list variant kept in [example_under_the_hood.py], followed by the
    properties of the scoring function, of the Gibbs loop in [fit], of
    [choose_best_label], of the constructor and of [save].

    Conventions of the embedding.
    - A Python method [m(self, args)] is a function of [self] that returns
      [Result (value * self')]: the value it returns together with the object
      it leaves behind, or the exception it raises.
    - numpy integer arrays are lists of [Z] (their 64-bit range is never
      approached by counters bounded by the corpus size and is not modelled);
      floats are real numbers, with [np.log] and [np.exp] kept as parameters
      of the development (class [Numpy]); ideal reals are one instance.
    - The global numpy random state is threaded explicitly (class
      [RandomSource]); [print] appends to an explicit list of lines.
    - The code around the engine ([load], [top_words], the class of
      [example_under_the_hood.py], [revdict] of [gsdmm/utils/utils.py])
      returns [exception + value]: [exception] holds the exceptions of the
      engine and those that files, dicts and the vocabulary add. *)

From Stdlib Require Import String Ascii.
From Stdlib Require Import List ZArith Reals Lra Lia Bool Arith.
From Stdlib Require Import Permutation Sorted.
Import ListNotations.

Set Implicit Arguments.

(** ** Exceptions and the error monad *)

Inductive exn : Type :=
| TypeError_None            (* arithmetic on an attribute that is still None *)
| ValueError_unpack (got : nat)
    (* "not enough values to unpack (expected 2, got n)" at [idx, cnt = zip( *doc)] *)
| ValueError_negative_dimensions   (* np.zeros with a negative dimension *)
| ValueError_broadcast             (* operands could not be broadcast together *)
| ValueError_argmax_empty          (* np.argmax / max of an empty sequence *)
| IndexError                       (* index out of bounds, or [][0] *)
| AttributeError                   (* attribute never assigned (self.dictionary) *)
| FileExistsError.                 (* os.mkdir on a path that exists *)

Inductive Result (A : Type) : Type :=
| Ok (a : A)
| Raise (e : exn).

Arguments Ok {A} a.
Arguments Raise {A} e.

Definition bind {A B : Type} (r : Result A) (k : A -> Result B) : Result B :=
  match r with
  | Ok a => k a
  | Raise e => Raise e
  end.

Declare Scope py_scope.
Delimit Scope py_scope with py.
Notation "x <- e ;; k" := (bind e (fun x => k))
  (at level 100, e at next level, right associativity) : py_scope.
Notation "' p <- e ;; k" := (bind e (fun p => k))
  (at level 100, p pattern, e at next level, right associativity) : py_scope.
Open Scope py_scope.

Definition from_option {A : Type} (e : exn) (o : option A) : Result A :=
  match o with
  | Some a => Ok a
  | None => Raise e
  end.

(** [for x in l: acc = f(acc, x)], stopping at the first exception. *)
Fixpoint foldM {A B : Type} (f : A -> B -> Result A) (l : list B) (a : A) : Result A :=
  match l with
  | [] => Ok a
  | x :: l' => a' <- f a x ;; foldM f l' a'
  end.

Fixpoint mapM {A B : Type} (f : A -> Result B) (l : list A) : Result (list B) :=
  match l with
  | [] => Ok []
  | x :: l' => y <- f x ;; ys <- mapM f l' ;; Ok (y :: ys)
  end.

(** ** Python and numpy primitives *)

(** [range(n)]: empty when [n <= 0]. *)
Definition range (n : Z) : list nat := seq 0 (Z.to_nat n).

(** [enumerate(l)]. *)
Definition enumerate {A : Type} (l : list A) : list (nat * A) :=
  combine (seq 0 (length l)) l.

(** [len(l)] as a Python integer. *)
Definition len {A : Type} (l : list A) : Z := Z.of_nat (length l).

(** In-place store [a[i] = v]; callers check the bound first. *)
Fixpoint update {A : Type} (a : list A) (i : nat) (v : A) : list A :=
  match a, i with
  | [], _ => []
  | _ :: a', O => v :: a'
  | x :: a', S i' => x :: update a' i' v
  end.

(** [a[i]] on a one-dimensional array, [IndexError] out of range. *)
Definition getitem {A : Type} (a : list A) (i : nat) : Result A :=
  from_option IndexError (nth_error a i).

(** [a[i] += v] on a one-dimensional integer array. *)
Definition iadd (a : list Z) (i : nat) (v : Z) : Result (list Z) :=
  x <- getitem a i ;; Ok (update a i (x + v)%Z).

(** A two-dimensional integer array: [ncols] is [shape[1]], which numpy keeps
    even when there are no rows. *)
Record ndarray2 : Type := mk_ndarray2 {
  ncols : nat;
  rows : list (list Z)
}.

(** [np.zeros((k, v), dtype=int)]. *)
Definition np_zeros (k : Z) (v : nat) : Result ndarray2 :=
  if (k <? 0)%Z then Raise ValueError_negative_dimensions
  else Ok (mk_ndarray2 v (repeat (repeat 0%Z v) (Z.to_nat k))).

(** Fancy indexing of one row, [row[idx]]: every index is checked against
    [shape[1]]. *)
Definition take (nc : nat) (row : list Z) (idx : list nat) : Result (list Z) :=
  mapM (fun i => if i <? nc then getitem row i else Raise IndexError) idx.

(** Fancy store [row[idx] = vals]: the stores happen in order, so a repeated
    index keeps the value stored last. *)
Definition put (row : list Z) (idx : list nat) (vals : list Z) : list Z :=
  fold_left (fun r iv => update r (fst iv) (snd iv)) (combine idx vals) row.

(** [a[z, idx] op= cnt]: numpy reads [a[z, idx]], combines it with [cnt]
    elementwise and stores the result back through the same fancy index. *)
Definition inplace_at (op : Z -> Z -> Z) (a : ndarray2) (z : nat)
    (idx : list nat) (cnt : list Z) : Result ndarray2 :=
  row <- getitem (rows a) z ;;
  old <- take (ncols a) row idx ;;
  Ok (mk_ndarray2 (ncols a)
        (update (rows a) z
           (put row idx (map (fun oc => op (fst oc) (snd oc)) (combine old cnt))))).

(** [a[z, idx] += cnt] and [a[z, idx] -= cnt]. *)
Definition iadd_at := inplace_at Z.add.
Definition isub_at := inplace_at Z.sub.

(** [idx, cnt = zip( *doc)] for a list of pairs: with no pair, [zip()] yields
    nothing and the unpacking raises. *)
Definition unzip_doc (doc : list (nat * Z)) : Result (list nat * list Z) :=
  match doc with
  | [] => Raise (ValueError_unpack 0)
  | _ => Ok (map fst doc, map snd doc)
  end.

(** Builtin [sum] over floats: a left fold starting at [0]. *)
Definition sum (p : list R) : R := fold_left Rplus p 0%R.

(** Integer [.sum()] / [sum] of an integer array. *)
Definition zsum (a : list Z) : Z := fold_left Z.add a 0%Z.

(** Elementwise float operation on two one-dimensional arrays with numpy's
    broadcasting: equal lengths, or one operand of length one. *)
Definition broadcast (f : R -> R -> R) (a b : list R) : Result (list R) :=
  if length a =? length b then Ok (map (fun xy => f (fst xy) (snd xy)) (combine a b))
  else match a, b with
       | [x], _ => Ok (map (f x) b)
       | _, [y] => Ok (map (fun x => f x y) a)
       | _, _ => Raise ValueError_broadcast
       end.

(** The two numpy functions on floats the scoring formula uses. *)
Class Numpy : Type := {
  np_log : R -> R;
  np_exp : R -> R
}.

(** Idealised arithmetic: natural logarithm and exponential on the reals.
    ([ln] is 0 outside its domain, where numpy answers nan or -inf.) *)
Definition ideal : Numpy := {| np_log := ln; np_exp := exp |}.

(** [np.argmax(p)]: index of the first maximal entry. *)
Fixpoint argmax_from (best_i : nat) (best : R) (i : nat) (p : list R) : nat :=
  match p with
  | [] => best_i
  | x :: p' =>
      if Rlt_dec best x then argmax_from i x (S i) p'
      else argmax_from best_i best (S i) p'
  end.

Definition np_argmax (p : list R) : Result nat :=
  match p with
  | [] => Raise ValueError_argmax_empty
  | x :: p' => Ok (argmax_from 0 x 1 p')
  end.

(** Builtin [max(p)]: the first maximal element. *)
Definition py_max (p : list R) : Result R :=
  match p with
  | [] => Raise ValueError_argmax_empty
  | x :: p' => Ok (fold_left (fun best y => if Rlt_dec best y then y else best) p' x)
  end.

(** [a[:, idx]]: the columns [idx] of every row; the indices are checked
    against [shape[1]] whether or not there are rows. *)
Definition take_cols (a : ndarray2) (idx : list nat) : Result (list (list Z)) :=
  if forallb (fun i => i <? ncols a) idx
  then mapM (fun row => mapM (getitem row) idx) (rows a)
  else Raise IndexError.

(** ** The vocabulary *)

Module Dictionary.

(** Modelled from the spec: the Vocabulary builder. [gsdmm/dictionary.py]
    ([Dictionary], [doc2bow], [len]) is imported by [mgp_array.py] but is not
    among the sources. The spec asks for a bijection between tokens and ids
    in [[0, V)], a bag-of-words conversion into an ordered sequence of
    (token_id, count) pairs, and that tokens absent from the vocabulary are
    dropped. A vocabulary is the list of its tokens, the id of a token being
    its position. *)
Definition t : Type := list string.

Definition add_token (d : t) (tok : string) : t :=
  if in_dec string_dec tok d then d else d ++ [tok].

(** [Dictionary(docs_toks)]. *)
Definition create (docs_toks : list (list string)) : t :=
  fold_left (fun d doc => fold_left add_token doc d) docs_toks [].

(** [len(dictionary)]. *)
Definition size (d : t) : nat := length d.

(** [dictionary.doc2bow(text)]: one pair per vocabulary token that occurs in
    [text], by increasing id, with its number of occurrences. *)
Definition doc2bow (d : t) (text : list string) : list (nat * Z) :=
  flat_map
    (fun it => let c := count_occ string_dec text (snd it) in
               if c =? 0 then [] else [(fst it, Z.of_nat c)])
    (enumerate d).

End Dictionary.

(** A document of the corpus: (token_id, count) pairs. *)
Definition bow : Type := list (nat * Z).

(** ** The model object *)

Record MovieGroupProcess : Type := mkMGP {
  K : Z;
  alpha : R;
  beta : R;
  n_iters : Z;
  number_docs : option Z;
  vocab_size : option nat;
  cluster_doc_count : list Z;
  cluster_word_count : list Z;
  cluster_word_distribution : ndarray2;
  dictionary : option Dictionary.t;   (* None: attribute not assigned yet *)
  corpus : option (list bow)          (* None: attribute not assigned yet *)
}.

Definition set_cluster_doc_count (self : MovieGroupProcess) (v : list Z) :=
  mkMGP (K self) (alpha self) (beta self) (n_iters self) (number_docs self)
        (vocab_size self) v (cluster_word_count self)
        (cluster_word_distribution self) (dictionary self) (corpus self).

Definition set_cluster_word_count (self : MovieGroupProcess) (v : list Z) :=
  mkMGP (K self) (alpha self) (beta self) (n_iters self) (number_docs self)
        (vocab_size self) (cluster_doc_count self) v
        (cluster_word_distribution self) (dictionary self) (corpus self).

Definition set_cluster_word_distribution (self : MovieGroupProcess) (v : ndarray2) :=
  mkMGP (K self) (alpha self) (beta self) (n_iters self) (number_docs self)
        (vocab_size self) (cluster_doc_count self) (cluster_word_count self)
        v (dictionary self) (corpus self).

Definition set_number_docs (self : MovieGroupProcess) (v : option Z) :=
  mkMGP (K self) (alpha self) (beta self) (n_iters self) v
        (vocab_size self) (cluster_doc_count self) (cluster_word_count self)
        (cluster_word_distribution self) (dictionary self) (corpus self).

(** [MovieGroupProcess.__init__]: the four options are stored as given; the
    counters are [K] zeros ([range(K)] is empty for [K <= 0]) and the word
    distribution is a list of [K] empty dicts, kept here as [K] rows without
    columns. Nothing is checked. *)
Definition __init__ (K : Z) (alpha beta : R) (n_iters : Z)
  : Result MovieGroupProcess :=
  Ok {| K := K; alpha := alpha; beta := beta; n_iters := n_iters;
        number_docs := None;
        vocab_size := None;
        cluster_doc_count := map (fun _ => 0%Z) (range K);
        cluster_word_count := map (fun _ => 0%Z) (range K);
        cluster_word_distribution := mk_ndarray2 0 (map (fun _ => []) (range K));
        dictionary := None;
        corpus := None |}.

(** [MovieGroupProcess.from_data]. *)
Definition from_data (K' : Z) (alpha' beta' : R) (dictionary' : Dictionary.t)
    (cluster_doc_count' cluster_word_count' : list Z)
    (cluster_word_distribution' : ndarray2) : Result MovieGroupProcess :=
  mgp <- __init__ K' alpha' beta' 30 ;;
  Ok {| K := K mgp; alpha := alpha mgp; beta := beta mgp;
        n_iters := n_iters mgp;
        number_docs := Some (zsum cluster_doc_count');
        vocab_size := Some (Dictionary.size dictionary');
        cluster_doc_count := cluster_doc_count';
        cluster_word_count := cluster_word_count';
        cluster_word_distribution := cluster_word_distribution';
        dictionary := Some dictionary';
        corpus := corpus mgp |}.

(** ** The random source *)

(** [np.random.multinomial(n, pvals)] with the generator state made explicit.
    The two laws are numpy's contract for the value it returns: one count per
    entry of [pvals], the counts adding up to the number of trials. (numpy's
    validation of [pvals] is not modelled.) *)
Class RandomSource : Type := {
  RandomState : Type;
  multinomial : Z -> list R -> RandomState -> list Z * RandomState;
  multinomial_length : forall n pvals s,
    length (fst (multinomial n pvals s)) = length pvals;
  multinomial_total : forall n pvals s,
    pvals <> [] -> zsum (fst (multinomial n pvals s)) = n
}.

(** What [print] writes. *)
Inductive line : Type :=
| Stage (_iter : nat) (total_transfers cluster_count_new : Z)
    (* "In stage %d: transferred %d clusters with %d clusters populated" *)
| Converged
    (* "Converged.  Breaking out." *)
| NotOverwriting (folder_path : string).
    (* "Folder ... already exists, not overwriting it. Exiting!" *)

Section Engine.

Context {NP : Numpy} {RS : RandomSource}.

(** *** [MovieGroupProcess.score] *)

(** [lD1 = np.log(D - 1 + K * alpha)]. *)
Definition lD1 (self : MovieGroupProcess) : Result R :=
  D <- from_option TypeError_None (number_docs self) ;;
  Ok (np_log (IZR D - 1 + IZR (K self) * alpha self)).

(** [lN1 = np.log(m_z + alpha)]. *)
Definition lN1 (self : MovieGroupProcess) : list R :=
  map (fun m => np_log (IZR m + alpha self)) (cluster_doc_count self).

(** [lN2 = np.log(n_z_w[:, idx] + beta).sum(axis=1)]. *)
Definition lN2 (self : MovieGroupProcess) (idx : list nat) : Result (list R) :=
  cols <- take_cols (cluster_word_distribution self) idx ;;
  Ok (map (fun vals => sum (map (fun v => np_log (IZR v + beta self)) vals)) cols).

(** [lD2 = np.log(n_z.reshape(-1, 1) + V * beta
                  + np.array(range(1, doc_size + 1)) - 1).sum(axis=1)]. *)
Definition lD2 (self : MovieGroupProcess) (doc_size : nat) : Result (list R) :=
  V <- from_option TypeError_None (vocab_size self) ;;
  Ok (map (fun n =>
             sum (map (fun j => np_log (IZR n + INR V * beta self + INR j - 1))
                      (seq 1 doc_size)))
          (cluster_word_count self)).

(** [p = np.exp(lN1 - lD1 + lN2 - lD2)], before normalisation. *)
Definition score_unnormalized (self : MovieGroupProcess) (doc : bow)
  : Result (list R) :=
  d1 <- lD1 self ;;
  let doc_size := length doc in
  '(idx, cnt) <- unzip_doc doc ;;
  let n1 := lN1 self in
  n2 <- lN2 self idx ;;
  d2 <- lD2 self doc_size ;;
  t <- broadcast Rplus (map (fun x => x - d1)%R n1) n2 ;;
  t <- broadcast Rminus t d2 ;;
  Ok (map np_exp t).

(** [pnorm = sum(p); pnorm = pnorm if pnorm > 0 else 1;
    return [pp / pnorm for pp in p]]. *)
Definition normalize (p : list R) : list R :=
  let pnorm := sum p in
  let pnorm := if Rlt_dec 0 pnorm then pnorm else 1%R in
  map (fun pp => pp / pnorm)%R p.

Definition score (self : MovieGroupProcess) (doc : bow)
  : Result (list R * MovieGroupProcess) :=
  p <- score_unnormalized self doc ;;
  Ok (normalize p, self).

(** *** [MovieGroupProcess.choose_best_label] *)

Definition choose_best_label (self : MovieGroupProcess) (doc : list string)
  : Result ((nat * R) * MovieGroupProcess) :=
  d <- from_option AttributeError (dictionary self) ;;
  let doc_corpus := Dictionary.doc2bow d doc in
  '(p, self) <- score self doc_corpus ;;
  z <- np_argmax p ;;
  m <- py_max p ;;
  Ok ((z, m), self).

(** *** [MovieGroupProcess._sample] *)

(** [[i for i, entry in enumerate(np.random.multinomial(1, p)) if entry != 0][0]]. *)
Definition _sample (p : list R) (rs : RandomState) : Result (nat * RandomState) :=
  let '(draw, rs) := multinomial 1 p rs in
  i <- getitem (map fst (filter (fun ie => negb (snd ie =? 0)%Z) (enumerate draw))) 0 ;;
  Ok (i, rs).

(** *** [MovieGroupProcess.fit] *)

(** [create_dictionary]. *)
Definition create_dictionary (self : MovieGroupProcess) (docs_toks : list (list string))
  : MovieGroupProcess :=
  let d := Dictionary.create docs_toks in
  mkMGP (K self) (alpha self) (beta self) (n_iters self) (number_docs self)
        (Some (Dictionary.size d)) (cluster_doc_count self) (cluster_word_count self)
        (cluster_word_distribution self) (Some d)
        (Some (map (Dictionary.doc2bow d) docs_toks)).

(** The state the loops of [fit] work on: the object (whose arrays [m_z],
    [n_z] and [n_z_w] alias), the assignment [d_z] and the generator. *)
Definition fit_state : Type := (MovieGroupProcess * list nat * RandomState)%type.

(** Body of the initialisation loop. [d_z] is preallocated with [None] and
    filled at index [i] in corpus order; the model keeps its filled prefix. *)
Definition init_doc (st : fit_state) (doc : bow) : Result fit_state :=
  let '(self, d_z, rs) := st in
  '(z, rs) <- _sample (map (fun _ => 1 / IZR (K self))%R (range (K self))) rs ;;
  let d_z := d_z ++ [z] in
  m_z <- iadd (cluster_doc_count self) z 1 ;;
  let self := set_cluster_doc_count self m_z in
  n_z <- iadd (cluster_word_count self) z (len doc) ;;
  let self := set_cluster_word_count self n_z in
  '(idx, cnt) <- unzip_doc doc ;;
  n_z_w <- iadd_at (cluster_word_distribution self) z idx cnt ;;
  let self := set_cluster_word_distribution self n_z_w in
  Ok (self, d_z, rs).

(** Body of the loop over the documents inside one pass. *)
Definition pass_doc (st : fit_state * Z) (idoc : nat * bow) : Result (fit_state * Z) :=
  let '(self, d_z, rs, total_transfers) := st in
  let '(i, doc) := idoc in
  z_old <- getitem d_z i ;;
  m_z <- iadd (cluster_doc_count self) z_old (-1) ;;
  let self := set_cluster_doc_count self m_z in
  n_z <- iadd (cluster_word_count self) z_old (- len doc) ;;
  let self := set_cluster_word_count self n_z in
  '(idx, cnt) <- unzip_doc doc ;;
  n_z_w <- isub_at (cluster_word_distribution self) z_old idx cnt ;;
  let self := set_cluster_word_distribution self n_z_w in
  '(p, self) <- score self doc ;;
  '(z_new, rs) <- _sample p rs ;;
  let total_transfers :=
    if z_new =? z_old then total_transfers else (total_transfers + 1)%Z in
  let d_z := update d_z i z_new in
  m_z <- iadd (cluster_doc_count self) z_new 1 ;;
  let self := set_cluster_doc_count self m_z in
  n_z <- iadd (cluster_word_count self) z_new (len doc) ;;
  let self := set_cluster_word_count self n_z in
  n_z_w <- iadd_at (cluster_word_distribution self) z_new idx cnt ;;
  let self := set_cluster_word_distribution self n_z_w in
  Ok (self, d_z, rs, total_transfers).

(** One pass: [total_transfers = 0] and the loop over [enumerate(self.corpus)]. *)
Definition fit_pass (corpus : list bow) (st : fit_state) : Result (fit_state * Z) :=
  foldM pass_doc (enumerate corpus) (st, 0%Z).

(** [sum([1 for v in m_z if v > 0])]. *)
Definition populated (m_z : list Z) : Z :=
  len (filter (fun v => 0 <? v)%Z m_z).

(** [for _iter in range(n_iters)] with its [break]. *)
Fixpoint fit_iterate (iters : list nat) (corpus : list bow) (st : fit_state)
    (cluster_count : Z) (out : list line) : Result (fit_state * list line) :=
  match iters with
  | [] => Ok (st, out)
  | _iter :: iters' =>
      '(st, total_transfers) <- fit_pass corpus st ;;
      let cluster_count_new := populated (cluster_doc_count (fst (fst st))) in
      let out := out ++ [Stage _iter total_transfers cluster_count_new] in
      if (total_transfers =? 0)%Z && (cluster_count_new =? cluster_count)%Z
         && (25 <? _iter)
      then Ok (st, out ++ [Converged])
      else fit_iterate iters' corpus st cluster_count_new out
  end.

(** The part of [fit] before the passes: vocabulary, corpus, a zeroed word
    distribution, and the random initial assignment. The arrays [m_z] and
    [n_z] are the ones already on the object. *)
Definition fit_initialize (self : MovieGroupProcess) (docs : list (list string))
    (rs : RandomState) : Result (list bow * fit_state) :=
  let self := create_dictionary self docs in
  corpus <- from_option AttributeError (corpus self) ;;
  V <- from_option TypeError_None (vocab_size self) ;;
  let D := len corpus in
  let self := set_number_docs self (Some D) in
  n_z_w <- np_zeros (K self) V ;;
  let self := set_cluster_word_distribution self n_z_w in
  st <- foldM init_doc corpus (self, [], rs) ;;
  Ok (corpus, st).

Definition fit (self : MovieGroupProcess) (docs : list (list string))
    (rs : RandomState)
  : Result (list nat * MovieGroupProcess * RandomState * list line) :=
  '(corpus, st) <- fit_initialize self docs rs ;;
  let cluster_count := K self in
  '(self, d_z, rs, out) <-
      fit_iterate (range (n_iters self)) corpus st cluster_count [] ;;
  Ok (d_z, self, rs, out).

(** The states of a run between passes, from the state [st0] the
    initialisation leaves. *)
Inductive after_passes (corpus : list bow) (st0 : fit_state) : fit_state -> Prop :=
| after_initialization : after_passes corpus st0 st0
| after_pass st st' t :
    after_passes corpus st0 st ->
    fit_pass corpus st = Ok (st', t) ->
    after_passes corpus st0 st'.

End Engine.

(** ** Exceptions outside the engine *)

(** The exceptions of [load] and [top_words]: those of the engine and the
    ones that reading files and the vocabulary adds. *)
Inductive exception : Type :=
| Engine (e : exn)
| FileNotFoundError      (* [open] of a path that does not exist *)
| IsADirectoryError      (* [open] of a folder *)
| EOFError               (* [np.load]: no data left in the file *)
| ValueError_not_npy     (* [np.load] of data that [np.save] did not write *)
| OtherKind              (* outside the embedding, see [load] *)
| TypeError_neg_list     (* unary minus on a list *)
| KeyError (key : nat)   (* [dictionary[idx]] for an id the vocabulary lacks *)
| KeyError_word (word : string).   (* [d[word]] for a word the dict lacks *)

Definition ebind {A B : Type} (r : exception + A) (k : A -> exception + B)
  : exception + B :=
  match r with
  | inr a => k a
  | inl e => inl e
  end.

Declare Scope exc_scope.
Delimit Scope exc_scope with exc.
Notation "x <- e ;; k" := (ebind e (fun x => k))
  (at level 100, e at next level, right associativity) : exc_scope.
Notation "' p <- e ;; k" := (ebind e (fun p => k))
  (at level 100, p pattern, e at next level, right associativity) : exc_scope.

Definition lift {A : Type} (r : Result A) : exception + A :=
  match r with
  | Ok a => inr a
  | Raise e => inl (Engine e)
  end.

Fixpoint efoldM {A B : Type} (f : A -> B -> exception + A) (l : list B) (a : A)
  : exception + A :=
  match l with
  | [] => inr a
  | x :: l' => (a' <- f a x ;; efoldM f l' a')%exc
  end.

Fixpoint emapM {A B : Type} (f : A -> exception + B) (l : list A)
  : exception + list B :=
  match l with
  | [] => inr []
  | x :: l' => (y <- f x ;; ys <- emapM f l' ;; inr (y :: ys))%exc
  end.

(** ** The token-list variant of [example_under_the_hood.py] *)

Module UnderTheHood.

(** A per-cluster dict from token to count, read with [.get(word, 0)]. *)
Definition dict : Type := list (string * Z).

Fixpoint get (d : dict) (word : string) (default : Z) : Z :=
  match d with
  | [] => default
  | (w, c) :: d' => if string_dec w word then c else get d' word default
  end.

(** The inner loop of [score] for one label:
    [lN2 = 0; for word in doc: lN2 += log(n_z_w[label].get(word, 0) + beta)]. *)
Definition lN2 {NP : Numpy} (n_z_w_label : dict) (beta : R) (doc : list string) : R :=
  fold_left (fun acc word => (acc + np_log (IZR (get n_z_w_label word 0) + beta))%R)
            doc 0%R.

(** [word in d]. *)
Fixpoint contains (d : dict) (word : string) : bool :=
  match d with
  | [] => false
  | (w, _) :: d' => if string_dec w word then true else contains d' word
  end.

(** [d[word] = v]: the entry is replaced, or added when the key is new. *)
Fixpoint setitem (d : dict) (word : string) (v : Z) : dict :=
  match d with
  | [] => [(word, v)]
  | (w, c) :: d' =>
      if string_dec w word then (w, v) :: d' else (w, c) :: setitem d' word v
  end.

(** The word loop that follows [n_z[z] += len(doc)] in [fit]:
    [for word in doc:
         if word not in n_z_w[z]: n_z_w[z][word] = 0
         n_z_w[z][word] += 1]. *)
Definition add_words (n_z_w_z : dict) (doc : list string) : dict :=
  fold_left
    (fun d word =>
       let d := if contains d word then d else setitem d word 0 in
       setitem d word (get d word 0 + 1))
    doc n_z_w_z.

(** [sum(d.values())]. *)
Definition values_sum (d : dict) : Z := zsum (map snd d).

(** *** The class [MovieGroupProcess] of [example_under_the_hood.py] *)

(** [del d[word]]. *)
Fixpoint delitem (d : dict) (word : string) : dict :=
  match d with
  | [] => []
  | (w, c) :: d' => if string_dec w word then d' else (w, c) :: delitem d' word
  end.

(** The word loop that follows [n_z[z_old] -= len(doc)] in [fit]:
    [for word in doc:
         n_z_w[z_old][word] -= 1
         if n_z_w[z_old][word] == 0: del n_z_w[z_old][word]]. *)
Definition remove_words (n_z_w_z : dict) (doc : list string)
  : exception + dict :=
  efoldM
    (fun d word =>
       if contains d word then
         let d := setitem d word (get d word 0 - 1) in
         inr (if (get d word 0 =? 0)%Z then delitem d word else d)
       else inl (KeyError_word word))
    doc n_z_w_z.

Record MovieGroupProcess : Type := mkMGP {
  K : Z;
  alpha : R;
  beta : R;
  n_iters : Z;
  number_docs : option Z;
  vocab_size : option Z;
  cluster_doc_count : list Z;
  cluster_word_count : list Z;
  cluster_word_distribution : list dict
}.

(** [MovieGroupProcess.__init__]. *)
Definition __init__ (K : Z) (alpha beta : R) (n_iters : Z) : MovieGroupProcess :=
  {| K := K; alpha := alpha; beta := beta; n_iters := n_iters;
     number_docs := None;
     vocab_size := None;
     cluster_doc_count := map (fun _ => 0%Z) (range K);
     cluster_word_count := map (fun _ => 0%Z) (range K);
     cluster_word_distribution := map (fun _ => []) (range K) |}.

Definition set_statistics (self : MovieGroupProcess) (m_z n_z : list Z)
    (n_z_w : list dict) : MovieGroupProcess :=
  mkMGP (K self) (alpha self) (beta self) (n_iters self) (number_docs self)
        (vocab_size self) m_z n_z n_z_w.

(** The body of [for label in range(K)] in [score]. The dict of the label is
    looked up at each word, the word count and [V] at each [j]. *)
Definition score_label {NP : Numpy} (self : MovieGroupProcess) (lD1 : R)
    (doc : list string) (label : nat) : exception + R :=
  (m <- lift (getitem (cluster_doc_count self) label) ;;
   let lN1 := np_log (IZR m + alpha self) in
   lN2 <- match doc with
          | [] => inr 0%R
          | _ => d <- lift (getitem (cluster_word_distribution self) label) ;;
                 inr (lN2 d (beta self) doc)
          end ;;
   lD2 <- efoldM
            (fun lD2 j =>
               n <- lift (getitem (cluster_word_count self) label) ;;
               V <- lift (from_option TypeError_None (vocab_size self)) ;;
               inr (lD2 + np_log (IZR n + IZR V * beta self + INR j - 1))%R)
            (seq 1 (length doc)) 0%R ;;
   inr (np_exp (lN1 - lD1 + lN2 - lD2)))%exc.

(** [MovieGroupProcess.score]. *)
Definition score {NP : Numpy} (self : MovieGroupProcess) (doc : list string)
  : exception + list R :=
  (D <- lift (from_option TypeError_None (number_docs self)) ;;
   let lD1 := np_log (IZR D - 1 + IZR (K self) * alpha self) in
   p <- emapM (score_label self lD1 doc) (range (K self)) ;;
   inr (normalize p))%exc.

(** [MovieGroupProcess.choose_best_label]. *)
Definition choose_best_label {NP : Numpy} (self : MovieGroupProcess) (doc : list string)
  : exception + (nat * R) :=
  (p <- score self doc ;;
   z <- lift (np_argmax p) ;;
   m <- lift (py_max p) ;;
   inr (z, m))%exc.

(** [for word in doc: ...] on the dict of cluster [z]; the dict is looked up
    at each word. *)
Definition add_to (n_z_w : list dict) (z : nat) (doc : list string)
  : exception + list dict :=
  match doc with
  | [] => inr n_z_w
  | _ => (d <- lift (getitem n_z_w z) ;;
          inr (update n_z_w z (add_words d doc)))%exc
  end.

Definition remove_from (n_z_w : list dict) (z : nat) (doc : list string)
  : exception + list dict :=
  match doc with
  | [] => inr n_z_w
  | _ => (d <- lift (getitem n_z_w z) ;;
          d <- remove_words d doc ;;
          inr (update n_z_w z d))%exc
  end.

Section Fit.

Context {NP : Numpy} {RS : RandomSource}.

Definition fit_state : Type := (MovieGroupProcess * list nat * RandomState)%type.

(** Body of the initialisation loop of [fit]. *)
Definition init_doc (st : fit_state) (doc : list string) : exception + fit_state :=
  (let '(self, d_z, rs) := st in
   '(z, rs) <- lift (_sample (map (fun _ => 1 / IZR (K self))%R (range (K self))) rs) ;;
   let d_z := d_z ++ [z] in
   m_z <- lift (iadd (cluster_doc_count self) z 1) ;;
   n_z <- lift (iadd (cluster_word_count self) z (len doc)) ;;
   n_z_w <- add_to (cluster_word_distribution self) z doc ;;
   inr (set_statistics self m_z n_z n_z_w, d_z, rs))%exc.

(** Body of the loop over the documents inside one pass. *)
Definition pass_doc (st : fit_state * Z) (idoc : nat * list string)
  : exception + (fit_state * Z) :=
  (let '(self, d_z, rs, total_transfers) := st in
   let '(i, doc) := idoc in
   z_old <- lift (getitem d_z i) ;;
   m_z <- lift (iadd (cluster_doc_count self) z_old (-1)) ;;
   n_z <- lift (iadd (cluster_word_count self) z_old (- len doc)) ;;
   n_z_w <- remove_from (cluster_word_distribution self) z_old doc ;;
   let self := set_statistics self m_z n_z n_z_w in
   p <- score self doc ;;
   '(z_new, rs) <- lift (_sample p rs) ;;
   let total_transfers :=
     if z_new =? z_old then total_transfers else (total_transfers + 1)%Z in
   let d_z := update d_z i z_new in
   m_z <- lift (iadd (cluster_doc_count self) z_new 1) ;;
   n_z <- lift (iadd (cluster_word_count self) z_new (len doc)) ;;
   n_z_w <- add_to (cluster_word_distribution self) z_new doc ;;
   inr (set_statistics self m_z n_z n_z_w, d_z, rs, total_transfers))%exc.

Definition fit_pass (docs : list (list string)) (st : fit_state)
  : exception + (fit_state * Z) :=
  efoldM pass_doc (enumerate docs) (st, 0%Z).

(** [for _iter in range(n_iters)] with its [break]. *)
Fixpoint fit_iterate (iters : list nat) (docs : list (list string)) (st : fit_state)
    (cluster_count : Z) (out : list line) : exception + (fit_state * list line) :=
  match iters with
  | [] => inr (st, out)
  | _iter :: iters' =>
      ('(st, total_transfers) <- fit_pass docs st ;;
       let cluster_count_new := populated (cluster_doc_count (fst (fst st))) in
       let out := out ++ [Stage _iter total_transfers cluster_count_new] in
       if (total_transfers =? 0)%Z && (cluster_count_new =? cluster_count)%Z
          && (25 <? _iter)
       then inr (st, out ++ [Converged])
       else fit_iterate iters' docs st cluster_count_new out)%exc
  end.

(** [MovieGroupProcess.fit(docs, vocab_size)]. *)
Definition fit (self : MovieGroupProcess) (docs : list (list string)) (vocab_size : Z)
    (rs : RandomState)
  : exception + (list nat * MovieGroupProcess * RandomState * list line) :=
  (let self :=
     mkMGP (K self) (alpha self) (beta self) (n_iters self) (Some (len docs))
           (Some vocab_size) (cluster_doc_count self) (cluster_word_count self)
           (cluster_word_distribution self) in
   let cluster_count := K self in
   st <- efoldM init_doc docs (self, [], rs) ;;
   '(self, d_z, rs, out) <- fit_iterate (range (n_iters self)) docs st cluster_count [] ;;
   inr (d_z, self, rs, out))%exc.

End Fit.

End UnderTheHood.

(** ** Persistence *)

(** What [np.save] appends to the open file. *)
Inductive npy : Type :=
| npy_int (v : Z)
| npy_float (v : R)
| npy_array (v : list Z)
| npy_array2 (v : ndarray2).

Inductive node : Type :=
| Directory
| NpyFile (items : list npy)
| TextFile (d : Dictionary.t).

(** Durable storage and the console: a flat map from paths to nodes (the
    existence of parent directories is not modelled) and the printed lines. *)
Record world : Type := mk_world {
  fs : list (string * node);
  stdout : list line
}.

Fixpoint lookup (files : list (string * node)) (path : string) : option node :=
  match files with
  | [] => None
  | (p, n) :: files' => if string_dec p path then Some n else lookup files' path
  end.

(** Code that touches the world keeps it when it raises. *)
Definition IO (A : Type) : Type := world -> Result A * world.

Definition io_ret {A : Type} (a : A) : IO A := fun w => (Ok a, w).

Definition io_bind {A B : Type} (c : IO A) (k : A -> IO B) : IO B :=
  fun w => match c w with
           | (Ok a, w') => k a w'
           | (Raise e, w') => (Raise e, w')
           end.

Definition io_raise {A : Type} (e : exn) : IO A := fun w => (Raise e, w).

Declare Scope io_scope.
Delimit Scope io_scope with io.
Notation "x <~ e ;; k" := (io_bind e (fun x => k))
  (at level 100, e at next level, right associativity) : io_scope.
Notation "e ;;; k" := (io_bind e (fun _ => k))
  (at level 100, right associativity) : io_scope.

(** [os.path.isdir(path)]. *)
Definition os_path_isdir (path : string) : IO bool :=
  fun w => (Ok match lookup (fs w) path with
               | Some Directory => true
               | _ => false
               end, w).

(** [os.mkdir(path)]: refuses a path that exists, whatever it is. *)
Definition os_mkdir (path : string) : IO unit :=
  fun w => match lookup (fs w) path with
           | Some _ => (Raise FileExistsError, w)
           | None => (Ok tt, mk_world ((path, Directory) :: fs w) (stdout w))
           end.

(** [print(l)]. *)
Definition print (l : line) : IO unit :=
  fun w => (Ok tt, mk_world (fs w) (stdout w ++ [l])).

(** Writing a whole file at [path] (created or truncated). *)
Definition write_file (path : string) (n : node) : IO unit :=
  fun w => (Ok tt, mk_world ((path, n) :: fs w) (stdout w)).

(** [Path(folder_path, name)]. *)
Definition Path (folder_path name : string) : string :=
  (folder_path ++ "/" ++ name)%string.

(** [MovieGroupProcess.save]. The six [np.save] calls fill [gsdmm.npy] in
    order; the vocabulary goes to [dictionary.npy] as text. *)
Definition save (self : MovieGroupProcess) (folder_path : string) : IO unit :=
  (isdir <~ os_path_isdir folder_path ;;
   (if isdir : bool then print (NotOverwriting folder_path) else io_ret tt) ;;;
   os_mkdir folder_path ;;;
   write_file (Path folder_path "gsdmm.npy")
     (NpyFile [npy_int (K self); npy_float (alpha self); npy_float (beta self);
               npy_array (cluster_doc_count self);
               npy_array (cluster_word_count self);
               npy_array2 (cluster_word_distribution self)]) ;;;
   match dictionary self with
   | None => io_raise AttributeError
   | Some d => write_file (Path folder_path "dictionary.npy") (TextFile d)
   end)%io.

(** ** Loading *)

(** A file open for reading: the items [np.save] wrote into it that are
    still to be read, or bytes that [np.save] did not write. *)
Inductive stream : Type :=
| Npy (items : list npy)
| Text.

(** [open(path, 'rb')]. *)
Definition open_rb (files : list (string * node)) (path : string)
  : exception + stream :=
  match lookup files path with
  | None => inl FileNotFoundError
  | Some Directory => inl IsADirectoryError
  | Some (NpyFile items) => inr (Npy items)
  | Some (TextFile _) => inr Text
  end.

(** [np.load(f)]: the next item of the open file. *)
Definition np_load (f : stream) : exception + (npy * stream) :=
  match f with
  | Text => inl ValueError_not_npy
  | Npy [] => inl EOFError
  | Npy (x :: items) => inr (x, Npy items)
  end.

(** Modelled from the spec: [Dictionary.load_from_text], the inverse of
    [save_as_text] ([gsdmm/dictionary.py] is not among the sources): the
    vocabulary comes back as it was written. What it does with a file that
    holds something else is not known. *)
Definition load_from_text (files : list (string * node)) (path : string)
  : exception + Dictionary.t :=
  match lookup files path with
  | None => inl FileNotFoundError
  | Some Directory => inl IsADirectoryError
  | Some (TextFile d) => inr d
  | Some (NpyFile _) => inl OtherKind
  end.

(** [MovieGroupProcess.load]: six [np.load] calls on [gsdmm.npy], the
    vocabulary from [dictionary.npy], then [from_data]. Storage is read, not
    written. The embedding covers files whose six items are of the kinds
    [save] writes (an integer, two floats, two one-dimensional arrays and a
    two-dimensional one); with other kinds Python goes on with values of
    other types, which the typed record cannot hold: [OtherKind]. *)
Definition load (folder_path : string) (w : world) : exception + MovieGroupProcess :=
  (let path := Path folder_path "gsdmm.npy" in
   f <- open_rb (fs w) path ;;
   '(K, f) <- np_load f ;;
   '(alpha, f) <- np_load f ;;
   '(beta, f) <- np_load f ;;
   '(cluster_doc_count, f) <- np_load f ;;
   '(cluster_word_count, f) <- np_load f ;;
   '(cluster_word_distribution, f) <- np_load f ;;
   dictionary <- load_from_text (fs w) (Path folder_path "dictionary.npy") ;;
   match K, alpha, beta, cluster_doc_count, cluster_word_count,
         cluster_word_distribution with
   | npy_int K, npy_float alpha, npy_float beta, npy_array cluster_doc_count,
     npy_array cluster_word_count, npy_array2 cluster_word_distribution =>
       match from_data K alpha beta dictionary cluster_doc_count cluster_word_count
                       cluster_word_distribution with
       | Ok mgp => inr mgp
       | Raise e => inl (Engine e)
       end
   | _, _, _, _, _, _ => inl OtherKind
   end)%exc.

(** ** Topic words *)

(** [a[start:]] and [a[:stop]], with Python's reading of a negative bound
    (counted from the end) and its clamping to the list. *)
Definition slice_from {A : Type} (start : Z) (l : list A) : list A :=
  let start := if (start <? 0)%Z then Z.max 0 (start + len l) else Z.min start (len l) in
  skipn (Z.to_nat start) l.

Definition slice_to {A : Type} (stop : Z) (l : list A) : list A :=
  let stop := if (stop <? 0)%Z then Z.max 0 (stop + len l) else Z.min stop (len l) in
  firstn (Z.to_nat stop) l.

(** [a.argsort()] / [np.argsort(a)] along the last axis of an integer array.
    numpy's default sort is not stable: where entries are equal the order of
    their indices is the implementation's. The two laws are what any sort
    gives: the indices of the array, each once, by non-decreasing entry. *)
Class Argsort : Type := {
  argsort : list Z -> list nat;
  argsort_permutation : forall a, Permutation (argsort a) (seq 0 (length a));
  argsort_sorted : forall a,
    StronglySorted (fun i j => (nth i a 0 <= nth j a 0)%Z) (argsort a)
}.

(** A Python dict as the list of its items in insertion order: [d[k] = v]
    replaces the value of a key it has and appends a new key. *)
Fixpoint dict_setitem {Key Val : Type} (eq_dec : forall a b : Key, {a = b} + {a <> b})
    (d : list (Key * Val)) (k : Key) (v : Val) : list (Key * Val) :=
  match d with
  | [] => [(k, v)]
  | (k', v') :: d' =>
      if eq_dec k' k then (k', v) :: d' else (k', v') :: dict_setitem eq_dec d' k v
  end.

Fixpoint dict_get {Key Val : Type} (eq_dec : forall a b : Key, {a = b} + {a <> b})
    (d : list (Key * Val)) (k : Key) : option Val :=
  match d with
  | [] => None
  | (k', v') :: d' => if eq_dec k' k then Some v' else dict_get eq_dec d' k
  end.

(** Modelled from the spec: the Vocabulary's id-to-token lookup,
    [dictionary[idx]] ([gsdmm/dictionary.py] is not among the sources). An id
    the vocabulary does not have raises [KeyError], as a mapping does. *)
Definition dictionary_getitem (d : Dictionary.t) (idx : nat) : exception + string :=
  match nth_error d idx with
  | Some tok => inr tok
  | None => inl (KeyError idx)
  end.

(** [self.cluster_word_distribution] where an array is needed. It is one
    once [fit] or [from_data] has assigned it, and both assign [vocab_size]
    with it; until then it is the list of dicts of [__init__] (which the
    record keeps as rows without columns), and unary minus refuses a list. *)
Definition neg_word_distribution (self : MovieGroupProcess) : exception + list (list Z) :=
  match vocab_size self with
  | None => inl TypeError_neg_list
  | Some _ => inr (map (map Z.opp) (rows (cluster_word_distribution self)))
  end.

(** [MovieGroupProcess.top_words]. The result is the dict [topic_words], from
    cluster to the string built for it. *)
Definition top_words {AS : Argsort} (self : MovieGroupProcess) (n_toks : Z)
    (join_tok : string) : exception + list (nat * string) :=
  (let doc_count := cluster_doc_count self in
   let n_topics_with_docs := populated doc_count in
   let top_index := rev (slice_from (- n_topics_with_docs) (argsort doc_count)) in
   neg <- neg_word_distribution self ;;
   let top_cluster_tok_idx := map (fun row => slice_to n_toks (argsort row)) neg in
   efoldM
     (fun topic_words cluster =>
        idxs <- lift (getitem top_cluster_tok_idx cluster) ;;
        words_ <-
          efoldM
            (fun words_ idx =>
               d <- lift (from_option AttributeError (dictionary self)) ;;
               tok <- dictionary_getitem d idx ;;
               inr (words_ ++ join_tok ++ tok)%string)
            idxs EmptyString ;;
        inr (dict_setitem Nat.eq_dec topic_words cluster words_))
     top_index [])%exc.

(** ** [gsdmm/utils/utils.py] *)

Section Revdict.

Context {Key Val : Type}.
Variable key_eq_dec : forall a b : Key, {a = b} + {a <> b}.
Variable val_eq_dec : forall a b : Val, {a = b} + {a <> b}.

(** [dict(d)] for a dict or any sequence of (key, value) pairs: the items are
    stored in order, a key met again keeps its place and takes the new
    value. *)
Definition dict_of (d : list (Key * Val)) : list (Key * Val) :=
  fold_left (fun acc kv => dict_setitem key_eq_dec acc (fst kv) (snd kv)) d [].

(** [revdict(d)]: [{v: k for (k, v) in iteritems(dict(d))}]. *)
Definition revdict (d : list (Key * Val)) : list (Val * Key) :=
  fold_left (fun acc kv => dict_setitem val_eq_dec acc (snd kv) (fst kv)) (dict_of d) [].

(** The last key, in the order of the dict, that [d] maps to [v]. *)
Definition last_key_of (d : list (Key * Val)) (v : Val) : option Key :=
  option_map fst
    (find (fun kv => if val_eq_dec (snd kv) v then true else false) (rev d)).

End Revdict.

(** * Vocabulary of the properties *)

(** The options and the attributes set before the loops are not touched by
    the loops. *)
Definition same_config (a b : MovieGroupProcess) : Prop :=
  K b = K a /\ alpha b = alpha a /\ beta b = beta a /\ n_iters b = n_iters a /\
  number_docs b = number_docs a /\ vocab_size b = vocab_size a /\
  dictionary b = dictionary a /\ corpus b = corpus a.

(** What holds of the assignment and of the document counters between the
    steps of a run over [D] documents with [k] clusters; [base] is the sum of
    the document counters the run found on the object. *)
Record assignment_ok (D : nat) (k : Z) (base : Z) (self : MovieGroupProcess)
    (d_z : list nat) : Prop := {
  ok_K : K self = k;
  ok_length : length d_z = D;
  ok_labels : Forall (fun z => z < Z.to_nat k) d_z;
  ok_doc_count_length : length (cluster_doc_count self) = Z.to_nat k;
  ok_doc_count_sum : zsum (cluster_doc_count self) = (base + Z.of_nat D)%Z
}.

(** The lines a run of the passes prints: one [Stage] line per pass, numbered
    from [s], carrying the pass's transfers and populated-cluster count. *)
Definition stage_lines (s : nat) (tc : list (Z * Z)) : list line :=
  map (fun itc => Stage (fst itc) (fst (snd itc)) (snd (snd itc)))
      (combine (seq s (length tc)) tc).

(** The count a pass is compared with: [cluster_count] as the loop found it
    for the first pass, the count of the pass before for the others. *)
Definition previous_count (cluster_count : Z) (tc : list (Z * Z)) (i : nat) : Z :=
  match i with
  | O => cluster_count
  | S j => match nth_error tc j with
           | Some (_, c) => c
           | None => cluster_count
           end
  end.

(** The test before [break]. *)
Definition stops_early (previous : Z) (_iter : nat) (t c : Z) : Prop :=
  t = 0%Z /\ c = previous /\ 25 < _iter.

(** A two-dimensional array with [k] rows of [v] columns. *)
Definition has_shape (k v : nat) (a : ndarray2) : Prop :=
  ncols a = v /\ length (rows a) = k /\ Forall (fun row => length row = v) (rows a).

(** The arrays of the object have one entry (one row of [V] columns) per
    cluster, there is at least one cluster, and [V] and [D] are set. *)
Record shaped (V : nat) (self : MovieGroupProcess) : Prop := {
  shaped_K : (1 <= K self)%Z;
  shaped_doc_count : length (cluster_doc_count self) = Z.to_nat (K self);
  shaped_word_count : length (cluster_word_count self) = Z.to_nat (K self);
  shaped_word_distribution :
    has_shape (Z.to_nat (K self)) V (cluster_word_distribution self);
  shaped_vocab_size : vocab_size self = Some V;
  shaped_number_docs : number_docs self <> None
}.

(** A document whose token ids are ids of the vocabulary. *)
Definition ids_below (V : nat) (doc : bow) : Prop :=
  Forall (fun ic => fst ic < V) doc.

(** The [lN2] term as the specification words it: for each cluster, the sum
    over the (token_id, cnt) pairs of the document of
    [cnt * log(word_distribution[z][token_id] + beta)]. *)
Definition lN2_occurrence_weighted {NP : Numpy} (self : MovieGroupProcess) (doc : bow)
  : Result (list R) :=
  cols <- take_cols (cluster_word_distribution self) (map fst doc) ;;
  Ok (map (fun vals =>
             sum (map (fun vc => IZR (snd vc) * np_log (IZR (fst vc) + beta self))%R
                      (combine vals (map snd doc))))
          cols).

(** The number of pairs, and of token occurrences, of a corpus. *)
Definition pairs_total (corpus : list bow) : Z := zsum (map (fun doc => len doc) corpus).
Definition occurrences_total (corpus : list bow) : Z :=
  zsum (map (fun doc => zsum (map snd doc)) corpus).

(** The sum of all entries of a two-dimensional array. *)
Definition total (a : ndarray2) : Z := zsum (map zsum (rows a)).

(** The documents of the corpus that the assignment [d_z] gives to cluster
    [z], in corpus order. *)
Definition docs_of (z : nat) (d_z : list nat) (corpus : list bow) : list bow :=
  map snd (filter (fun zd => fst zd =? z) (combine d_z corpus)).

(** The count a bag of words holds for token id [w] (0 when it has no pair
    for [w]). *)
Definition count_of (w : nat) (doc : bow) : Z :=
  zsum (map snd (filter (fun ic => fst ic =? w) doc)).

(** The statistics recomputed from an assignment: for cluster [z], the sum of
    [g] over the documents given to [z]. *)
Definition recount (g : bow -> Z) (z : nat) (d_z : list nat) (corpus : list bow) : Z :=
  zsum (map g (docs_of z d_z corpus)).

(** Entry [a[z, w]] of a two-dimensional array (0 outside it). *)
Definition entry (a : ndarray2) (z w : nat) : Z := nth w (nth z (rows a) []) 0%Z.

(** What holds of the three statistics between the steps of a run: each is
    what the run found ([m0], [n0]; the word distribution starts from zeros)
    plus the recount over the documents assigned so far. *)
Definition recounted (m0 n0 : list Z) (corpus : list bow) (self : MovieGroupProcess)
    (d_z : list nat) : Prop :=
  forall z,
    nth z (cluster_doc_count self) 0%Z = (nth z m0 0 + recount (fun _ => 1) z d_z corpus)%Z /\
    nth z (cluster_word_count self) 0%Z =
      (nth z n0 0 + recount (fun doc => len doc) z d_z corpus)%Z /\
    forall w, entry (cluster_word_distribution self) z w =
              recount (count_of w) z d_z corpus.

(** The lengths of the two counters and the shape of the word distribution. *)
Definition shapes (m n k v : nat) (self : MovieGroupProcess) : Prop :=
  length (cluster_doc_count self) = m /\
  length (cluster_word_count self) = n /\
  has_shape k v (cluster_word_distribution self).

(** The label and probability a call of [choose_best_label] answers, without
    the object. *)
Definition answer (r : Result ((nat * R) * MovieGroupProcess)) : Result (nat * R) :=
  '(zm, _) <- r ;; Ok zm.

(** The clusters [top_words] goes through, and the token ids it takes for a
    cluster. *)
Definition top_index {AS : Argsort} (self : MovieGroupProcess) : list nat :=
  rev (slice_from (- populated (cluster_doc_count self))
                  (argsort (cluster_doc_count self))).

Definition top_ids {AS : Argsort} (self : MovieGroupProcess) (n_toks : Z) (z : nat)
  : list nat :=
  slice_to n_toks
    (argsort (map Z.opp (nth z (rows (cluster_word_distribution self)) []))).

(** [join_tok] and the token, for each id in turn. *)
Definition joined (d : Dictionary.t) (join_tok : string) (ids : list nat) : string :=
  fold_left (fun words_ idx => (words_ ++ join_tok ++ nth idx d EmptyString)%string) ids EmptyString.

(** An object [top_words] can work on: the word distribution is an array
    with one row per document counter, no row longer than the vocabulary. *)
Definition summarizable (d : Dictionary.t) (self : MovieGroupProcess) : Prop :=
  vocab_size self <> None /\
  dictionary self = Some d /\
  length (rows (cluster_word_distribution self)) = length (cluster_doc_count self) /\
  Forall (fun row => length row <= length d) (rows (cluster_word_distribution self)).

(** In the token-list variant, for every cluster, the values of its dict add
    up to its word count. *)
Definition balanced (self : UnderTheHood.MovieGroupProcess) : Prop :=
  Forall2 (fun d n => UnderTheHood.values_sum d = n)
          (UnderTheHood.cluster_word_distribution self) (UnderTheHood.cluster_word_count self).

(** An object of the array variant and one of the token-list variant that
    hold the same model: the same options, [D] and [V], the same counters,
    and for every cluster a dict that holds, for each token of the
    vocabulary [d], the count the array holds for its id. *)
Definition same_model (d : Dictionary.t) (self : MovieGroupProcess)
    (self' : UnderTheHood.MovieGroupProcess) : Prop :=
  UnderTheHood.K self' = K self /\
  UnderTheHood.alpha self' = alpha self /\
  UnderTheHood.beta self' = beta self /\
  UnderTheHood.number_docs self' = number_docs self /\
  UnderTheHood.vocab_size self' = option_map Z.of_nat (vocab_size self) /\
  UnderTheHood.cluster_doc_count self' = cluster_doc_count self /\
  UnderTheHood.cluster_word_count self' = cluster_word_count self /\
  length (UnderTheHood.cluster_word_distribution self') =
    length (rows (cluster_word_distribution self)) /\
  forall z i tok,
    nth_error d i = Some tok ->
    UnderTheHood.get (nth z (UnderTheHood.cluster_word_distribution self') []) tok 0 =
    entry (cluster_word_distribution self) z i.

(** * Instances and objects of the examples *)

(** ** A scripted random source *)

(** The generator state is the list of the draws still to come; a draw of
    [n] trials puts all [n] on the category named by the head of the list
    (reduced modulo the number of categories). *)
Definition one_hot (k i : nat) (n : Z) : list Z := update (repeat 0%Z k) i n.

Definition scripted_multinomial (n : Z) (pvals : list R) (s : list nat)
  : list Z * list nat :=
  (one_hot (length pvals) (hd 0 s mod length pvals) n, tl s).

(** ** Underflow *)


(** ** Objects *)

(** [MovieGroupProcess(K=1, alpha=0.1, beta=0.1, n_iters=30)]. *)
Definition one_cluster : MovieGroupProcess :=
  {| K := 1; alpha := 1 / 10; beta := 1 / 10; n_iters := 30;
     number_docs := None; vocab_size := None;
     cluster_doc_count := [0%Z]; cluster_word_count := [0%Z];
     cluster_word_distribution := mk_ndarray2 0 [[]];
     dictionary := None; corpus := None |}.

(** The same object after [fit([["a", "a"]])]. *)
Definition one_cluster_fitted : MovieGroupProcess :=
  {| K := 1; alpha := 1 / 10; beta := 1 / 10; n_iters := 30;
     number_docs := Some 1%Z; vocab_size := Some 1;
     cluster_doc_count := [1%Z]; cluster_word_count := [1%Z];
     cluster_word_distribution := mk_ndarray2 1 [[2%Z]];
     dictionary := Some ["a"%string]; corpus := Some [[(0, 2%Z)]] |}.

(** The lines of a run of 27 quiet passes over one populated cluster. *)
Definition quiet_log : list line :=
  map (fun i => Stage i 0 1) (seq 0 27) ++ [Converged].

(** [MovieGroupProcess.from_data(0, 0.1, 0.1, dictionary, np.array([]),
    np.array([]), np.zeros((0, 1)))] with a one-token vocabulary. *)
Definition no_cluster : MovieGroupProcess :=
  {| K := 0; alpha := 1 / 10; beta := 1 / 10; n_iters := 30;
     number_docs := Some 0%Z; vocab_size := Some 1;
     cluster_doc_count := []; cluster_word_count := [];
     cluster_word_distribution := mk_ndarray2 1 [];
     dictionary := Some ["a"%string]; corpus := None |}.





(** ** A stable argsort *)

(** Insertion of an index into a list of indices sorted by key, before the
    first index whose key is not smaller. *)
Fixpoint insert_by (key : nat -> Z) (i : nat) (l : list nat) : list nat :=
  match l with
  | [] => [i]
  | j :: l' => if (key i <=? key j)%Z then i :: l else j :: insert_by key i l'
  end.

(** The indices of [a] by non-decreasing entry, equal entries by increasing
    index (what [argsort(kind='stable')] gives). *)
Definition stable_argsort (a : list Z) : list nat :=
  fold_right (insert_by (fun i => nth i a 0%Z)) [] (seq 0 (length a)).

(** [MovieGroupProcess.from_data(2, 0.1, 0.1, dictionary, np.zeros(2),
    np.zeros(2), np.zeros((2, 1)))] with a one-token vocabulary: no cluster
    is populated. *)
Definition idle : MovieGroupProcess :=
  {| K := 2; alpha := 1 / 10; beta := 1 / 10; n_iters := 30;
     number_docs := Some 0%Z; vocab_size := Some 1;
     cluster_doc_count := [0%Z; 0%Z]; cluster_word_count := [0%Z; 0%Z];
     cluster_word_distribution := mk_ndarray2 1 [[0%Z]; [0%Z]];
     dictionary := Some ["a"%string]; corpus := None |}.

(** [one_cluster] after [fit([["a", "b"]])]. *)
Definition two_tokens : MovieGroupProcess :=
  {| K := 1; alpha := 1 / 10; beta := 1 / 10; n_iters := 30;
     number_docs := Some 1%Z; vocab_size := Some 2;
     cluster_doc_count := [1%Z]; cluster_word_count := [2%Z];
     cluster_word_distribution := mk_ndarray2 2 [[1%Z; 1%Z]];
     dictionary := Some ["a"%string; "b"%string];
     corpus := Some [[(0, 1%Z); (1, 1%Z)]] |}.

(** The object of the token-list variant after
    [MovieGroupProcess(K=1, alpha=0.1, beta=0.1, n_iters=30).fit([["a", "b"]], 2)]. *)
Definition token_list_fitted : UnderTheHood.MovieGroupProcess :=
  {| UnderTheHood.K := 1; UnderTheHood.alpha := 1 / 10; UnderTheHood.beta := 1 / 10;
     UnderTheHood.n_iters := 30;
     UnderTheHood.number_docs := Some 1%Z; UnderTheHood.vocab_size := Some 2%Z;
     UnderTheHood.cluster_doc_count := [1%Z];
     UnderTheHood.cluster_word_count := [2%Z];
     UnderTheHood.cluster_word_distribution := [[("a"%string, 1%Z); ("b"%string, 1%Z)]] |}.

(** * Properties *)

(** ** Lists, arrays and sums *)

Lemma bind_Ok {A B : Type} (r : Result A) (k : A -> Result B) (b : B) :
  bind r k = Ok b -> exists a, r = Ok a /\ k a = Ok b.
Proof.
  destruct r as [a|e]; simpl; intros H; [exists a; auto | discriminate].
Qed.

Lemma update_length {A : Type} (a : list A) i v :
  length (update a i v) = length a.
Proof.
  revert i; induction a as [|x a IH]; intros [|i]; simpl; auto.
Qed.

Lemma nth_error_update_eq {A : Type} (a : list A) i v :
  i < length a -> nth_error (update a i v) i = Some v.
Proof.
  revert i; induction a as [|x a IH]; intros [|i]; simpl; intros H;
    try lia; auto.
  apply IH; lia.
Qed.

Lemma update_same {A : Type} (a : list A) i x :
  nth_error a i = Some x -> update a i x = a.
Proof.
  revert i; induction a as [|y a IH]; intros [|i]; simpl; intros H;
    try discriminate; auto.
  - congruence.
  - f_equal; auto.
Qed.

Lemma update_update {A : Type} (a : list A) i v w :
  update (update a i v) i w = update a i w.
Proof.
  revert i; induction a as [|x a IH]; intros [|i]; simpl; auto.
  f_equal; auto.
Qed.

Lemma zsum_from (l : list Z) (a : Z) : fold_left Z.add l a = (a + zsum l)%Z.
Proof.
  unfold zsum; revert a; induction l as [|x l IH]; intros a; simpl.
  - lia.
  - rewrite IH, (IH x); lia.
Qed.

Lemma zsum_cons (x : Z) (l : list Z) : zsum (x :: l) = (x + zsum l)%Z.
Proof. unfold zsum at 1; simpl; apply zsum_from. Qed.

Lemma zsum_update (a : list Z) i x v :
  nth_error a i = Some x -> zsum (update a i v) = (zsum a - x + v)%Z.
Proof.
  revert i; induction a as [|y a IH]; intros [|i]; simpl; intros H;
    try discriminate.
  - injection H as ->. rewrite !zsum_cons; lia.
  - rewrite !zsum_cons, (IH _ H); lia.
Qed.

Lemma zsum_zeros {A : Type} (l : list A) : zsum (map (fun _ => 0%Z) l) = 0%Z.
Proof.
  induction l as [|x l IH]; simpl; [reflexivity | rewrite zsum_cons; lia].
Qed.

Lemma getitem_Ok {A : Type} (a : list A) i x :
  getitem a i = Ok x -> nth_error a i = Some x /\ i < length a.
Proof.
  unfold getitem; destruct (nth_error a i) eqn:E; simpl; intros H;
    [|discriminate].
  injection H as ->; split; auto.
  apply nth_error_Some; congruence.
Qed.

Lemma getitem_lt {A : Type} (a : list A) i :
  i < length a -> exists x, getitem a i = Ok x.
Proof.
  intros H; unfold getitem.
  destruct (nth_error a i) eqn:E; [eexists; reflexivity|].
  apply nth_error_None in E; lia.
Qed.

Lemma iadd_Ok (a : list Z) i v a' :
  iadd a i v = Ok a' ->
  i < length a /\ length a' = length a /\ zsum a' = (zsum a + v)%Z /\
  exists x, nth_error a i = Some x /\ a' = update a i (x + v)%Z.
Proof.
  unfold iadd; intros H.
  apply bind_Ok in H as (x & Hx & H). injection H as <-.
  apply getitem_Ok in Hx as [Hx Hi].
  repeat split; auto.
  - apply update_length.
  - rewrite (zsum_update _ _ _ Hx); lia.
  - exists x; auto.
Qed.

Lemma iadd_lt (a : list Z) i v :
  i < length a -> exists a', iadd a i v = Ok a'.
Proof.
  intros H; unfold iadd.
  destruct (getitem_lt a H) as [x ->]; simpl; eauto.
Qed.

Lemma sum_from (l : list R) (a : R) : fold_left Rplus l a = (a + sum l)%R.
Proof.
  unfold sum; revert a; induction l as [|x l IH]; intros a; simpl.
  - lra.
  - rewrite IH, (IH (0 + x)%R); lra.
Qed.

Lemma sum_cons (x : R) (l : list R) : sum (x :: l) = (x + sum l)%R.
Proof. unfold sum at 1; simpl; rewrite sum_from; lra. Qed.

Lemma sum_nil : sum [] = 0%R.
Proof. reflexivity. Qed.

Lemma sum_map_div (p : list R) (c : R) :
  sum (map (fun pp => pp / c)%R p) = (sum p / c)%R.
Proof.
  induction p as [|x p IH]; simpl.
  - rewrite sum_nil; lra.
  - rewrite !sum_cons, IH; lra.
Qed.


Lemma mapM_Ok_length {A B : Type} (f : A -> Result B) (l : list A) (ys : list B) :
  mapM f l = Ok ys -> length ys = length l.
Proof.
  revert ys; induction l as [|x l IH]; simpl; intros ys H.
  - injection H as <-; reflexivity.
  - apply bind_Ok in H as (y & _ & H). apply bind_Ok in H as (ys' & Hys & H).
    injection H as <-. simpl. f_equal. auto.
Qed.

Lemma mapM_Ok_Forall {A B : Type} (f : A -> Result B) (P : B -> Prop) (l : list A)
    (ys : list B) :
  (forall x y, f x = Ok y -> P y) -> mapM f l = Ok ys -> Forall P ys.
Proof.
  intros Hf. revert ys; induction l as [|x l IH]; simpl; intros ys H.
  - injection H as <-; constructor.
  - apply bind_Ok in H as (y & Hy & H). apply bind_Ok in H as (ys' & Hys & H).
    injection H as <-. constructor; eauto.
Qed.

Lemma take_cols_Ok (a : ndarray2) (idx : list nat) (cols : list (list Z)) :
  take_cols a idx = Ok cols ->
  Forall (fun vals => length vals = length idx) cols.
Proof.
  unfold take_cols. destruct (forallb _ idx); [|discriminate].
  apply mapM_Ok_Forall. intros row vals. apply mapM_Ok_length.
Qed.

Lemma broadcast_Ok_length (f : R -> R -> R) (a b c : list R) :
  broadcast f a b = Ok c -> length a = length b -> length c = length a.
Proof.
  unfold broadcast. intros H Hlen. rewrite Hlen, Nat.eqb_refl in H.
  injection H as <-. rewrite length_map, length_combine. lia.
Qed.

Lemma take_cols_Ok_length (a : ndarray2) (idx : list nat) (cols : list (list Z)) :
  take_cols a idx = Ok cols -> length cols = length (rows a).
Proof.
  unfold take_cols. destruct (forallb _ idx); [|discriminate].
  apply mapM_Ok_length.
Qed.

(** ** Normalisation *)

Lemma normalize_length (p : list R) : length (normalize p) = length p.
Proof. unfold normalize; apply length_map. Qed.

Lemma normalize_sum (p : list R) : (0 < sum p)%R -> sum (normalize p) = 1%R.
Proof.
  intros Hp; unfold normalize.
  destruct (Rlt_dec 0 (sum p)) as [_|Hn]; [|contradiction].
  rewrite sum_map_div. field. lra.
Qed.




(** With one counter and one row per cluster, the unnormalised vector has one
    entry per cluster. *)
Lemma score_unnormalized_length {NP : Numpy} (self : MovieGroupProcess) (doc : bow)
    (q : list R) (k : nat) :
  score_unnormalized self doc = Ok q ->
  length (cluster_doc_count self) = k ->
  length (cluster_word_count self) = k ->
  length (rows (cluster_word_distribution self)) = k ->
  length q = k.
Proof.
  intros H Hm Hn Hw. unfold score_unnormalized in H.
  apply bind_Ok in H as (d1 & _ & H).
  apply bind_Ok in H as ([idx cnt] & _ & H).
  apply bind_Ok in H as (n2 & Hn2 & H).
  apply bind_Ok in H as (d2 & Hd2 & H).
  apply bind_Ok in H as (t1 & Ht1 & H).
  apply bind_Ok in H as (t2 & Ht2 & H).
  injection H as <-.
  unfold lN2 in Hn2. apply bind_Ok in Hn2 as (cols & Hcols & Hn2).
  injection Hn2 as <-. apply take_cols_Ok_length in Hcols.
  unfold lD2 in Hd2. apply bind_Ok in Hd2 as (V & _ & Hd2). injection Hd2 as <-.
  apply broadcast_Ok_length in Ht1;
    [|unfold lN1; rewrite !length_map; congruence].
  apply broadcast_Ok_length in Ht2;
    [|rewrite Ht1; unfold lN1; rewrite !length_map; congruence].
  rewrite length_map, Ht2, Ht1. unfold lN1. rewrite !length_map. exact Hm.
Qed.

(** C4. For any document and any statistics for which the unnormalised
    score vector [q] has a strictly positive total, [score] returns a vector
    whose entries add up to exactly 1 over the reals (and leaves the object
    as it was); it has the length of [q], which is [K] when the object has
    one counter and one row per cluster. *)
Theorem score_sums_to_one {NP : Numpy} (self : MovieGroupProcess) (doc : bow)
    (q : list R) :
  score_unnormalized self doc = Ok q ->
  (0 < sum q)%R ->
  exists p,
    score self doc = Ok (p, self) /\
    sum p = 1%R /\
    length p = length q /\
    (length (cluster_doc_count self) = Z.to_nat (K self) ->
     length (cluster_word_count self) = Z.to_nat (K self) ->
     length (rows (cluster_word_distribution self)) = Z.to_nat (K self) ->
     length p = Z.to_nat (K self)).
Proof.
  intros Hq Hpos. exists (normalize q). unfold score. rewrite Hq. simpl.
  split; [reflexivity|]. split; [apply normalize_sum; exact Hpos|].
  split; [apply normalize_length|].
  intros Hm Hn Hw. rewrite normalize_length.
  exact (score_unnormalized_length _ _ Hq Hm Hn Hw).
Qed.

(** ** argmax *)

Lemma argmax_from_spec (p pre : list R) (best_i : nat) (best : R) :
  best_i < length pre ->
  nth best_i pre 0%R = best ->
  (forall j, j < length pre -> (nth j pre 0 <= best)%R) ->
  (forall j, j < best_i -> (nth j pre 0 < best)%R) ->
  let l := pre ++ p in
  let z := argmax_from best_i best (length pre) p in
  z < length l /\
  fold_left (fun b y => if Rlt_dec b y then y else b) p best = nth z l 0%R /\
  (forall j, j < length l -> (nth j l 0 <= nth z l 0)%R) /\
  (forall j, j < z -> (nth j l 0 < nth z l 0)%R).
Proof.
  revert pre best_i best. induction p as [|x p IH]; intros pre best_i best Hi Hb Hle Hlt; simpl.
  - rewrite app_nil_r. rewrite Hb. repeat split; auto.
  - assert (Hl : pre ++ x :: p = (pre ++ [x]) ++ p) by (rewrite <- app_assoc; reflexivity).
    assert (Hlen : length (pre ++ [x]) = S (length pre)) by (rewrite length_app; simpl; lia).
    assert (Hx : nth (length pre) (pre ++ [x]) 0%R = x).
    { rewrite app_nth2 by lia. rewrite Nat.sub_diag. reflexivity. }
    assert (Hold : forall j, j < length pre -> nth j (pre ++ [x]) 0%R = nth j pre 0%R).
    { intros j Hj. apply app_nth1; exact Hj. }
    rewrite Hl. rewrite <- Hlen.
    destruct (Rlt_dec best x) as [Hbx|Hbx].
    + apply IH.
      * rewrite Hlen; lia.
      * exact Hx.
      * intros j Hj. rewrite Hlen in Hj.
        destruct (Nat.eq_dec j (length pre)) as [->|Hne].
        -- rewrite Hx. lra.
        -- rewrite Hold by lia. specialize (Hle j ltac:(lia)). lra.
      * intros j Hj. rewrite Hold by lia.
        specialize (Hle j ltac:(lia)). lra.
    + apply IH.
      * rewrite Hlen; lia.
      * rewrite Hold by lia. exact Hb.
      * intros j Hj. rewrite Hlen in Hj.
        destruct (Nat.eq_dec j (length pre)) as [->|Hne].
        -- rewrite Hx. lra.
        -- rewrite Hold by lia. apply Hle. lia.
      * intros j Hj. rewrite Hold by lia. apply Hlt. exact Hj.
Qed.

Lemma np_argmax_py_max (p : list R) :
  p <> [] ->
  exists z m, np_argmax p = Ok z /\ py_max p = Ok m /\
    z < length p /\ nth z p 0%R = m /\
    (forall j, j < length p -> (nth j p 0 <= m)%R) /\
    (forall j, j < z -> (nth j p 0 < m)%R).
Proof.
  destruct p as [|x p]; [congruence|]. intros _.
  destruct (@argmax_from_spec p [x] 0 x) as (Hz & Hm & Hle & Hlt); simpl; auto.
  - intros j Hj. assert (j = 0) as -> by lia. simpl. lra.
  - intros j Hj. lia.
  - simpl in *. eexists _, _. repeat split; try reflexivity; auto.
    + rewrite Hm. auto.
    + rewrite Hm. auto.
Qed.


(** ** Sampling *)

Lemma in_enumerate {A : Type} (l : list A) (i : nat) (x : A) :
  In (i, x) (enumerate l) -> i < length l /\ nth_error l i = Some x.
Proof.
  unfold enumerate.
  assert (G : forall s, In (i, x) (combine (seq s (length l)) l) ->
                        s <= i < s + length l /\ nth_error l (i - s) = Some x).
  { induction l as [|y l IH]; intros s; simpl; [tauto|].
    intros [H|H].
    - injection H as <- <-. rewrite Nat.sub_diag. simpl. split; [lia | reflexivity].
    - apply IH in H as [H1 H2]. split; [lia|].
      replace (i - s) with (S (i - S s)) by lia. exact H2. }
  intros H. apply G in H as [H1 H2]. rewrite Nat.sub_0_r in H2. split; [lia | exact H2].
Qed.

Lemma zsum_nonzero_entry (l : list Z) :
  zsum l <> 0%Z -> exists i x, In (i, x) (enumerate l) /\ x <> 0%Z.
Proof.
  unfold enumerate. generalize 0 as s.
  induction l as [|y l IH]; intros s H.
  - exfalso; apply H; reflexivity.
  - rewrite zsum_cons in H. simpl.
    destruct (Z.eq_dec y 0) as [->|Hy].
    + destruct (IH (S s)) as (i & x & Hin & Hx); [lia|]. exists i, x. auto.
    + exists s, y. auto.
Qed.

Section Sampling.

Context {RS : RandomSource}.

Lemma _sample_Ok (p : list R) (rs rs' : RandomState) (z : nat) :
  _sample p rs = Ok (z, rs') -> z < length p.
Proof.
  unfold _sample. pose proof (multinomial_length 1 p rs) as Hlen.
  destruct (multinomial 1 p rs) as [draw rs1]. simpl in Hlen.
  intros H. apply bind_Ok in H as (i & Hi & H). injection H as -> _.
  apply getitem_Ok in Hi as [Hi _].
  apply nth_error_In in Hi. apply in_map_iff in Hi as ([i x] & <- & Hin).
  apply filter_In in Hin as [Hin _]. apply in_enumerate in Hin as [Hin _].
  simpl. lia.
Qed.

Lemma _sample_total (p : list R) (rs : RandomState) :
  p <> [] -> exists z rs', _sample p rs = Ok (z, rs').
Proof.
  intros Hp. unfold _sample. pose proof (multinomial_total 1 rs Hp) as Htot.
  destruct (multinomial 1 p rs) as [draw rs1]. simpl in Htot.
  destruct (@zsum_nonzero_entry draw) as (i & x & Hin & Hx); [lia|].
  set (hits := map fst (filter (fun ie => negb (snd ie =? 0)%Z) (enumerate draw))).
  assert (Hhits : In i hits).
  { apply in_map_iff. exists (i, x). split; [reflexivity|].
    apply filter_In. split; [exact Hin|]. simpl.
    destruct (Z.eqb_spec x 0); [contradiction | reflexivity]. }
  destruct hits as [|h hits]; [contradiction|].
  exists h, rs1. reflexivity.
Qed.

End Sampling.


(** ** The loops of [fit] *)

Section Loops.

Context {NP : Numpy} {RS : RandomSource}.

Lemma score_self (self self' : MovieGroupProcess) (doc : bow) (p : list R) :
  score self doc = Ok (p, self') -> self' = self.
Proof.
  unfold score; intros H. apply bind_Ok in H as (q & _ & H). congruence.
Qed.

Lemma init_doc_Ok (self self' : MovieGroupProcess) (d_z d_z' : list nat)
    (rs rs' : RandomState) (doc : bow) :
  init_doc (self, d_z, rs) doc = Ok (self', d_z', rs') ->
  same_config self self' /\
  length (cluster_doc_count self') = length (cluster_doc_count self) /\
  zsum (cluster_doc_count self') = (zsum (cluster_doc_count self) + 1)%Z /\
  exists z, z < Z.to_nat (K self) /\ z < length (cluster_doc_count self) /\
            d_z' = d_z ++ [z].
Proof.
  unfold init_doc. intros H.
  apply bind_Ok in H as ([z rs1] & Hz & H).
  apply bind_Ok in H as (m_z & Hm & H). simpl in H.
  apply bind_Ok in H as (n_z & Hn & H). simpl in H.
  apply bind_Ok in H as ([idx cnt] & Hu & H).
  apply bind_Ok in H as (n_z_w & Hw & H). simpl in H.
  injection H as <- <- <-.
  apply _sample_Ok in Hz. rewrite length_map in Hz. unfold range in Hz.
  rewrite length_seq in Hz.
  apply iadd_Ok in Hm as (Hlt & Hlen & Hsum & _).
  simpl. repeat split; auto.
  exists z; auto.
Qed.

Lemma pass_doc_Ok (self self' : MovieGroupProcess) (d_z d_z' : list nat)
    (rs rs' : RandomState) (t t' : Z) (i : nat) (doc : bow) :
  pass_doc (self, d_z, rs, t) (i, doc) = Ok (self', d_z', rs', t') ->
  same_config self self' /\
  length (cluster_doc_count self') = length (cluster_doc_count self) /\
  zsum (cluster_doc_count self') = zsum (cluster_doc_count self) /\
  exists z_old z_new,
    nth_error d_z i = Some z_old /\
    z_new < length (cluster_doc_count self) /\
    d_z' = update d_z i z_new /\
    t' = (if (z_new =? z_old)%nat then t else (t + 1)%Z) /\
    (z_new = z_old -> cluster_doc_count self' = cluster_doc_count self).
Proof.
  unfold pass_doc. intros H.
  apply bind_Ok in H as (z_old & Hold & H).
  apply bind_Ok in H as (m1 & Hm1 & H). simpl in H.
  apply bind_Ok in H as (n1 & Hn1 & H). simpl in H.
  apply bind_Ok in H as ([idx cnt] & Hu & H).
  apply bind_Ok in H as (w1 & Hw1 & H). simpl in H.
  apply bind_Ok in H as ([p self1] & Hs & H).
  apply bind_Ok in H as ([z_new rs1] & Hz & H).
  apply bind_Ok in H as (m2 & Hm2 & H). simpl in H.
  apply bind_Ok in H as (n2 & Hn2 & H). simpl in H.
  apply bind_Ok in H as (w2 & Hw2 & H). simpl in H.
  injection H as <- <- <- <-.
  apply score_self in Hs. subst self1. simpl in *.
  apply getitem_Ok in Hold as [Hold _].
  apply iadd_Ok in Hm1 as (Hlt1 & Hlen1 & Hsum1 & x1 & Hx1 & Hm1).
  apply iadd_Ok in Hm2 as (Hlt2 & Hlen2 & Hsum2 & x2 & Hx2 & Hm2).
  repeat split; try reflexivity.
  - congruence.
  - lia.
  - exists z_old, z_new. repeat split; auto.
    + lia.
    + intros ->. rewrite Hm2, Hm1, update_update.
      rewrite Hm1 in Hx2. rewrite nth_error_update_eq in Hx2 by exact Hlt1.
      injection Hx2 as <-.
      apply update_same. rewrite Hx1. f_equal. lia.
Qed.

(** Transfers only grow along the documents of a pass, and a pass that
    counted none left the document counters as they were. *)
Lemma pass_docs_transfers (l : list (nat * bow)) :
  forall self d_z rs t0 self' d_z' rs' t,
  foldM pass_doc l (self, d_z, rs, t0) = Ok (self', d_z', rs', t) ->
  (t0 <= t)%Z /\
  (t = t0 -> cluster_doc_count self' = cluster_doc_count self).
Proof.
  induction l as [|[i doc] l IH]; intros self d_z rs t0 self' d_z' rs' t H;
    cbn [foldM] in H.
  - injection H as <- <- <- <-. split; [lia | auto].
  - apply bind_Ok in H as ([[[self1 d1] rs1] t1] & H1 & H).
    apply pass_doc_Ok in H1 as (_ & _ & _ & z_old & z_new & _ & _ & _ & Ht1 & Hsame1).
    apply IH in H as [Hle Hsame].
    assert (Hle1 : (t0 <= t1)%Z) by (destruct (Nat.eqb_spec z_new z_old); lia).
    split; [lia|]. intros ->. assert (t1 = t0) as Heq by lia.
    rewrite Hsame by (symmetry; exact Heq). apply Hsame1.
    destruct (Nat.eqb_spec z_new z_old); [assumption | lia].
Qed.

Lemma Forall_update {A : Type} (P : A -> Prop) (l : list A) i v :
  Forall P l -> P v -> Forall P (update l i v).
Proof.
  intros Hl Hv; revert i; induction Hl as [|x l Hx Hl IH]; intros [|i]; simpl;
    constructor; auto.
Qed.

Lemma init_doc_assignment_ok {D k base self d_z rs doc self' d_z' rs'} :
  assignment_ok D k base self d_z ->
  init_doc (self, d_z, rs) doc = Ok (self', d_z', rs') ->
  assignment_ok (S D) k base self' d_z'.
Proof.
  intros [HK Hlen Hlab Hml Hms] H.
  apply init_doc_Ok in H as (Hc & Hl & Hs & z & Hz & _ & ->).
  destruct Hc as (HK' & _).
  constructor.
  - congruence.
  - rewrite length_app; simpl; lia.
  - apply Forall_app; split; [exact Hlab|]. constructor; [|constructor]. congruence.
  - congruence.
  - lia.
Qed.

Lemma pass_doc_assignment_ok {D k base self d_z rs t idoc self' d_z' rs' t'} :
  assignment_ok D k base self d_z ->
  pass_doc (self, d_z, rs, t) idoc = Ok (self', d_z', rs', t') ->
  assignment_ok D k base self' d_z' /\
  (t <= t')%Z /\
  (t' = t -> cluster_doc_count self' = cluster_doc_count self) /\
  (Z.to_nat k = 1 -> t' = t).
Proof.
  intros [HK Hlen Hlab Hml Hms] H. destruct idoc as [i doc].
  apply pass_doc_Ok in H as (Hc & Hl & Hs & z_old & z_new & Hold & Hnew & -> & -> & Hsame).
  destruct Hc as (HK' & _).
  assert (Hzo : z_old < Z.to_nat k).
  { rewrite Forall_forall in Hlab. apply Hlab. eapply nth_error_In; eauto. }
  split; [|split; [|split]].
  - constructor.
    + congruence.
    + rewrite update_length; exact Hlen.
    + apply Forall_update; [exact Hlab | lia].
    + congruence.
    + congruence.
  - destruct (Nat.eqb_spec z_new z_old); lia.
  - destruct (Nat.eqb_spec z_new z_old); [auto | intros; lia].
  - intros H1. destruct (Nat.eqb_spec z_new z_old); [reflexivity | lia].
Qed.

Lemma pass_docs_assignment_ok D k base (l : list (nat * bow)) :
  forall self d_z rs t0 self' d_z' rs' t,
  assignment_ok D k base self d_z ->
  foldM pass_doc l (self, d_z, rs, t0) = Ok (self', d_z', rs', t) ->
  assignment_ok D k base self' d_z' /\
  (t0 <= t)%Z /\
  (t = t0 -> cluster_doc_count self' = cluster_doc_count self) /\
  (Z.to_nat k = 1 -> t = t0).
Proof.
  induction l as [|idoc l IH]; intros self d_z rs t0 self' d_z' rs' t Hok H;
    cbn [foldM] in H.
  - injection H as <- <- <- <-.
    split; [exact Hok|]. split; [lia|]. split; auto.
  - apply bind_Ok in H as ([[[self1 d1] rs1] t1] & H1 & H).
    destruct (pass_doc_assignment_ok Hok H1) as (Hok1 & Hle1 & Hsame1 & Hone1).
    apply IH in H as (Hok2 & Hle2 & Hsame2 & Hone2); [|exact Hok1].
    split; [exact Hok2|]. split; [lia|]. split.
    + intros ->. assert (t1 = t0) as -> by lia.
      rewrite Hsame2, Hsame1; reflexivity.
    + intros H1'. rewrite Hone2, Hone1; auto.
Qed.

(** One pass keeps [assignment_ok]; it counts no transfer only if it left the
    document counters as they were, and it counts none with a single cluster. *)
Lemma fit_pass_assignment_ok {D k base corpus self d_z rs self' d_z' rs' t} :
  assignment_ok D k base self d_z ->
  fit_pass corpus (self, d_z, rs) = Ok (self', d_z', rs', t) ->
  assignment_ok D k base self' d_z' /\
  (0 <= t)%Z /\
  (t = 0%Z -> cluster_doc_count self' = cluster_doc_count self) /\
  (Z.to_nat k = 1 -> t = 0%Z).
Proof.
  unfold fit_pass. intros Hok H.
  eapply pass_docs_assignment_ok in H; [exact H | exact Hok].
Qed.

End Loops.

Lemma stage_lines_cons s t c tc :
  stage_lines s ((t, c) :: tc) = Stage s t c :: stage_lines (S s) tc.
Proof. reflexivity. Qed.

Section Passes.

Context {NP : Numpy} {RS : RandomSource}.

Lemma init_docs_assignment_ok k base (l : list bow) :
  forall D self d_z rs self' d_z' rs',
  assignment_ok D k base self d_z ->
  foldM init_doc l (self, d_z, rs) = Ok (self', d_z', rs') ->
  assignment_ok (D + length l) k base self' d_z'.
Proof.
  induction l as [|doc l IH]; intros D self d_z rs self' d_z' rs' Hok H;
    cbn [foldM] in H.
  - injection H as <- <- <-. simpl. rewrite Nat.add_0_r. exact Hok.
  - apply bind_Ok in H as ([[self1 d1] rs1] & H1 & H).
    pose proof (init_doc_assignment_ok Hok H1) as Hok1.
    apply IH with (D := S D) in H; [|exact Hok1].
    simpl. replace (D + S (length l)) with (S D + length l) by lia. exact H.
Qed.

Lemma fit_initialize_assignment_ok {self : MovieGroupProcess} {docs rs corpus
    self0 d_z0 rs0} :
  length (cluster_doc_count self) = Z.to_nat (K self) ->
  fit_initialize self docs rs = Ok (corpus, (self0, d_z0, rs0)) ->
  length corpus = length docs /\
  assignment_ok (length docs) (K self) (zsum (cluster_doc_count self)) self0 d_z0.
Proof.
  intros Hlen H. unfold fit_initialize in H. simpl in H.
  apply bind_Ok in H as (w & Hw & H).
  apply bind_Ok in H as ([[s1 d1] r1] & Hf & H).
  injection H as <- <- <- <-.
  split; [apply length_map|].
  apply init_docs_assignment_ok with (D := 0) (k := K self)
    (base := zsum (cluster_doc_count self)) in Hf.
  - rewrite length_map in Hf. exact Hf.
  - constructor; simpl; auto. lia.
Qed.

Lemma stops_early_reflect cc _iter t c :
  (t =? 0)%Z && (c =? cc)%Z && (25 <? _iter) = true <-> stops_early cc _iter t c.
Proof.
  unfold stops_early. rewrite !andb_true_iff, !Z.eqb_eq, Nat.ltb_lt. tauto.
Qed.

(** The shape of what the loop over the passes prints, for any property [I]
    of states kept by a pass and any property [T] of the transfers of a pass
    that starts in [I]. *)
Lemma fit_iterate_log (corpus : list bow) (I : fit_state -> Prop) (T : Z -> Prop) :
  (forall st st' t, I st -> fit_pass corpus st = Ok (st', t) -> I st' /\ T t) ->
  forall n s st cc out st' out',
  I st ->
  fit_iterate (seq s n) corpus st cc out = Ok (st', out') ->
  I st' /\
  exists tc conv,
    out' = out ++ stage_lines s tc ++ (if conv : bool then [Converged] else []) /\
    length tc <= n /\
    (conv = false -> length tc = n) /\
    (conv = true -> tc <> []) /\
    (forall i t c, nth_error tc i = Some (t, c) ->
       T t /\
       (stops_early (previous_count cc tc i) (s + i) t c <->
        conv = true /\ S i = length tc)) /\
    (forall t c, nth_error tc 0 = Some (t, c) -> t = 0%Z ->
       c = populated (cluster_doc_count (fst (fst st)))) /\
    (forall i t c, nth_error tc (S i) = Some (t, c) -> t = 0%Z ->
       c = previous_count cc tc (S i)).
Proof.
  intros Hstep n. induction n as [|n IH]; intros s st cc out st' out' HI H.
  - simpl in H. injection H as <- <-. split; [exact HI|].
    exists [], false. simpl. rewrite app_nil_r.
    split; [reflexivity|]. split; [lia|]. split; [reflexivity|].
    split; [discriminate|]. split; [|split].
    + intros [|i] t c Hn; simpl in Hn; discriminate.
    + intros t c Hn; simpl in Hn; discriminate.
    + intros i t c Hn; simpl in Hn; discriminate.
  - cbn [seq fit_iterate] in H.
    apply bind_Ok in H as ([st1 t1] & Hp & H).
    destruct (Hstep _ _ _ HI Hp) as [HI1 HT1].
    assert (Hsame : t1 = 0%Z ->
              populated (cluster_doc_count (fst (fst st1))) =
              populated (cluster_doc_count (fst (fst st)))).
    { intros ->. destruct st as [[self d_z] rs], st1 as [[self1 d1] rs1].
      unfold fit_pass in Hp. apply pass_docs_transfers in Hp as [_ Hp].
      simpl. rewrite Hp; reflexivity. }
    set (c1 := populated (cluster_doc_count (fst (fst st1)))) in *.
    destruct ((t1 =? 0)%Z && (c1 =? cc)%Z && (25 <? s)) eqn:Hb.
    + injection H as <- <-. split; [exact HI1|].
      exists [(t1, c1)], true. rewrite stage_lines_cons. simpl.
      rewrite <- app_assoc. simpl.
      split; [reflexivity|]. split; [lia|]. split; [discriminate|].
      split; [discriminate|]. split; [|split].
      * intros [|i] t c Hn; simpl in Hn; [|destruct i; discriminate].
        injection Hn as <- <-. split; [exact HT1|]. simpl.
        rewrite Nat.add_0_r. apply stops_early_reflect in Hb. tauto.
      * intros t c Hn Ht. simpl in Hn. injection Hn as <- <-. auto.
      * intros [|i] t c Hn; simpl in Hn; discriminate.
    + apply IH in H as (HI' & tc & conv & Hout & Hlen & Hfull & Hne & Hstop & Hhead & Hnext);
        [|exact HI1].
      split; [exact HI'|].
      exists ((t1, c1) :: tc), conv. rewrite stage_lines_cons.
      split; [rewrite Hout, <- !app_assoc; reflexivity|].
      split; [simpl; lia|]. split; [intros Hc; simpl; rewrite Hfull; auto|].
      split; [discriminate|]. split; [|split].
      * intros [|i] t c Hn.
        -- simpl in Hn. injection Hn as <- <-. split; [exact HT1|].
           simpl. rewrite Nat.add_0_r. split.
           ++ intros Hs. apply stops_early_reflect in Hs. congruence.
           ++ intros [Hc Hl]. injection Hl as Hl. symmetry in Hl.
              apply length_zero_iff_nil in Hl. exfalso. exact (Hne Hc Hl).
        -- simpl in Hn. destruct (Hstop _ _ _ Hn) as [HT Hiff]. split; [exact HT|].
           replace (s + S i) with (S s + i) by lia.
           assert (Hprev : previous_count cc ((t1, c1) :: tc) (S i) = previous_count c1 tc i).
           { destruct i as [|j]; simpl; [reflexivity|].
             destruct (nth_error tc j) as [[? ?]|] eqn:Ej; [reflexivity|].
             apply nth_error_None in Ej.
             assert (S j < length tc) by (apply nth_error_Some; congruence). lia. }
           rewrite Hprev, Hiff. simpl. intuition lia.
      * intros t c Hn Ht. simpl in Hn. injection Hn as <- <-. auto.
      * intros [|i] t c Hn Ht.
        -- simpl in Hn |- *. apply (Hhead _ _ Hn Ht).
        -- change (nth_error ((t1, c1) :: tc) (S (S i))) with (nth_error tc (S i)) in Hn.
           rewrite (Hnext _ _ _ Hn Ht). simpl.
           destruct (nth_error tc i) as [[? ?]|] eqn:Ei; [reflexivity|].
           apply nth_error_None in Ei.
           assert (S i < length tc) by (apply nth_error_Some; congruence). lia.
Qed.

End Passes.

Lemma __init___Ok (k : Z) (a b : R) (n : Z) (self : MovieGroupProcess) :
  __init__ k a b n = Ok self ->
  K self = k /\ alpha self = a /\ beta self = b /\ n_iters self = n /\
  length (cluster_doc_count self) = Z.to_nat k /\
  zsum (cluster_doc_count self) = 0%Z /\
  length (cluster_word_count self) = Z.to_nat k /\
  zsum (cluster_word_count self) = 0%Z.
Proof.
  unfold __init__. intros H. injection H as <-. simpl.
  unfold range. rewrite !length_map, !length_seq, !zsum_zeros. tauto.
Qed.

Section Fit.

Context {NP : Numpy} {RS : RandomSource}.

Lemma fit_Ok (self : MovieGroupProcess) docs rs d_z self' rs' out :
  fit self docs rs = Ok (d_z, self', rs', out) ->
  exists corpus st0,
    fit_initialize self docs rs = Ok (corpus, st0) /\
    fit_iterate (range (n_iters self)) corpus st0 (K self) [] =
      Ok ((self', d_z, rs'), out).
Proof.
  unfold fit. intros H.
  apply bind_Ok in H as ([corpus st0] & Hi & H).
  apply bind_Ok in H as ([[[s1 d1] r1] o1] & Hit & H).
  injection H as <- <- <- <-. eauto.
Qed.

(** The run from a model whose document counters have one entry per cluster:
    the counters add up to what the run found plus one per document. *)
Lemma fit_doc_count_from {self : MovieGroupProcess} {docs rs corpus st0} :
  length (cluster_doc_count self) = Z.to_nat (K self) ->
  fit_initialize self docs rs = Ok (corpus, st0) ->
  forall self' d_z rs',
    after_passes corpus st0 (self', d_z, rs') ->
    assignment_ok (length docs) (K self) (zsum (cluster_doc_count self)) self' d_z.
Proof.
  intros Hlen Hinit. destruct st0 as [[self0 d0] rs0].
  destruct (fit_initialize_assignment_ok Hlen Hinit) as [_ Hok0].
  intros self' d_z rs' Hafter.
  remember (self0, d0, rs0) as st0 eqn:E0.
  remember (self', d_z, rs') as st eqn:E.
  revert self' d_z rs' E.
  induction Hafter as [|st1 st2 t Hafter IH Hpass]; intros self' d_z rs' E.
  - subst. injection E as <- <- <-. exact Hok0.
  - subst st2. destruct st1 as [[self1 d1] rs1].
    specialize (IH _ _ _ eq_refl).
    destruct (fit_pass_assignment_ok IH Hpass) as [Hok _]. exact Hok.
Qed.

Lemma fit_after_passes (self : MovieGroupProcess) docs rs corpus st0 d_z self' rs' out :
  fit_initialize self docs rs = Ok (corpus, st0) ->
  fit self docs rs = Ok (d_z, self', rs', out) ->
  after_passes corpus st0 (self', d_z, rs').
Proof.
  intros Hinit Hfit. apply fit_Ok in Hfit as (corpus' & st0' & Hinit' & Hit).
  rewrite Hinit in Hinit'. injection Hinit' as <- <-.
  unfold range in Hit.
  apply (@fit_iterate_log _ _ corpus (after_passes corpus st0) (fun _ => True)) in Hit.
  - tauto.
  - intros st st' t Hst Hp. split; [|exact Logic.I]. econstructor; eauto.
  - constructor.
Qed.

End Fit.

(** ** Shapes: when the array operations of [fit] and [score] cannot raise *)

Lemma mapM_total {A B : Type} (f : A -> Result B) (l : list A) :
  Forall (fun x => exists y, f x = Ok y) l ->
  exists ys, mapM f l = Ok ys /\ length ys = length l.
Proof.
  induction 1 as [|x l [y Hy] _ (ys & Hys & Hlen)]; simpl.
  - exists []; auto.
  - rewrite Hy, Hys. simpl. exists (y :: ys). simpl; auto.
Qed.

Lemma put_length (row : list Z) (idx : list nat) (vals : list Z) :
  length (put row idx vals) = length row.
Proof.
  unfold put. generalize (combine idx vals) as l. intros l; revert row.
  induction l as [|iv l IH]; intros row; simpl; [reflexivity|].
  rewrite IH. apply update_length.
Qed.

Lemma take_total {v : nat} {row : list Z} {idx : list nat} :
  length row = v -> Forall (fun i => i < v) idx ->
  exists vals, take v row idx = Ok vals /\ length vals = length idx.
Proof.
  intros Hrow Hidx. unfold take. apply mapM_total.
  eapply Forall_impl; [|exact Hidx]. simpl. intros i Hi.
  destruct (Nat.ltb_spec i v); [|lia].
  apply getitem_lt. lia.
Qed.

Lemma inplace_at_total (op : Z -> Z -> Z) {k v : nat} {a : ndarray2} {z : nat}
    {idx : list nat} (cnt : list Z) :
  has_shape k v a -> z < k -> Forall (fun i => i < v) idx ->
  exists a', inplace_at op a z idx cnt = Ok a' /\ has_shape k v a'.
Proof.
  intros (Hc & Hr & Hrows) Hz Hidx. unfold inplace_at.
  destruct (@getitem_lt _ (rows a) z) as [row Hrow]; [lia|].
  rewrite Hrow. simpl.
  assert (Hlen : length row = v).
  { apply getitem_Ok in Hrow as [Hrow _]. apply nth_error_In in Hrow.
    rewrite Forall_forall in Hrows. auto. }
  rewrite Hc. destruct (take_total Hlen Hidx) as (vals & -> & _). simpl.
  eexists; split; [reflexivity|].
  unfold has_shape; simpl. split; [reflexivity|]. split.
  - rewrite update_length; exact Hr.
  - apply Forall_update; [exact Hrows|]. rewrite put_length. exact Hlen.
Qed.

Lemma take_cols_total {k v : nat} {a : ndarray2} {idx : list nat} :
  has_shape k v a -> Forall (fun i => i < v) idx ->
  exists cols, take_cols a idx = Ok cols /\ length cols = k.
Proof.
  intros (Hc & Hr & Hrows) Hidx. unfold take_cols.
  assert (Hb : forallb (fun i => i <? ncols a) idx = true).
  { apply forallb_forall. rewrite Forall_forall in Hidx. intros i Hi.
    apply Nat.ltb_lt. rewrite Hc. auto. }
  rewrite Hb. rewrite <- Hr. apply mapM_total.
  eapply Forall_impl; [|exact Hrows]. simpl. intros row Hrow.
  destruct (@mapM_total _ _ (getitem row) idx) as (ys & Hys & _); [|eauto].
  eapply Forall_impl; [|exact Hidx]. simpl. intros i Hi.
  apply getitem_lt. lia.
Qed.

Lemma unzip_doc_Ok (doc : bow) (idx : list nat) (cnt : list Z) :
  unzip_doc doc = Ok (idx, cnt) -> doc <> [] /\ idx = map fst doc /\ cnt = map snd doc.
Proof.
  destruct doc as [|ic doc]; simpl; intros H; [discriminate|].
  injection H as <- <-. split; [discriminate | auto].
Qed.

Lemma unzip_doc_total {doc : bow} :
  doc <> [] -> unzip_doc doc = Ok (map fst doc, map snd doc).
Proof. destruct doc; [congruence | reflexivity]. Qed.

Lemma ids_below_idx {V : nat} {doc : bow} :
  ids_below V doc -> Forall (fun i => i < V) (map fst doc).
Proof. unfold ids_below. intros H. apply Forall_map. exact H. Qed.

Lemma broadcast_same_length (f : R -> R -> R) (a b : list R) :
  length a = length b ->
  exists c, broadcast f a b = Ok c /\ length c = length a.
Proof.
  intros H. unfold broadcast. rewrite H, Nat.eqb_refl.
  eexists; split; [reflexivity|].
  rewrite length_map, length_combine. lia.
Qed.

Section Totality.

Context {NP : Numpy} {RS : RandomSource}.

Lemma score_unnormalized_total {V : nat} {self : MovieGroupProcess} {doc : bow} :
  shaped V self -> doc <> [] -> ids_below V doc ->
  exists q, score_unnormalized self doc = Ok q /\ length q = Z.to_nat (K self).
Proof.
  intros [HK Hm Hn Hw HV HD] Hdoc Hids. unfold score_unnormalized, lD1, lN2, lD2.
  destruct (number_docs self) as [D|]; [|congruence]. simpl.
  rewrite (unzip_doc_total Hdoc). simpl.
  destruct (take_cols_total Hw (ids_below_idx Hids)) as (cols & -> & Hcols). simpl.
  rewrite HV. simpl.
  match goal with |- exists q, bind (broadcast ?f ?a ?b) _ = _ /\ _ =>
    destruct (@broadcast_same_length f a b) as (t1 & -> & Ht1) end.
  { unfold lN1. rewrite !length_map. congruence. }
  simpl.
  match goal with |- exists q, bind (broadcast ?f ?a ?b) _ = _ /\ _ =>
    destruct (@broadcast_same_length f a b) as (t2 & -> & Ht2) end.
  { rewrite Ht1. unfold lN1. rewrite !length_map. congruence. }
  simpl. eexists; split; [reflexivity|].
  rewrite length_map, Ht2, Ht1. unfold lN1. rewrite !length_map. exact Hm.
Qed.

Lemma score_total {V : nat} {self : MovieGroupProcess} {doc : bow} :
  shaped V self -> doc <> [] -> ids_below V doc ->
  exists p, score self doc = Ok (p, self) /\ length p = Z.to_nat (K self).
Proof.
  intros Hs Hdoc Hids.
  destruct (score_unnormalized_total Hs Hdoc Hids) as (q & Hq & Hlen).
  unfold score. rewrite Hq. simpl. eexists; split; [reflexivity|].
  rewrite normalize_length. exact Hlen.
Qed.

End Totality.

(** ** The vocabulary *)

Lemma doc2bow_ids_below (d : Dictionary.t) (text : list string) :
  ids_below (Dictionary.size d) (Dictionary.doc2bow d text).
Proof.
  unfold ids_below, Dictionary.doc2bow, Dictionary.size.
  apply Forall_forall. intros [i c] Hin.
  apply in_flat_map in Hin as ([j tok] & Hj & Hin). simpl in Hin.
  destruct (count_occ string_dec text tok =? 0); [contradiction|].
  destruct Hin as [Hin|[]]. injection Hin as <- _.
  apply in_enumerate in Hj as [Hj _]. exact Hj.
Qed.

Lemma doc2bow_unseen (d : Dictionary.t) (text : list string) :
  (forall tok, In tok text -> ~ In tok d) -> Dictionary.doc2bow d text = [].
Proof.
  intros Hun. destruct (Dictionary.doc2bow d text) as [|ic bag] eqn:E;
    [reflexivity|].
  assert (Hin : In ic (Dictionary.doc2bow d text)) by (rewrite E; left; reflexivity).
  unfold Dictionary.doc2bow in Hin.
  apply in_flat_map in Hin as ([i tok] & Hi & Hin). simpl in Hin.
  apply in_enumerate in Hi as [_ Hi]. apply nth_error_In in Hi.
  assert (Hc : count_occ string_dec text tok = 0).
  { apply count_occ_not_In. intros Ht. exact (Hun _ Ht Hi). }
  rewrite Hc in Hin. contradiction.
Qed.

Lemma in_enumerate_of {A : Type} (l : list A) (x : A) :
  In x l -> exists i, In (i, x) (enumerate l).
Proof.
  unfold enumerate. generalize 0 as s.
  induction l as [|y l IH]; intros s Hin; simpl in *; [contradiction|].
  destruct Hin as [->|Hin].
  - exists s; left; reflexivity.
  - destruct (IH (S s) Hin) as [i Hi]. exists i; right; exact Hi.
Qed.

Lemma doc2bow_seen (d : Dictionary.t) (text : list string) (tok : string) :
  In tok text -> In tok d -> Dictionary.doc2bow d text <> [].
Proof.
  intros Ht Hd. destruct (in_enumerate_of _ _ Hd) as [i Hi]. intros Hnil.
  assert (Hin : In (i, Z.of_nat (count_occ string_dec text tok))
                   (Dictionary.doc2bow d text)).
  { unfold Dictionary.doc2bow. apply in_flat_map.
    exists (i, tok). split; [exact Hi|]. simpl.
    destruct (Nat.eqb_spec (count_occ string_dec text tok) 0) as [Hc|Hc].
    - apply (count_occ_In string_dec) in Ht. lia.
    - left; reflexivity. }
  rewrite Hnil in Hin. contradiction.
Qed.

Lemma add_token_incl (d : Dictionary.t) (tok x : string) :
  In x d -> In x (Dictionary.add_token d tok).
Proof.
  unfold Dictionary.add_token. destruct (in_dec string_dec tok d); [auto|].
  intros H; apply in_or_app; left; exact H.
Qed.

Lemma add_token_In (d : Dictionary.t) (tok : string) :
  In tok (Dictionary.add_token d tok).
Proof.
  unfold Dictionary.add_token. destruct (in_dec string_dec tok d); [auto|].
  apply in_or_app; right; left; reflexivity.
Qed.

Lemma add_tokens_incl (doc : list string) :
  forall d x, In x d -> In x (fold_left Dictionary.add_token doc d).
Proof.
  induction doc as [|tok doc IH]; intros d x Hx; simpl; [exact Hx|].
  apply IH. apply add_token_incl. exact Hx.
Qed.

Lemma add_tokens_In (doc : list string) :
  forall d tok, In tok doc -> In tok (fold_left Dictionary.add_token doc d).
Proof.
  induction doc as [|t doc IH]; intros d tok Hin; simpl in *; [contradiction|].
  destruct Hin as [->|Hin].
  - apply add_tokens_incl. apply add_token_In.
  - apply IH. exact Hin.
Qed.

Lemma create_In (docs_toks : list (list string)) (doc : list string) (tok : string) :
  In doc docs_toks -> In tok doc -> In tok (Dictionary.create docs_toks).
Proof.
  unfold Dictionary.create. generalize (@nil string) as d.
  induction docs_toks as [|doc0 docs IH]; intros d Hdoc Htok; simpl in *;
    [contradiction|].
  destruct Hdoc as [->|Hdoc].
  - assert (G : forall l d0, In tok d0 ->
               In tok (fold_left (fun d1 doc1 => fold_left Dictionary.add_token doc1 d1) l d0)).
    { induction l as [|doc1 l IHl]; intros d0 H0; simpl; [exact H0|].
      apply IHl. apply add_tokens_incl. exact H0. }
    apply G. apply add_tokens_In. exact Htok.
  - apply IH; assumption.
Qed.

(** ** [fit] returns *)


Section Returns.

Context {NP : Numpy} {RS : RandomSource}.

Lemma uniform_nonempty (k : Z) :
  (1 <= k)%Z -> map (fun _ : nat => (1 / IZR k)%R) (range k) <> [].
Proof.
  intros Hk. unfold range. destruct (Z.to_nat k) eqn:E; [lia|]. simpl. discriminate.
Qed.

(** The initialisation of one document: up to [zip( *doc)] nothing raises. *)
Lemma init_doc_steps (V : nat) (self : MovieGroupProcess) (d_z : list nat)
    (rs : RandomState) (doc : bow) :
  shaped V self ->
  exists z rs' m_z n_z,
    z < Z.to_nat (K self) /\
    length m_z = Z.to_nat (K self) /\ length n_z = Z.to_nat (K self) /\
    init_doc (self, d_z, rs) doc =
      ('(idx, cnt) <- unzip_doc doc ;;
       n_z_w <- iadd_at (cluster_word_distribution self) z idx cnt ;;
       Ok (set_cluster_word_distribution
             (set_cluster_word_count (set_cluster_doc_count self m_z) n_z) n_z_w,
           d_z ++ [z], rs')).
Proof.
  intros [HK Hm Hn Hw HV HD]. unfold init_doc.
  destruct (_sample_total rs (uniform_nonempty HK)) as (z & rs' & Hz).
  rewrite Hz. simpl.
  apply _sample_Ok in Hz. rewrite length_map in Hz. unfold range in Hz.
  rewrite length_seq in Hz.
  destruct (@iadd_lt (cluster_doc_count self) z 1) as [m_z Hmz]; [lia|].
  rewrite Hmz. simpl.
  destruct (@iadd_lt (cluster_word_count self) z (len doc)) as [n_z Hnz]; [lia|].
  rewrite Hnz. simpl.
  apply iadd_Ok in Hmz as (_ & Hml & _). apply iadd_Ok in Hnz as (_ & Hnl & _).
  exists z, rs', m_z, n_z. repeat split; try congruence.
Qed.

Lemma init_doc_empty (V : nat) (self : MovieGroupProcess) (d_z : list nat)
    (rs : RandomState) :
  shaped V self -> init_doc (self, d_z, rs) [] = Raise (ValueError_unpack 0).
Proof.
  intros Hs. destruct (init_doc_steps d_z rs [] Hs) as (z & rs' & m_z & n_z & _ & _ & _ & ->).
  reflexivity.
Qed.

Lemma init_doc_total (V : nat) (self : MovieGroupProcess) (d_z : list nat)
    (rs : RandomState) (doc : bow) :
  shaped V self -> doc <> [] -> ids_below V doc ->
  exists self' d_z' rs',
    init_doc (self, d_z, rs) doc = Ok (self', d_z', rs') /\ shaped V self'.
Proof.
  intros Hs Hdoc Hids.
  destruct (init_doc_steps d_z rs doc Hs) as (z & rs' & m_z & n_z & Hz & Hm & Hn & ->).
  destruct Hs as [HK _ _ Hw HV HD].
  rewrite (unzip_doc_total Hdoc). simpl.
  destruct (inplace_at_total Z.add (map snd doc) Hw Hz (ids_below_idx Hids))
    as (a' & Ha & Hshape).
  unfold iadd_at. rewrite Ha. simpl.
  eexists _, _, _. split; [reflexivity|].
  constructor; simpl; auto.
Qed.

End Returns.

Lemma np_zeros_shape (k : Z) (v : nat) :
  (0 <= k)%Z -> exists a, np_zeros k v = Ok a /\ has_shape (Z.to_nat k) v a.
Proof.
  intros Hk. unfold np_zeros. destruct (Z.ltb_spec k 0); [lia|].
  eexists; split; [reflexivity|]. unfold has_shape; simpl.
  split; [reflexivity|]. split; [apply repeat_length|].
  apply Forall_forall. intros row Hrow. apply repeat_spec in Hrow. subst.
  apply repeat_length.
Qed.

Section Returns2.

Context {NP : Numpy} {RS : RandomSource}.

Lemma init_docs_empty (V : nat) (corpus : list bow) :
  forall self d_z rs,
  shaped V self -> Forall (ids_below V) corpus -> In [] corpus ->
  foldM init_doc corpus (self, d_z, rs) = Raise (ValueError_unpack 0).
Proof.
  induction corpus as [|doc corpus IH]; intros self d_z rs Hs Hids Hin;
    [contradiction|].
  cbn [foldM]. inversion Hids as [|? ? Hdoc Hids']; subst.
  destruct doc as [|ic doc].
  - rewrite (init_doc_empty d_z rs Hs). reflexivity.
  - destruct (init_doc_total d_z rs (doc := ic :: doc) Hs) as (s1 & d1 & r1 & -> & Hs1);
      [discriminate | exact Hdoc |].
    simpl. apply IH; auto.
    destruct Hin as [Hin|Hin]; [discriminate | exact Hin].
Qed.


(** What [fit] does before its first loop, for an object whose counters
    have one entry per cluster. *)
Lemma fit_initialize_steps (self : MovieGroupProcess) (docs : list (list string))
    (rs : RandomState) :
  (1 <= K self)%Z ->
  length (cluster_doc_count self) = Z.to_nat (K self) ->
  length (cluster_word_count self) = Z.to_nat (K self) ->
  let d := Dictionary.create docs in
  let corpus := map (Dictionary.doc2bow d) docs in
  exists self0,
    shaped (Dictionary.size d) self0 /\
    K self0 = K self /\
    fit_initialize self docs rs =
      (st <- foldM init_doc corpus (self0, [], rs) ;; Ok (corpus, st)).
Proof.
  intros HK Hm Hn d corpus. unfold fit_initialize. simpl.
  destruct (@np_zeros_shape (K self) (Dictionary.size d)) as (a & Ha & Hshape); [lia|].
  fold d. rewrite Ha. simpl.
  eexists. split; [|split; [|reflexivity]].
  - constructor; simpl; auto. discriminate.
  - reflexivity.
Qed.

Lemma corpus_ids_below (d : Dictionary.t) (docs : list (list string)) :
  Forall (ids_below (Dictionary.size d)) (map (Dictionary.doc2bow d) docs).
Proof.
  apply Forall_map. apply Forall_forall. intros doc _. apply doc2bow_ids_below.
Qed.





(** [fit] on a corpus with an empty document. *)
Lemma fit_empty_document (self : MovieGroupProcess) (docs : list (list string))
    (rs : RandomState) :
  (1 <= K self)%Z ->
  length (cluster_doc_count self) = Z.to_nat (K self) ->
  length (cluster_word_count self) = Z.to_nat (K self) ->
  In [] docs ->
  fit self docs rs = Raise (ValueError_unpack 0).
Proof.
  intros HK Hm Hn Hin.
  destruct (fit_initialize_steps self docs rs HK Hm Hn) as (self0 & Hs0 & HK0 & Hinit).
  unfold fit. rewrite Hinit.
  rewrite (init_docs_empty [] rs Hs0 (corpus_ids_below _ docs)); [reflexivity|].
  apply in_map_iff. exists []. split; [|exact Hin].
  apply doc2bow_unseen. intros tok [].
Qed.

End Returns2.

(** ** The run of [fit] *)

Section Run.

Context {NP : Numpy} {RS : RandomSource}.


(** C3. A run of [fit] prints one [Stage] line per pass, numbered from 0,
    [tc] being the transfers and populated-cluster counts of the passes.
    There are at most [n_iters] passes, exactly [n_iters] unless the loop
    broke; the loop broke at pass [i] exactly when that pass counted no
    transfer, its populated-cluster count equals the count of the pass before
    ([K] for the first pass) and [_iter > 25], that is, 26 earlier passes are
    complete. If no pass counts a transfer, and in particular with [K = 1],
    there are at most 27 passes: the run halts by pass index 26. *)
Theorem fit_passes_and_early_stop (self : MovieGroupProcess) (docs : list (list string))
    (rs : RandomState) (d_z : list nat) (self' : MovieGroupProcess)
    (rs' : RandomState) (out : list line) :
  fit self docs rs = Ok (d_z, self', rs', out) ->
  exists (tc : list (Z * Z)) (conv : bool),
    out = stage_lines 0 tc ++ (if conv then [Converged] else []) /\
    length tc <= Z.to_nat (n_iters self) /\
    (conv = false -> length tc = Z.to_nat (n_iters self)) /\
    (forall i t c, nth_error tc i = Some (t, c) ->
       (stops_early (previous_count (K self) tc i) i t c <->
        conv = true /\ S i = length tc)) /\
    ((forall i t c, nth_error tc i = Some (t, c) -> t = 0%Z) -> length tc <= 27) /\
    (K self = 1%Z -> length (cluster_doc_count self) = 1 -> length tc <= 27).
Proof.
  intros Hfit. apply fit_Ok in Hfit as (corpus & [[self0 d0] rs0] & Hinit & Hit).
  set (P := K self = 1%Z /\ length (cluster_doc_count self) = 1).
  set (I := fun st : fit_state =>
              P -> assignment_ok (length docs) 1 (zsum (cluster_doc_count self))
                     (fst (fst st)) (snd (fst st))).
  unfold range in Hit.
  apply (@fit_iterate_log _ _ corpus I (fun t => P -> t = 0%Z)) in Hit.
  - destruct Hit as (_ & tc & conv & Hout & Hlen & Hfull & _ & Hstop & _ & Hnext).
    exists tc, conv. simpl in Hout.
    assert (Hquiet : (forall i t c, nth_error tc i = Some (t, c) -> t = 0%Z) ->
                     length tc <= 27).
    { intros Hzero. destruct (le_lt_dec (length tc) 27) as [|Hlong]; [assumption|].
      destruct (nth_error tc 26) as [[t c]|] eqn:E26.
      - destruct (Hstop _ _ _ E26) as [_ Hiff].
        assert (Hs : stops_early (previous_count (K self) tc 26) (0 + 26) t c).
        { unfold stops_early. split; [eapply Hzero; eauto|].
          split; [eapply Hnext; eauto | lia]. }
        apply Hiff in Hs. lia.
      - apply nth_error_None in E26. lia. }
    split; [exact Hout|]. split; [exact Hlen|]. split; [exact Hfull|].
    split; [|split].
    + intros i t c Hn. destruct (Hstop _ _ _ Hn) as [_ Hiff]. exact Hiff.
    + exact Hquiet.
    + intros HK1 Hl1. apply Hquiet. intros i t c Hn.
      destruct (Hstop _ _ _ Hn) as [HT _]. apply HT. split; assumption.
  - intros [[s1 d1] r1] [[s2 d2] r2] t HI Hp. unfold I in *. simpl in *.
    split.
    + intros HP. specialize (HI HP).
      destruct (fit_pass_assignment_ok HI Hp) as [Hok _]. exact Hok.
    + intros HP. specialize (HI HP).
      destruct (fit_pass_assignment_ok HI Hp) as (_ & _ & _ & Hone).
      apply Hone. reflexivity.
  - unfold I. simpl. intros [HK1 Hl1].
    assert (Hl : length (cluster_doc_count self) = Z.to_nat (K self))
      by (rewrite HK1, Hl1; reflexivity).
    destruct (fit_initialize_assignment_ok Hl Hinit) as [_ Hok].
    rewrite HK1 in Hok. exact Hok.
Qed.

End Run.

(** ** The constructor *)

(** C7 (as amended). Construction performs no validation: for every
    [(K, alpha, beta, n_iters)], valid or not, it succeeds, stores the four
    options as given and zeroes one counter per cluster ([range(K)]). *)
Theorem init_performs_no_validation (k : Z) (a b : R) (n : Z) :
  exists self,
    __init__ k a b n = Ok self /\
    K self = k /\ alpha self = a /\ beta self = b /\ n_iters self = n /\
    cluster_doc_count self = map (fun _ => 0%Z) (range k) /\
    cluster_word_count self = map (fun _ => 0%Z) (range k).
Proof.
  eexists. split; [reflexivity|]. simpl. repeat split.
Qed.

(** C7 (counterexample). [MovieGroupProcess(K=0, alpha=0, beta=0, n_iters=0)]
    violates all four conditions and is constructed all the same. *)
Lemma init_accepts_invalid_configuration :
  (0 < 1)%Z /\ (0 <= 0)%R /\
  exists self, __init__ 0 0 0 0 = Ok self /\ cluster_doc_count self = [].
Proof.
  split; [lia|]. split; [lra|]. eexists. split; reflexivity.
Qed.

(** ** [save] *)

(** C6. For every path that already exists in storage (as a folder or as a
    file), [save] raises [FileExistsError], Python's error for a path that
    already exists, out of [os.mkdir], and leaves storage as it was: nothing
    is written and [save] does not return as if it had persisted. (For a
    folder the "not overwriting" message is printed first.) *)
Theorem save_existing_path_fails (self : MovieGroupProcess) (folder_path : string)
    (w : world) (n : node) :
  lookup (fs w) folder_path = Some n ->
  fst (save self folder_path w) = Raise FileExistsError /\
  fs (snd (save self folder_path w)) = fs w.
Proof.
  intros Hn. unfold save, io_bind, os_path_isdir, os_mkdir, print, io_ret.
  rewrite Hn. destruct n; simpl; rewrite Hn; simpl; auto.
Qed.

Lemma save_existing_path_fails_witness :
  let w := mk_world [("model"%string, Directory)] [] in
  fst (save (mkMGP 1 1 1 1 None None [0%Z] [0%Z] (mk_ndarray2 0 [[]]) None None)
            "model" w) = Raise FileExistsError /\
  fs (snd (save (mkMGP 1 1 1 1 None None [0%Z] [0%Z] (mk_ndarray2 0 [[]]) None None)
                "model" w)) = fs w.
Proof.
  intros w. apply (@save_existing_path_fails _ "model"%string w Directory).
  reflexivity.
Defined.

(** On a path that does not exist, [save] of a fitted model creates the folder
    and writes both files. *)
Lemma save_fresh_path (self : MovieGroupProcess) (folder_path : string)
    (w : world) (d : Dictionary.t) :
  lookup (fs w) folder_path = None ->
  dictionary self = Some d ->
  fst (save self folder_path w) = Ok tt /\
  lookup (fs (snd (save self folder_path w))) (Path folder_path "dictionary.npy")
    = Some (TextFile d) /\
  stdout (snd (save self folder_path w)) = stdout w.
Proof.
  intros Hn Hd. unfold save, io_bind, os_path_isdir, os_mkdir, print, io_ret, write_file.
  rewrite Hn. simpl. rewrite Hn. simpl. rewrite Hd. simpl.
  destruct (string_dec (Path folder_path "dictionary.npy") (Path folder_path "dictionary.npy"));
    [auto | congruence].
Qed.

(** ** Documents without pairs *)

Section EmptyDocument.

Context {NP : Numpy} {RS : RandomSource}.

Lemma score_empty (self : MovieGroupProcess) (D : Z) :
  number_docs self = Some D -> score self [] = Raise (ValueError_unpack 0).
Proof.
  intros HD. unfold score, score_unnormalized, lD1. rewrite HD. reflexivity.
Qed.

(** C10. A document without pairs makes the public interface raise the
    unpacking error of [idx, cnt = zip( *doc)]: [score] on the empty bag of
    words of a fitted or loaded object; [choose_best_label] on a document
    whose tokens are all unseen (its bag of words is empty); and [fit] on a
    corpus with an empty document, on a freshly constructed object with at
    least one cluster. *)
Theorem empty_document_unpacking_error :
  (forall (self : MovieGroupProcess) (D : Z),
     number_docs self = Some D ->
     score self [] = Raise (ValueError_unpack 0)) /\
  (forall (self : MovieGroupProcess) (d : Dictionary.t) (D : Z) (doc : list string),
     dictionary self = Some d ->
     number_docs self = Some D ->
     (forall tok, In tok doc -> ~ In tok d) ->
     Dictionary.doc2bow d doc = [] /\
     choose_best_label self doc = Raise (ValueError_unpack 0)) /\
  (forall (k : Z) (a b : R) (n : Z) (self : MovieGroupProcess)
          (docs : list (list string)) (rs : RandomState),
     (1 <= k)%Z ->
     __init__ k a b n = Ok self ->
     In [] docs ->
     fit self docs rs = Raise (ValueError_unpack 0)).
Proof.
  split; [|split].
  - exact score_empty.
  - intros self d D doc Hd HD Hun.
    pose proof (doc2bow_unseen d doc Hun) as Hbow. split; [exact Hbow|].
    unfold choose_best_label. rewrite Hd. simpl. rewrite Hbow.
    rewrite (score_empty self HD). reflexivity.
  - intros k a b n self docs rs Hk Hnew Hin.
    apply __init___Ok in Hnew as (HK & _ & _ & _ & Hm & _ & Hn & _).
    apply fit_empty_document; congruence.
Qed.

End EmptyDocument.

(** ** The [lN2] term: pairs and occurrences *)

Lemma sum_unit_counts {NP : Numpy} (b : R) (cnt : list Z) :
  Forall (fun c => c = 1%Z) cnt ->
  forall vals, length vals = length cnt ->
  sum (map (fun v => np_log (IZR v + b)) vals) =
  sum (map (fun vc => IZR (snd vc) * np_log (IZR (fst vc) + b))%R (combine vals cnt)).
Proof.
  induction 1 as [|c cnt -> _ IH]; intros [|v vals] Hlen; simpl in *;
    try discriminate; [reflexivity|].
  rewrite !sum_cons, (IH vals) by lia. lra.
Qed.

(** With every count equal to one the two terms are the same. *)
Lemma lN2_unit_counts {NP : Numpy} (self : MovieGroupProcess) (doc : bow) :
  Forall (fun ic => snd ic = 1%Z) doc ->
  lN2 self (map fst doc) = lN2_occurrence_weighted self doc.
Proof.
  intros Hone. unfold lN2, lN2_occurrence_weighted.
  destruct (take_cols (cluster_word_distribution self) (map fst doc)) as [cols|e] eqn:E;
    simpl; [|reflexivity].
  f_equal. apply take_cols_Ok in E.
  assert (Hcnt : Forall (fun c => c = 1%Z) (map snd doc)).
  { apply Forall_map. exact Hone. }
  apply map_ext_in. intros vals Hin. rewrite Forall_forall in E.
  apply sum_unit_counts; [exact Hcnt|].
  rewrite (E _ Hin), !length_map. reflexivity.
Qed.

Lemma sum_app (l1 l2 : list R) : sum (l1 ++ l2) = (sum l1 + sum l2)%R.
Proof.
  induction l1 as [|x l1 IH]; simpl.
  - rewrite sum_nil; lra.
  - rewrite !sum_cons, IH; lra.
Qed.

Lemma sum_map_plus {A : Type} (f g : A -> R) (l : list A) :
  sum (map (fun x => f x + g x)%R l) = (sum (map f l) + sum (map g l))%R.
Proof.
  induction l as [|x l IH]; simpl.
  - rewrite !sum_nil; lra.
  - rewrite !sum_cons, IH; lra.
Qed.

Lemma sum_map_ext_in {A : Type} (f g : A -> R) (l : list A) :
  (forall x, In x l -> f x = g x) -> sum (map f l) = sum (map g l).
Proof. intros H. f_equal. apply map_ext_in. exact H. Qed.

Lemma sum_map_flat_map {A B : Type} (h : B -> R) (F : A -> list B) (l : list A) :
  sum (map h (flat_map F l)) = sum (map (fun x => sum (map h (F x))) l).
Proof.
  induction l as [|x l IH]; simpl; [reflexivity|].
  rewrite map_app, sum_app, sum_cons, IH. reflexivity.
Qed.

(** Picking out one token of a duplicate-free vocabulary. *)
Lemma sum_indicator (d : list string) (w : string) (f : string -> R) :
  NoDup d -> In w d ->
  sum (map (fun tok => (if string_dec w tok then 1 else 0) * f tok)%R d) = f w.
Proof.
  induction 1 as [|tok d Hnin Hnd IH]; intros Hin; [contradiction|].
  cbn [map]. rewrite sum_cons.
  destruct Hin as [->|Hin].
  - destruct (string_dec w w) as [_|Hne]; [|congruence].
    rewrite (@sum_map_ext_in _ _ (fun _ => 0%R) d).
    + assert (Hz : sum (map (fun _ : string => 0%R) d) = 0%R).
      { clear. induction d as [|x d IH]; simpl; [reflexivity|].
        rewrite sum_cons, IH; lra. }
      rewrite Hz; lra.
    + intros x Hx. destruct (string_dec w x) as [->|_]; [contradiction | lra].
  - destruct (string_dec w tok) as [->|_]; [contradiction|].
    rewrite IH by exact Hin. lra.
Qed.

(** A sum over the occurrences of a document is the sum over the vocabulary
    weighted by the number of occurrences. *)
Lemma sum_by_token (d : list string) (f : string -> R) (doc : list string) :
  NoDup d -> (forall tok, In tok doc -> In tok d) ->
  sum (map f doc) =
  sum (map (fun tok => INR (count_occ string_dec doc tok) * f tok)%R d).
Proof.
  intros Hnd. induction doc as [|w doc IH]; intros Hin.
  - simpl. rewrite sum_nil. symmetry.
    clear. induction d as [|x d IH]; simpl; [reflexivity|].
    rewrite sum_cons, IH; lra.
  - cbn [map]. rewrite sum_cons, IH by (intros tok Ht; apply Hin; right; exact Ht).
    rewrite <- (@sum_indicator d w f Hnd) by (apply Hin; left; reflexivity).
    rewrite <- sum_map_plus. apply sum_map_ext_in. intros tok _.
    cbn [count_occ]. destruct (string_dec w tok) as [->|Hne].
    + rewrite S_INR. lra.
    + lra.
Qed.

Lemma map_snd_enumerate {A : Type} (l : list A) : map snd (enumerate l) = l.
Proof.
  unfold enumerate. generalize 0 as s.
  induction l as [|x l IH]; intros s; simpl; [reflexivity|].
  f_equal. apply IH.
Qed.

(** The weighted sum over the bag of words of a document, read through the
    vocabulary. *)
Lemma sum_doc2bow (d : Dictionary.t) (doc : list string) (g : nat -> R) :
  sum (map (fun ic => IZR (snd ic) * g (fst ic))%R (Dictionary.doc2bow d doc)) =
  sum (map (fun it => INR (count_occ string_dec doc (snd it)) * g (fst it))%R
           (enumerate d)).
Proof.
  unfold Dictionary.doc2bow. rewrite sum_map_flat_map.
  apply sum_map_ext_in. intros [i tok] _. cbn [fst snd].
  destruct (Nat.eqb_spec (count_occ string_dec doc tok) 0) as [->|Hne].
  - simpl. rewrite sum_nil. lra.
  - cbn [map fst snd]. rewrite sum_cons, sum_nil, <- INR_IZR_INZ. lra.
Qed.

Lemma under_the_hood_lN2_sum {NP : Numpy} (n_z_w_label : UnderTheHood.dict)
    (b : R) (doc : list string) :
  UnderTheHood.lN2 n_z_w_label b doc =
  sum (map (fun word => np_log (IZR (UnderTheHood.get n_z_w_label word 0) + b)) doc).
Proof.
  unfold UnderTheHood.lN2.
  assert (G : forall acc,
             fold_left (fun a word =>
                          (a + np_log (IZR (UnderTheHood.get n_z_w_label word 0) + b))%R)
                       doc acc =
             (acc + sum (map (fun word =>
                                np_log (IZR (UnderTheHood.get n_z_w_label word 0) + b))
                             doc))%R).
  { induction doc as [|w doc IH]; intros acc; simpl.
    - rewrite sum_nil; lra.
    - rewrite IH, sum_cons. lra. }
  rewrite G. lra.
Qed.

(** The loop of the token-list variant computes the occurrence-weighted term:
    when the dict of a cluster and the row of the array hold the same counts
    (token by token, through a duplicate-free vocabulary that has every token
    of the document), adding [log(count + beta)] once per occurrence gives the
    sum over the (token_id, cnt) pairs of [cnt * log(count + beta)]. *)
Lemma under_the_hood_lN2_occurrence_weighted {NP : Numpy} (d : Dictionary.t)
    (n_z_w_label : UnderTheHood.dict) (row : list Z) (b : R) (doc : list string) :
  NoDup d ->
  (forall tok, In tok doc -> In tok d) ->
  (forall i tok, nth_error d i = Some tok ->
                 UnderTheHood.get n_z_w_label tok 0 = nth i row 0%Z) ->
  UnderTheHood.lN2 n_z_w_label b doc =
  sum (map (fun ic => IZR (snd ic) * np_log (IZR (nth (fst ic) row 0%Z) + b))%R
           (Dictionary.doc2bow d doc)).
Proof.
  intros Hnd Hin Hrow.
  rewrite under_the_hood_lN2_sum.
  rewrite (sum_doc2bow d doc (fun i => np_log (IZR (nth i row 0%Z) + b))).
  rewrite (@sum_by_token d _ doc Hnd Hin).
  rewrite <- (map_snd_enumerate d) at 1. rewrite map_map.
  apply sum_map_ext_in. intros [i tok] Hit. cbn [fst snd].
  apply in_enumerate in Hit as [_ Hit]. rewrite (Hrow _ _ Hit). reflexivity.
Qed.

(** *** The word loop of the token-list variant *)

Lemma values_sum_setitem (d : UnderTheHood.dict) (word : string) (v : Z) :
  UnderTheHood.values_sum (UnderTheHood.setitem d word v) =
  (UnderTheHood.values_sum d - UnderTheHood.get d word 0 + v)%Z.
Proof.
  unfold UnderTheHood.values_sum. induction d as [|[w c] d IH]; simpl.
  - rewrite zsum_cons. change (zsum []) with 0%Z. lia.
  - destruct (string_dec w word) as [_|_]; simpl; rewrite !zsum_cons; [lia|].
    rewrite IH. lia.
Qed.

Lemma get_setitem_same (d : UnderTheHood.dict) (word : string) (v : Z) :
  UnderTheHood.get (UnderTheHood.setitem d word v) word 0 = v.
Proof.
  induction d as [|[w c] d IH]; simpl.
  - destruct (string_dec word word); congruence.
  - destruct (string_dec w word) as [E|E]; simpl;
      destruct (string_dec w word); congruence.
Qed.

Lemma get_absent (d : UnderTheHood.dict) (word : string) :
  UnderTheHood.contains d word = false -> UnderTheHood.get d word 0 = 0%Z.
Proof.
  induction d as [|[w c] d IH]; simpl; [reflexivity|].
  destruct (string_dec w word); [discriminate | exact IH].
Qed.

(** In the token-list variant the word loop adds [len(doc)] to the sum of the
    values of the dict of the cluster, the amount that [n_z[z] += len(doc)]
    adds to its word count: there [len(doc)] is the number of token
    occurrences of the document. *)
Lemma add_words_values_sum (doc : list string) :
  forall n_z_w_z,
  UnderTheHood.values_sum (UnderTheHood.add_words n_z_w_z doc) =
  (UnderTheHood.values_sum n_z_w_z + len doc)%Z.
Proof.
  unfold UnderTheHood.add_words, len.
  induction doc as [|word doc IH]; intros d; cbn [fold_left length].
  - lia.
  - rewrite IH. rewrite values_sum_setitem.
    destruct (UnderTheHood.contains d word) eqn:E.
    + lia.
    + rewrite get_setitem_same, values_sum_setitem, (get_absent _ _ E). lia.
Qed.

(** ** What the word counters of [fit] add up to *)

Lemma nth_update_neq (a : list Z) (i j : nat) (v : Z) :
  i <> j -> nth j (update a i v) 0%Z = nth j a 0%Z.
Proof.
  intros Hne. revert i j Hne; induction a as [|x a IH]; intros [|i] [|j] Hne; simpl; auto;
    congruence.
Qed.

Lemma take_Ok_nth (nc : nat) (row : list Z) (idx : list nat) (old : list Z) :
  take nc row idx = Ok old ->
  old = map (fun i => nth i row 0%Z) idx /\ Forall (fun i => i < length row) idx.
Proof.
  unfold take. revert old; induction idx as [|i idx IH]; simpl; intros old H.
  - injection H as <-. split; [reflexivity | constructor].
  - apply bind_Ok in H as (v & Hv & H). apply bind_Ok in H as (vs & Hvs & H).
    injection H as <-. destruct (i <? nc); [|discriminate].
    apply getitem_Ok in Hv as [Hv Hi]. destruct (IH _ Hvs) as [-> Hall].
    split; [|constructor; assumption].
    simpl. f_equal. symmetry. apply nth_error_nth. exact Hv.
Qed.

(** A fancy in-place update through distinct indices moves the sum of the row
    by the sum of the counts, [s] being the sign of the operation. *)
Lemma put_zsum (op : Z -> Z -> Z) (s : Z) :
  (forall x c, op x c = (x + s * c)%Z) ->
  forall (idx : list nat) (cnt : list Z) (row : list Z),
  NoDup idx -> Forall (fun i => i < length row) idx -> length cnt = length idx ->
  zsum (put row idx (map (fun oc => op (fst oc) (snd oc))
                         (combine (map (fun i => nth i row 0%Z) idx) cnt))) =
  (zsum row + s * zsum cnt)%Z.
Proof.
  intros Hop. unfold put.
  induction idx as [|i idx IH]; intros cnt row Hnd Hlt Hlen.
  - destruct cnt; [|discriminate]. simpl. unfold zsum at 3. simpl. lia.
  - destruct cnt as [|c cnt]; [discriminate|].
    inversion Hnd as [|? ? Hnin Hnd']; inversion Hlt as [|? ? Hi Hlt']; subst.
    cbn [map combine fold_left fst snd].
    set (v := op (nth i row 0%Z) c).
    assert (Hsame : map (fun j => nth j row 0%Z) idx =
                    map (fun j => nth j (update row i v) 0%Z) idx).
    { apply map_ext_in. intros j Hj. symmetry. apply nth_update_neq.
      intros ->. contradiction. }
    rewrite Hsame, IH.
    + rewrite (@zsum_update row i (nth i row 0%Z) v)
        by (apply nth_error_nth'; exact Hi).
      unfold v. rewrite Hop, zsum_cons. lia.
    + exact Hnd'.
    + rewrite update_length. exact Hlt'.
    + simpl in Hlen. lia.
Qed.

Lemma total_update (rs : list (list Z)) (z : nat) (row row' : list Z) :
  nth_error rs z = Some row ->
  zsum (map zsum (update rs z row')) = (zsum (map zsum rs) - zsum row + zsum row')%Z.
Proof.
  revert z; induction rs as [|r rs IH]; intros [|z]; simpl; intros H;
    try discriminate.
  - injection H as ->. rewrite !zsum_cons. lia.
  - rewrite !zsum_cons, (IH _ H). lia.
Qed.

Lemma inplace_at_total_sum (op : Z -> Z -> Z) (s : Z) (a a' : ndarray2) (z : nat)
    (idx : list nat) (cnt : list Z) :
  (forall x c, op x c = (x + s * c)%Z) ->
  NoDup idx -> length cnt = length idx ->
  inplace_at op a z idx cnt = Ok a' ->
  total a' = (total a + s * zsum cnt)%Z.
Proof.
  intros Hop Hnd Hlen H. unfold inplace_at in H.
  apply bind_Ok in H as (row & Hrow & H). apply bind_Ok in H as (old & Hold & H).
  injection H as <-. apply getitem_Ok in Hrow as [Hrow _].
  apply take_Ok_nth in Hold as [-> Hlt].
  unfold total. cbn [rows]. erewrite total_update by exact Hrow.
  erewrite put_zsum by eassumption. lia.
Qed.

Section WordCounters.

Context {NP : Numpy} {RS : RandomSource}.

Lemma init_doc_word_counters (self self' : MovieGroupProcess) (d_z d_z' : list nat)
    (rs rs' : RandomState) (doc : bow) :
  NoDup (map fst doc) ->
  init_doc (self, d_z, rs) doc = Ok (self', d_z', rs') ->
  zsum (cluster_word_count self') = (zsum (cluster_word_count self) + len doc)%Z /\
  total (cluster_word_distribution self') =
    (total (cluster_word_distribution self) + zsum (map snd doc))%Z.
Proof.
  intros Hnd H. unfold init_doc in H.
  apply bind_Ok in H as ([z rs1] & Hz & H).
  apply bind_Ok in H as (m_z & Hm & H). simpl in H.
  apply bind_Ok in H as (n_z & Hn & H). simpl in H.
  apply bind_Ok in H as ([idx cnt] & Hu & H).
  apply bind_Ok in H as (n_z_w & Hw & H). simpl in H.
  injection H as <- <- <-. simpl.
  apply iadd_Ok in Hn as (_ & _ & Hn & _).
  apply unzip_doc_Ok in Hu as (_ & -> & ->).
  split; [exact Hn|].
  assert (Hlen : length (map snd doc) = length (map fst doc))
    by (rewrite !length_map; reflexivity).
  assert (Hadd : forall x c : Z, Z.add x c = (x + 1 * c)%Z) by (intros; lia).
  unfold iadd_at in Hw.
  assert (E : total n_z_w = (total (cluster_word_distribution self)
                             + 1 * zsum (map snd doc))%Z)
    by (eapply inplace_at_total_sum; eassumption).
  lia.
Qed.

Lemma pass_doc_word_counters (self self' : MovieGroupProcess) (d_z d_z' : list nat)
    (rs rs' : RandomState) (t t' : Z) (i : nat) (doc : bow) :
  NoDup (map fst doc) ->
  pass_doc (self, d_z, rs, t) (i, doc) = Ok (self', d_z', rs', t') ->
  zsum (cluster_word_count self') = zsum (cluster_word_count self) /\
  total (cluster_word_distribution self') = total (cluster_word_distribution self).
Proof.
  intros Hnd H. unfold pass_doc in H.
  apply bind_Ok in H as (z_old & Hold & H).
  apply bind_Ok in H as (m1 & Hm1 & H). simpl in H.
  apply bind_Ok in H as (n1 & Hn1 & H). simpl in H.
  apply bind_Ok in H as ([idx cnt] & Hu & H).
  apply bind_Ok in H as (w1 & Hw1 & H). simpl in H.
  apply bind_Ok in H as ([p self1] & Hs & H).
  apply bind_Ok in H as ([z_new rs1] & Hz & H).
  apply bind_Ok in H as (m2 & Hm2 & H). simpl in H.
  apply bind_Ok in H as (n2 & Hn2 & H). simpl in H.
  apply bind_Ok in H as (w2 & Hw2 & H). simpl in H.
  injection H as <- <- <- <-.
  apply score_self in Hs. subst self1. simpl in *.
  apply iadd_Ok in Hn1 as (_ & _ & Hn1 & _). apply iadd_Ok in Hn2 as (_ & _ & Hn2 & _).
  apply unzip_doc_Ok in Hu as (_ & -> & ->).
  assert (Hlen : length (map snd doc) = length (map fst doc))
    by (rewrite !length_map; reflexivity).
  assert (Hsub : forall x c : Z, Z.sub x c = (x + -1 * c)%Z) by (intros; lia).
  assert (Hadd : forall x c : Z, Z.add x c = (x + 1 * c)%Z) by (intros; lia).
  unfold isub_at in Hw1. unfold iadd_at in Hw2.
  assert (E1 : total w1 = (total (cluster_word_distribution self)
                           + -1 * zsum (map snd doc))%Z)
    by (eapply inplace_at_total_sum; eassumption).
  assert (E2 : total w2 = (total w1 + 1 * zsum (map snd doc))%Z)
    by (eapply inplace_at_total_sum; eassumption).
  split; lia.
Qed.

End WordCounters.

(** *** The bag of words of a document of the corpus *)

Lemma doc2bow_NoDup (d : Dictionary.t) (text : list string) :
  NoDup (map fst (Dictionary.doc2bow d text)).
Proof.
  unfold Dictionary.doc2bow, enumerate.
  set (F := fun it : nat * string =>
              let c := count_occ string_dec text (snd it) in
              if c =? 0 then [] else [(fst it, Z.of_nat c)]).
  assert (G : forall s, NoDup (map fst (flat_map F (combine (seq s (length d)) d)))).
  { induction d as [|tok d IH]; intros s; simpl; [constructor|].
    rewrite map_app. unfold F at 1. cbn [fst snd].
    destruct (count_occ string_dec text tok =? 0); simpl; [apply IH|].
    constructor; [|apply IH].
    intros Hin. apply in_map_iff in Hin as ([i c] & Hi & Hin). simpl in Hi. subst i.
    apply in_flat_map in Hin as ([j tok'] & Hj & Hin). unfold F in Hin. simpl in Hin.
    destruct (count_occ string_dec text tok' =? 0); [contradiction|].
    destruct Hin as [Hin|[]]. injection Hin as <- _.
    apply in_combine_l in Hj. apply in_seq in Hj. lia. }
  apply G.
Qed.

Lemma add_token_NoDup (d : Dictionary.t) (tok : string) :
  NoDup d -> NoDup (Dictionary.add_token d tok).
Proof.
  intros Hd. unfold Dictionary.add_token.
  destruct (in_dec string_dec tok d) as [|Hnin]; [exact Hd|].
  apply NoDup_app; [exact Hd | constructor; [intros [] | constructor] |].
  intros x Hx [<-|[]]. contradiction.
Qed.

Lemma create_NoDup (docs_toks : list (list string)) : NoDup (Dictionary.create docs_toks).
Proof.
  unfold Dictionary.create.
  assert (G : forall docs d, NoDup d ->
             NoDup (fold_left (fun d0 doc => fold_left Dictionary.add_token doc d0) docs d)).
  { induction docs as [|doc docs IH]; intros d Hd; simpl; [exact Hd|].
    apply IH. revert d Hd. induction doc as [|tok doc IHd]; intros d Hd; simpl;
      [exact Hd|].
    apply IHd. apply add_token_NoDup. exact Hd. }
  apply G. constructor.
Qed.

Lemma IZR_zsum (l : list Z) : IZR (zsum l) = sum (map IZR l).
Proof.
  induction l as [|x l IH]; simpl; [reflexivity|].
  rewrite zsum_cons, sum_cons, plus_IZR, IH. reflexivity.
Qed.

(** The counts of the bag of words of a document add up to its length when
    the vocabulary has all its tokens. *)
Lemma doc2bow_counts (d : Dictionary.t) (text : list string) :
  NoDup d -> (forall tok, In tok text -> In tok d) ->
  zsum (map snd (Dictionary.doc2bow d text)) = len text.
Proof.
  intros Hnd Hin. apply eq_IZR. rewrite IZR_zsum, map_map.
  rewrite (@sum_map_ext_in _ (fun ic => IZR (snd ic))
             (fun ic => IZR (snd ic) * (fun _ : nat => 1) (fst ic))%R)
    by (intros; lra).
  rewrite (sum_doc2bow d text (fun _ => 1%R)).
  pose proof (@sum_by_token d (fun _ => 1%R) text Hnd Hin) as E.
  rewrite <- (map_snd_enumerate d) in E at 1. rewrite map_map in E.
  cbn [fst snd] in *. rewrite <- E. unfold len. rewrite <- INR_IZR_INZ.
  clear. induction text as [|w text IH]; simpl; [reflexivity|].
  rewrite sum_cons, IH. destruct (length text); simpl; lra.
Qed.

Lemma np_zeros_total (k : Z) (v : nat) (a : ndarray2) :
  np_zeros k v = Ok a -> total a = 0%Z.
Proof.
  unfold np_zeros. destruct (k <? 0)%Z; [discriminate|]. intros H. injection H as <-.
  unfold total. cbn [rows].
  assert (Hrow : zsum (repeat 0%Z v) = 0%Z).
  { induction v as [|v IH]; simpl; [reflexivity | rewrite zsum_cons; lia]. }
  induction (Z.to_nat k) as [|n IH]; simpl; [reflexivity|].
  rewrite zsum_cons, Hrow, IH. reflexivity.
Qed.

Section WordCounterTotals.

Context {NP : Numpy} {RS : RandomSource}.

Lemma init_docs_word_counters (corpus : list bow) :
  forall self d_z rs self' d_z' rs',
  Forall (fun doc => NoDup (map fst doc)) corpus ->
  foldM init_doc corpus (self, d_z, rs) = Ok (self', d_z', rs') ->
  zsum (cluster_word_count self') =
    (zsum (cluster_word_count self) + pairs_total corpus)%Z /\
  total (cluster_word_distribution self') =
    (total (cluster_word_distribution self) + occurrences_total corpus)%Z.
Proof.
  unfold pairs_total, occurrences_total.
  induction corpus as [|doc corpus IH]; intros self d_z rs self' d_z' rs' Hnd H;
    cbn [foldM] in H.
  - injection H as <- <- <-. cbn [map]. change (zsum []) with 0%Z. lia.
  - apply bind_Ok in H as ([[s1 d1] r1] & H1 & H).
    inversion Hnd as [|? ? Hdoc Hnd']; subst.
    eapply init_doc_word_counters in H1 as [E1 E2]; [|exact Hdoc].
    apply IH in H as [E3 E4]; [|exact Hnd'].
    cbn [map]. rewrite !zsum_cons. lia.
Qed.

Lemma pass_docs_word_counters (l : list (nat * bow)) :
  forall self d_z rs t self' d_z' rs' t',
  Forall (fun idoc => NoDup (map fst (snd idoc))) l ->
  foldM pass_doc l (self, d_z, rs, t) = Ok (self', d_z', rs', t') ->
  zsum (cluster_word_count self') = zsum (cluster_word_count self) /\
  total (cluster_word_distribution self') = total (cluster_word_distribution self).
Proof.
  induction l as [|[i doc] l IH]; intros self d_z rs t self' d_z' rs' t' Hnd H;
    cbn [foldM] in H.
  - injection H as <- <- <- <-. auto.
  - apply bind_Ok in H as ([[[s1 d1] r1] t1] & H1 & H).
    inversion Hnd as [|? ? Hdoc Hnd']; subst. simpl in Hdoc.
    eapply pass_doc_word_counters in H1 as [E1 E2]; [|exact Hdoc].
    apply IH in H as [E3 E4]; [|exact Hnd'].
    split; congruence.
Qed.

(** On an object as [__init__] leaves it, after the initialisation and after
    every pass: [word_count] adds up to the number of (token_id, cnt) pairs
    of the corpus, the entries of [word_distribution] to the number of token
    occurrences. *)
Lemma fit_word_counters (self : MovieGroupProcess) (docs : list (list string))
    (rs : RandomState) (corpus : list bow) (st0 : fit_state) :
  zsum (cluster_word_count self) = 0%Z ->
  fit_initialize self docs rs = Ok (corpus, st0) ->
  forall self' d_z rs',
    after_passes corpus st0 (self', d_z, rs') ->
    zsum (cluster_word_count self') = pairs_total corpus /\
    total (cluster_word_distribution self') = occurrences_total corpus /\
    occurrences_total corpus = len (concat docs).
Proof.
  intros Hzero Hinit.
  assert (Hcorpus : corpus = map (Dictionary.doc2bow (Dictionary.create docs)) docs /\
                    zsum (cluster_word_count (fst (fst st0))) = pairs_total corpus /\
                    total (cluster_word_distribution (fst (fst st0))) =
                      occurrences_total corpus).
  { unfold fit_initialize in Hinit. simpl in Hinit.
    apply bind_Ok in Hinit as (w & Hw & Hinit).
    apply bind_Ok in Hinit as ([[s1 d1] r1] & Hf & Hinit).
    injection Hinit as <- <-. split; [reflexivity|].
    apply init_docs_word_counters in Hf as [E1 E2].
    - simpl in *. rewrite (np_zeros_total _ _ Hw) in E2. split; lia.
    - apply Forall_map. apply Forall_forall. intros doc _. apply doc2bow_NoDup. }
  destruct Hcorpus as (Hc & Hp0 & Ho0).
  assert (Hnd : Forall (fun doc => NoDup (map fst doc)) corpus).
  { rewrite Hc. apply Forall_map. apply Forall_forall. intros doc _.
    apply doc2bow_NoDup. }
  assert (Hocc : occurrences_total corpus = len (concat docs)).
  { rewrite Hc. unfold occurrences_total. rewrite map_map.
    rewrite (@map_ext_in _ _ _ (fun doc : list string => len doc)).
    - clear. unfold len. induction docs as [|doc docs IH]; simpl; [reflexivity|].
      rewrite zsum_cons, IH, length_app. lia.
    - intros doc Hdoc. apply doc2bow_counts; [apply create_NoDup|].
      intros tok Htok. eapply create_In; eauto. }
  intros self' d_z rs' Hafter.
  remember (self', d_z, rs') as st eqn:E. revert self' d_z rs' E.
  induction Hafter as [|st1 st2 t Hafter IH Hpass]; intros self' d_z rs' E.
  - subst st0. simpl in *. auto.
  - subst st2. destruct st1 as [[self1 d1] r1].
    destruct (IH _ _ _ eq_refl) as (E1 & E2 & _).
    unfold fit_pass in Hpass. apply pass_docs_word_counters in Hpass as [E3 E4].
    + repeat split; congruence.
    + apply Forall_forall. intros [i doc] Hin. apply in_enumerate in Hin as [_ Hin].
      apply nth_error_In in Hin. rewrite Forall_forall in Hnd. simpl. auto.
Qed.

End WordCounterTotals.

(** ** Reading columns; bounds on sums and logarithms *)

Lemma mapM_getitem_nth (row : list Z) (idx : list nat) :
  Forall (fun i => i < length row) idx ->
  mapM (getitem row) idx = Ok (map (fun i => nth i row 0%Z) idx).
Proof.
  induction 1 as [|i idx Hi _ IH]; simpl; [reflexivity|].
  unfold getitem at 1. rewrite (nth_error_nth' row 0%Z Hi). simpl.
  rewrite IH. reflexivity.
Qed.

(** [a[:, idx]] on a well-shaped array reads every row at [idx]. *)
Lemma take_cols_rows (k v : nat) (a : ndarray2) (idx : list nat) :
  has_shape k v a -> Forall (fun i => i < v) idx ->
  take_cols a idx = Ok (map (fun row => map (fun i => nth i row 0%Z) idx) (rows a)).
Proof.
  intros (Hc & _ & Hrows) Hidx. unfold take_cols.
  assert (Hb : forallb (fun i => i <? ncols a) idx = true).
  { apply forallb_forall. rewrite Forall_forall in Hidx. intros i Hi.
    apply Nat.ltb_lt. rewrite Hc. auto. }
  rewrite Hb. clear Hb Hc.
  induction Hrows as [|row rs Hrow _ IH]; simpl; [reflexivity|].
  rewrite mapM_getitem_nth by (rewrite Hrow; exact Hidx). simpl.
  rewrite IH. reflexivity.
Qed.






(** ** The scripted random source obeys the laws of [RandomSource] *)

Lemma one_hot_length (k i : nat) (n : Z) : length (one_hot k i n) = k.
Proof. unfold one_hot. rewrite update_length. apply repeat_length. Qed.

Lemma zsum_repeat_0 (k : nat) : zsum (repeat 0%Z k) = 0%Z.
Proof. induction k as [|k IH]; simpl; [reflexivity | rewrite zsum_cons; lia]. Qed.

Lemma one_hot_total (k i : nat) (n : Z) : i < k -> zsum (one_hot k i n) = n.
Proof.
  intros Hi. unfold one_hot.
  destruct (@getitem_lt _ (repeat 0%Z k) i) as [x Hx]; [rewrite repeat_length; exact Hi|].
  apply getitem_Ok in Hx as [Hx _].
  assert (x = 0%Z) as -> by (apply nth_error_In in Hx; apply repeat_spec in Hx; exact Hx).
  rewrite (zsum_update _ _ n Hx), zsum_repeat_0. lia.
Qed.

Lemma scripted_length n pvals s :
  length (fst (scripted_multinomial n pvals s)) = length pvals.
Proof. apply one_hot_length. Qed.

Lemma scripted_total n pvals s :
  pvals <> [] -> zsum (fst (scripted_multinomial n pvals s)) = n.
Proof.
  intros Hp. apply one_hot_total. apply Nat.mod_upper_bound.
  destruct pvals; [congruence | discriminate].
Qed.

Definition scripted : RandomSource :=
  {| RandomState := list nat;
     multinomial := scripted_multinomial;
     multinomial_length := scripted_length;
     multinomial_total := scripted_total |}.

(** ** Concrete runs *)

Lemma one_cluster_init : __init__ 1 (1 / 10) (1 / 10) 30 = Ok one_cluster.
Proof. reflexivity. Qed.

Lemma one_cluster_fit :
  @fit ideal scripted one_cluster [["a"%string; "a"%string]] [] =
    Ok ([0], one_cluster_fitted, [], quiet_log).
Proof. lazy. reflexivity. Qed.

Lemma one_cluster_fit_initialize :
  exists self0,
    @fit_initialize scripted one_cluster [["a"%string; "a"%string]] [] =
      Ok ([[(0, 2%Z)]], (self0, [0], [])) /\
    cluster_doc_count self0 = [1%Z] /\
    cluster_word_count self0 = [1%Z] /\
    cluster_word_distribution self0 = mk_ndarray2 1 [[2%Z]].
Proof. eexists. split; [lazy; reflexivity|]. lazy. auto. Qed.

(** *** The scoring function *)

(** C1 (code bug). At the document [[(0, 2)]] (token 0 twice) and a cluster
    that holds token 0 twice, [score] adds [log(2 + beta)] once to [lN2]; the
    occurrence-weighted term of the claim is twice that, which is what the loop
    over the token list in [example_under_the_hood.py] adds up. *)
Theorem lN2_one_addend_per_pair :
  exists x y,
    @lN2 ideal one_cluster_fitted (map fst [(0, 2%Z)]) = Ok [x] /\
    x = ln (2 + 1 / 10) /\
    @lN2_occurrence_weighted ideal one_cluster_fitted [(0, 2%Z)] = Ok [y] /\
    y = (2 * ln (2 + 1 / 10))%R /\
    @UnderTheHood.lN2 ideal [("a"%string, 2%Z)] (1 / 10) ["a"%string; "a"%string] = y /\
    x <> y.
Proof.
  assert (Hpos : (0 < ln (2 + 1 / 10))%R).
  { rewrite <- ln_1. apply ln_increasing; lra. }
  eexists _, _. split; [reflexivity|]. split; [unfold sum; simpl; lra|].
  split; [reflexivity|]. split; [unfold sum; simpl; lra|].
  split; [unfold UnderTheHood.lN2, sum; simpl; lra|].
  unfold sum; simpl. lra.
Qed.

(** C2 (code bug). After [fit([["a", "a"]])] with one cluster, and already
    after the initialisation, [word_count[0]] is 1 (the number of pairs of the
    document) while [word_distribution[0]] sums to 2, the number of token
    occurrences in the corpus. In [example_under_the_hood.py] the document is
    the token list, [len(doc)] is 2 and the word loop leaves a dict whose
    values sum to 2. *)
Theorem word_count_counts_pairs :
  exists corpus self0 d0 rs0 d_z self' rs' out,
    __init__ 1 (1 / 10) (1 / 10) 30 = Ok one_cluster /\
    @fit_initialize scripted one_cluster [["a"%string; "a"%string]] [] =
      Ok (corpus, (self0, d0, rs0)) /\
    corpus = [[(0, 2%Z)]] /\
    zsum (cluster_word_count self0) = 1%Z /\
    map zsum (rows (cluster_word_distribution self0)) = [2%Z] /\
    @fit ideal scripted one_cluster [["a"%string; "a"%string]] [] =
      Ok (d_z, self', rs', out) /\
    cluster_word_count self' = [1%Z] /\
    map zsum (rows (cluster_word_distribution self')) = [2%Z] /\
    len ["a"%string; "a"%string] = 2%Z /\
    UnderTheHood.values_sum (UnderTheHood.add_words [] ["a"%string; "a"%string]) = 2%Z.
Proof.
  destruct one_cluster_fit_initialize as (self0 & Hinit & _ & Hn & Hw).
  exists [[(0, 2%Z)]], self0, [0], [], [0], one_cluster_fitted, [], quiet_log.
  split; [reflexivity|]. split; [exact Hinit|]. split; [reflexivity|].
  rewrite Hn, Hw. split; [reflexivity|]. split; [reflexivity|].
  split; [exact one_cluster_fit|]. split; [reflexivity|].
  split; [reflexivity|]. split; reflexivity.
Qed.

(** *** A degenerate score *)

Lemma no_cluster_from_data :
  from_data 0 (1 / 10) (1 / 10) ["a"%string] [] [] (mk_ndarray2 1 []) = Ok no_cluster.
Proof. reflexivity. Qed.






(** *** Witnesses *)

Lemma score_sums_to_one_witness :
  exists q p,
    @score_unnormalized ideal one_cluster_fitted [(0, 2%Z)] = Ok q /\
    (0 < sum q)%R /\
    @score ideal one_cluster_fitted [(0, 2%Z)] = Ok (p, one_cluster_fitted) /\
    sum p = 1%R /\ length p = 1.
Proof.
  destruct (@score_unnormalized ideal one_cluster_fitted [(0, 2%Z)]) as [q|e] eqn:E;
    [|discriminate E].
  assert (Hpos : (0 < sum q)%R).
  { cbv [score_unnormalized lD1 lN1 lN2 lD2 bind from_option one_cluster_fitted
         number_docs vocab_size unzip_doc] in E.
    simpl in E. injection E as <-. rewrite sum_cons, sum_nil.
    match goal with |- (0 < exp ?t + 0)%R => pose proof (exp_pos t) end. lra. }
  destruct (@score_sums_to_one ideal one_cluster_fitted [(0, 2%Z)] q E Hpos)
    as (p & Hp & Hsum & _ & Hlen).
  exists q, p. repeat split; auto.
Defined.


Lemma fit_passes_and_early_stop_witness :
  @fit ideal scripted one_cluster [["a"%string; "a"%string]] [] =
    Ok ([0], one_cluster_fitted, [], quiet_log) /\
  exists (tc : list (Z * Z)) (conv : bool),
    quiet_log = stage_lines 0 tc ++ (if conv then [Converged] else []) /\
    length tc <= Z.to_nat (n_iters one_cluster) /\
    (conv = false -> length tc = Z.to_nat (n_iters one_cluster)) /\
    (forall i t c, nth_error tc i = Some (t, c) ->
       (stops_early (previous_count (K one_cluster) tc i) i t c <->
        conv = true /\ S i = length tc)) /\
    ((forall i t c, nth_error tc i = Some (t, c) -> t = 0%Z) -> length tc <= 27) /\
    (K one_cluster = 1%Z -> length (cluster_doc_count one_cluster) = 1 ->
     length tc <= 27).
Proof.
  split; [exact one_cluster_fit|].
  exact (@fit_passes_and_early_stop ideal scripted one_cluster
           [["a"%string; "a"%string]] [] [0] one_cluster_fitted [] quiet_log
           one_cluster_fit).
Defined.



Lemma empty_document_unpacking_error_witness :
  @score ideal one_cluster_fitted [] = Raise (ValueError_unpack 0) /\
  (Dictionary.doc2bow ["a"%string] ["b"%string] = [] /\
   @choose_best_label ideal one_cluster_fitted ["b"%string] = Raise (ValueError_unpack 0)) /\
  @fit ideal scripted one_cluster [["a"%string]; []] [] = Raise (ValueError_unpack 0).
Proof.
  destruct (@empty_document_unpacking_error ideal scripted) as (H1 & H2 & H3).
  split; [|split].
  - apply (H1 one_cluster_fitted 1%Z). reflexivity.
  - apply (H2 one_cluster_fitted ["a"%string] 1%Z ["b"%string]);
      [reflexivity | reflexivity |].
    intros tok [<-|[]] [H|[]]. discriminate H.
  - apply (H3 1%Z (1 / 10)%R (1 / 10)%R 30%Z one_cluster);
      [lia | reflexivity | right; left; reflexivity].
Defined.

(** * Properties of the code around the engine *)

(** ** The statistics after [fit] are those of the assignment *)

Lemma zsum_app (l1 l2 : list Z) : zsum (l1 ++ l2) = (zsum l1 + zsum l2)%Z.
Proof.
  induction l1 as [|x l1 IH]; simpl; [reflexivity|].
  rewrite !zsum_cons, IH. lia.
Qed.

Lemma nth_update {A : Type} (a : list A) (i j : nat) (v d : A) :
  i < length a ->
  nth j (update a i v) d = if j =? i then v else nth j a d.
Proof.
  revert i j; induction a as [|x a IH]; intros [|i] [|j] Hi; simpl in *;
    try lia; auto.
  apply IH. lia.
Qed.

Lemma iadd_nth (a a' : list Z) (i : nat) (v : Z) :
  iadd a i v = Ok a' ->
  forall z, nth z a' 0%Z = (nth z a 0 + (if (z =? i)%nat then v else 0))%Z.
Proof.
  intros H z. apply iadd_Ok in H as (Hi & _ & _ & x & Hx & ->).
  rewrite nth_update by exact Hi.
  destruct (Nat.eqb_spec z i) as [->|Hne]; [|lia].
  rewrite (nth_error_nth _ _ 0%Z Hx). reflexivity.
Qed.

Lemma count_of_cons (w : nat) (ic : nat * Z) (doc : bow) :
  count_of w (ic :: doc) = ((if (fst ic =? w)%nat then snd ic else 0) + count_of w doc)%Z.
Proof.
  unfold count_of. simpl. destruct (fst ic =? w); simpl; [rewrite zsum_cons|]; lia.
Qed.

Lemma count_of_absent (w : nat) (doc : bow) :
  ~ In w (map fst doc) -> count_of w doc = 0%Z.
Proof.
  induction doc as [|ic doc IH]; intros Hnin; [reflexivity|].
  rewrite count_of_cons. simpl in Hnin.
  destruct (Nat.eqb_spec (fst ic) w) as [E|_]; [tauto|].
  rewrite IH by tauto. reflexivity.
Qed.

(** A fancy in-place update through the distinct ids of a bag of words moves
    each entry of the row by the count of its id, [s] being the sign of the
    operation. *)
Lemma put_nth (op : Z -> Z -> Z) (s : Z) :
  (forall x c, op x c = (x + s * c)%Z) ->
  forall (doc : bow) (row : list Z) (w : nat),
  NoDup (map fst doc) -> Forall (fun i => i < length row) (map fst doc) ->
  nth w (put row (map fst doc)
           (map (fun oc => op (fst oc) (snd oc))
                (combine (map (fun i => nth i row 0%Z) (map fst doc)) (map snd doc)))) 0%Z =
  (nth w row 0 + s * count_of w doc)%Z.
Proof.
  intros Hop. unfold put.
  induction doc as [|[i c] doc IH]; intros row w Hnd Hlt.
  - simpl. unfold count_of. simpl. change (zsum []) with 0%Z. lia.
  - cbn [map fst snd] in Hnd, Hlt.
    inversion Hnd as [|? ? Hnin Hnd']; inversion Hlt as [|? ? Hi Hlt']; subst.
    cbn [map combine fold_left fst snd].
    set (v := op (nth i row 0%Z) c).
    assert (Hsame : map (fun j => nth j row 0%Z) (map fst doc) =
                    map (fun j => nth j (update row i v) 0%Z) (map fst doc)).
    { apply map_ext_in. intros j Hj. symmetry. rewrite nth_update by exact Hi.
      destruct (Nat.eqb_spec j i) as [->|_]; [contradiction | reflexivity]. }
    rewrite Hsame, IH.
    + rewrite nth_update by exact Hi. rewrite count_of_cons. cbn [fst snd].
      rewrite (Nat.eqb_sym i w).
      destruct (Nat.eqb_spec w i) as [->|_].
      * unfold v. rewrite Hop, (@count_of_absent i doc Hnin). lia.
      * lia.
    + exact Hnd'.
    + rewrite update_length. exact Hlt'.
Qed.

Lemma inplace_at_entry (op : Z -> Z -> Z) (s : Z) (a a' : ndarray2) (z : nat) (doc : bow) :
  (forall x c, op x c = (x + s * c)%Z) ->
  NoDup (map fst doc) ->
  inplace_at op a z (map fst doc) (map snd doc) = Ok a' ->
  forall z' w,
    entry a' z' w = (entry a z' w + (if (z' =? z)%nat then s * count_of w doc else 0))%Z.
Proof.
  intros Hop Hnd H z' w. unfold inplace_at in H.
  apply bind_Ok in H as (row & Hrow & H). apply bind_Ok in H as (old & Hold & H).
  injection H as <-. apply getitem_Ok in Hrow as [Hrow Hz].
  apply take_Ok_nth in Hold as [-> Hlt].
  unfold entry. cbn [rows]. rewrite nth_update by exact Hz.
  destruct (Nat.eqb_spec z' z) as [->|_]; [|lia].
  rewrite (@put_nth op s Hop) by assumption.
  rewrite (nth_error_nth _ _ [] Hrow). reflexivity.
Qed.

Lemma recount_sum (g : bow -> Z) (z : nat) (d_z : list nat) (corpus : list bow) :
  recount g z d_z corpus =
  zsum (map (fun zd => if fst zd =? z then g (snd zd) else 0%Z) (combine d_z corpus)).
Proof.
  unfold recount, docs_of. induction (combine d_z corpus) as [|zd l IH]; simpl;
    [reflexivity|].
  destruct (fst zd =? z); simpl; rewrite !zsum_cons, ?IH; lia.
Qed.

Lemma combine_prefix {A B : Type} (a : list A) (b c : list B) :
  length a = length b -> combine a (b ++ c) = combine a b.
Proof.
  revert b; induction a as [|x a IH]; intros [|y b] H; simpl in *; try lia; auto.
  f_equal. apply IH. lia.
Qed.

Lemma combine_snoc {A B : Type} (a : list A) (b : list B) (x : A) (y : B) (c : list B) :
  length a = length b ->
  combine (a ++ [x]) (b ++ y :: c) = combine a b ++ [(x, y)].
Proof.
  revert b; induction a as [|x' a IH]; intros [|y' b] H; simpl in *; try lia.
  - reflexivity.
  - f_equal. apply IH. lia.
Qed.

Lemma combine_update {A B : Type} (a : list A) (b : list B) (i : nat) (x : A) (y : B) :
  nth_error b i = Some y ->
  combine (update a i x) b = update (combine a b) i (x, y).
Proof.
  revert b i; induction a as [|x' a IH]; intros [|y' b] [|i] H; simpl in *;
    try discriminate; auto.
  - injection H as ->. reflexivity.
  - f_equal. apply IH. exact H.
Qed.

Lemma nth_error_combine {A B : Type} (a : list A) (b : list B) (i : nat) (x : A) (y : B) :
  nth_error a i = Some x -> nth_error b i = Some y ->
  nth_error (combine a b) i = Some (x, y).
Proof.
  revert b i; induction a as [|x' a IH]; intros [|y' b] [|i] Ha Hb; simpl in *;
    try discriminate; auto.
  congruence.
Qed.

Lemma map_update {A B : Type} (f : A -> B) (a : list A) (i : nat) (v : A) :
  map f (update a i v) = update (map f a) i (f v).
Proof.
  revert i; induction a as [|x a IH]; intros [|i]; simpl; auto.
  f_equal. apply IH.
Qed.

Section Recount.

Context {NP : Numpy} {RS : RandomSource}.

Lemma init_doc_recounted (m0 n0 : list Z) (pre post : list bow) (doc : bow)
    (self self' : MovieGroupProcess) (d_z d_z' : list nat) (rs rs' : RandomState) :
  NoDup (map fst doc) ->
  length d_z = length pre ->
  recounted m0 n0 (pre ++ doc :: post) self d_z ->
  init_doc (self, d_z, rs) doc = Ok (self', d_z', rs') ->
  length d_z' = length (pre ++ [doc]) /\
  recounted m0 n0 (pre ++ doc :: post) self' d_z'.
Proof.
  intros Hnd Hlen Hinv H. unfold init_doc in H.
  apply bind_Ok in H as ([z rs1] & Hz & H).
  apply bind_Ok in H as (m_z & Hm & H). simpl in H.
  apply bind_Ok in H as (n_z & Hn & H). simpl in H.
  apply bind_Ok in H as ([idx cnt] & Hu & H).
  apply bind_Ok in H as (n_z_w & Hw & H). simpl in H.
  injection H as <- <- <-.
  apply unzip_doc_Ok in Hu as (_ & -> & ->).
  split; [rewrite !length_app; simpl; lia|].
  assert (Hadd : forall x c : Z, Z.add x c = (x + 1 * c)%Z) by (intros; lia).
  assert (Hre : forall g z',
            recount g z' (d_z ++ [z]) (pre ++ doc :: post) =
            (recount g z' d_z (pre ++ doc :: post) + (if (z' =? z)%nat then g doc else 0))%Z).
  { intros g z'. rewrite !recount_sum.
    rewrite (@combine_snoc _ _ d_z pre z doc post Hlen).
    replace (pre ++ doc :: post) with (pre ++ (doc :: post)) by reflexivity.
    rewrite (@combine_prefix _ _ d_z pre (doc :: post) Hlen).
    rewrite map_app, zsum_app. cbn [map fst snd].
    rewrite (Nat.eqb_sym z z'). rewrite zsum_cons. change (zsum []) with 0%Z. lia. }
  intros z'. destruct (Hinv z') as (H1 & H2 & H3). simpl.
  rewrite (@iadd_nth _ _ _ _ Hm z'), (@iadd_nth _ _ _ _ Hn z'), !Hre, H1, H2.
  split; [destruct (z' =? z); lia|]. split; [destruct (z' =? z); lia|].
  intros w. unfold iadd_at in Hw.
  rewrite (@inplace_at_entry _ 1 _ _ _ _ Hadd Hnd Hw z' w), Hre, H3.
  destruct (z' =? z); lia.
Qed.

Lemma init_docs_recounted (m0 n0 : list Z) (l : list bow) :
  forall (pre : list bow) self d_z rs self' d_z' rs',
  Forall (fun doc => NoDup (map fst doc)) l ->
  length d_z = length pre ->
  recounted m0 n0 (pre ++ l) self d_z ->
  foldM init_doc l (self, d_z, rs) = Ok (self', d_z', rs') ->
  length d_z' = length (pre ++ l) /\ recounted m0 n0 (pre ++ l) self' d_z'.
Proof.
  induction l as [|doc l IH]; intros pre self d_z rs self' d_z' rs' Hnd Hlen Hinv H;
    cbn [foldM] in H.
  - injection H as <- <- <-. rewrite app_nil_r in *. auto.
  - apply bind_Ok in H as ([[s1 d1] r1] & H1 & H).
    inversion Hnd as [|? ? Hdoc Hnd']; subst.
    eapply init_doc_recounted in H1 as [Hlen1 Hinv1]; [|exact Hdoc|exact Hlen|exact Hinv].
    replace (pre ++ doc :: l) with ((pre ++ [doc]) ++ l) in *
      by (rewrite <- app_assoc; reflexivity).
    eapply IH; eauto.
Qed.

Lemma pass_doc_recounted (m0 n0 : list Z) (corpus : list bow) (i : nat) (doc : bow)
    (self self' : MovieGroupProcess) (d_z d_z' : list nat) (rs rs' : RandomState)
    (t t' : Z) :
  NoDup (map fst doc) ->
  nth_error corpus i = Some doc ->
  recounted m0 n0 corpus self d_z ->
  pass_doc (self, d_z, rs, t) (i, doc) = Ok (self', d_z', rs', t') ->
  length d_z' = length d_z /\ recounted m0 n0 corpus self' d_z'.
Proof.
  intros Hnd Hdoc Hinv H. unfold pass_doc in H.
  apply bind_Ok in H as (z_old & Hold & H).
  apply bind_Ok in H as (m1 & Hm1 & H). simpl in H.
  apply bind_Ok in H as (n1 & Hn1 & H). simpl in H.
  apply bind_Ok in H as ([idx cnt] & Hu & H).
  apply bind_Ok in H as (w1 & Hw1 & H). simpl in H.
  apply bind_Ok in H as ([p self1] & Hs & H).
  apply bind_Ok in H as ([z_new rs1] & Hz & H).
  apply bind_Ok in H as (m2 & Hm2 & H). simpl in H.
  apply bind_Ok in H as (n2 & Hn2 & H). simpl in H.
  apply bind_Ok in H as (w2 & Hw2 & H). simpl in H.
  injection H as <- <- <- <-.
  apply score_self in Hs. subst self1. simpl in *.
  apply unzip_doc_Ok in Hu as (_ & -> & ->).
  apply getitem_Ok in Hold as [Hold Hi].
  split; [apply update_length|].
  assert (Hsub : forall x c : Z, Z.sub x c = (x + -1 * c)%Z) by (intros; lia).
  assert (Hadd : forall x c : Z, Z.add x c = (x + 1 * c)%Z) by (intros; lia).
  assert (Hre : forall g z',
            recount g z' (update d_z i z_new) corpus =
            (recount g z' d_z corpus - (if (z' =? z_old)%nat then g doc else 0)
             + (if (z' =? z_new)%nat then g doc else 0))%Z).
  { intros g z'. rewrite !recount_sum.
    rewrite (@combine_update _ _ d_z corpus i z_new doc Hdoc), map_update.
    pose proof (@nth_error_combine _ _ d_z corpus i z_old doc Hold Hdoc) as Hn.
    erewrite zsum_update
      by (rewrite nth_error_map, Hn; reflexivity).
    cbn [fst snd]. rewrite (Nat.eqb_sym z_old z'), (Nat.eqb_sym z_new z'). lia. }
  intros z'. destruct (Hinv z') as (H1 & H2 & H3). simpl.
  rewrite (@iadd_nth _ _ _ _ Hm2 z'), (@iadd_nth _ _ _ _ Hm1 z'), (@iadd_nth _ _ _ _ Hn2 z'), (@iadd_nth _ _ _ _ Hn1 z'),
    !Hre, H1, H2.
  split; [destruct (z' =? z_old), (z' =? z_new); lia|].
  split; [destruct (z' =? z_old), (z' =? z_new); lia|].
  intros w. unfold isub_at in Hw1. unfold iadd_at in Hw2.
  rewrite (@inplace_at_entry _ 1 _ _ _ _ Hadd Hnd Hw2 z' w),
    (@inplace_at_entry _ (-1) _ _ _ _ Hsub Hnd Hw1 z' w), Hre, H3.
  destruct (z' =? z_old), (z' =? z_new); lia.
Qed.

Lemma pass_docs_recounted (m0 n0 : list Z) (corpus : list bow) (l : list (nat * bow)) :
  forall self d_z rs t self' d_z' rs' t',
  Forall (fun idoc => NoDup (map fst (snd idoc)) /\
                      nth_error corpus (fst idoc) = Some (snd idoc)) l ->
  recounted m0 n0 corpus self d_z ->
  foldM pass_doc l (self, d_z, rs, t) = Ok (self', d_z', rs', t') ->
  length d_z' = length d_z /\ recounted m0 n0 corpus self' d_z'.
Proof.
  induction l as [|[i doc] l IH]; intros self d_z rs t self' d_z' rs' t' Hl Hinv H;
    cbn [foldM] in H.
  - injection H as <- <- <- <-. auto.
  - apply bind_Ok in H as ([[[s1 d1] r1] t1] & H1 & H).
    inversion Hl as [|? ? [Hnd Hdoc] Hl']; subst. simpl in Hnd, Hdoc.
    eapply pass_doc_recounted in H1 as [Hlen1 Hinv1]; [|exact Hnd|exact Hdoc|exact Hinv].
    eapply IH in H as [Hlen2 Hinv2]; [|exact Hl'|exact Hinv1].
    split; [congruence | exact Hinv2].
Qed.

Lemma entry_zeros (k : Z) (v : nat) (a : ndarray2) (z w : nat) :
  np_zeros k v = Ok a -> entry a z w = 0%Z.
Proof.
  unfold np_zeros. destruct (k <? 0)%Z; [discriminate|]. intros H. injection H as <-.
  unfold entry. cbn [rows].
  destruct (Nat.lt_ge_cases z (Z.to_nat k)) as [Hz|Hz].
  - rewrite nth_repeat_lt by exact Hz. apply nth_repeat.
  - rewrite (@nth_overflow _ (repeat (repeat 0%Z v) (Z.to_nat k)) z [])
      by (rewrite repeat_length; exact Hz).
    destruct w; reflexivity.
Qed.

(** Between the steps of a run of [fit], whatever the object it started
    from: the document and word counters are what the run found plus the
    recount over the assignment, and the word distribution, which [fit]
    resets, is the recount. *)
Lemma fit_recounted (self : MovieGroupProcess) (docs : list (list string))
    (rs : RandomState) (corpus : list bow) (st0 : fit_state) :
  fit_initialize self docs rs = Ok (corpus, st0) ->
  forall self' d_z rs',
    after_passes corpus st0 (self', d_z, rs') ->
    corpus = map (Dictionary.doc2bow (Dictionary.create docs)) docs /\
    length d_z = length docs /\
    recounted (cluster_doc_count self) (cluster_word_count self) corpus self' d_z.
Proof.
  intros Hinit.
  assert (Hc : corpus = map (Dictionary.doc2bow (Dictionary.create docs)) docs /\
               length (snd (fst st0)) = length corpus /\
               recounted (cluster_doc_count self) (cluster_word_count self) corpus
                 (fst (fst st0)) (snd (fst st0))).
  { unfold fit_initialize in Hinit. simpl in Hinit.
    apply bind_Ok in Hinit as (w & Hw & Hinit).
    apply bind_Ok in Hinit as ([[s1 d1] r1] & Hf & Hinit).
    injection Hinit as <- <-. split; [reflexivity|]. simpl.
    eapply init_docs_recounted with (m0 := cluster_doc_count self)
              (n0 := cluster_word_count self) (pre := []) in Hf.
    - exact Hf.
    - apply Forall_map. apply Forall_forall. intros doc _. apply doc2bow_NoDup.
    - reflexivity.
    - intros z. unfold recount, docs_of. simpl. change (zsum []) with 0%Z.
      split; [lia|]. split; [lia|]. intros w0. apply (entry_zeros _ _ _ _ Hw). }
  destruct Hc as (Hc & Hl0 & Hinv0).
  assert (Hnd : Forall (fun doc => NoDup (map fst doc)) corpus).
  { rewrite Hc. apply Forall_map. apply Forall_forall. intros doc _.
    apply doc2bow_NoDup. }
  intros self' d_z rs' Hafter.
  split; [exact Hc|].
  assert (G : length d_z = length corpus /\
              recounted (cluster_doc_count self) (cluster_word_count self) corpus self' d_z).
  { remember (self', d_z, rs') as st eqn:E. revert self' d_z rs' E.
    induction Hafter as [|st1 st2 t Hafter IH Hpass]; intros self' d_z rs' E.
    - subst st0. simpl in *. auto.
    - subst st2. destruct st1 as [[self1 d1] r1].
      destruct (IH _ _ _ eq_refl) as [Hl1 Hinv1].
      unfold fit_pass in Hpass.
      apply pass_docs_recounted with (m0 := cluster_doc_count self)
        (n0 := cluster_word_count self) (corpus := corpus) in Hpass.
      + destruct Hpass as [Hl2 Hinv2]. split; [congruence | exact Hinv2].
      + apply Forall_forall. intros [i doc] Hin. apply in_enumerate in Hin as [_ Hin].
        simpl. split; [|exact Hin].
        apply nth_error_In in Hin. rewrite Forall_forall in Hnd. auto.
      + exact Hinv1. }
  destruct G as [Hl Hinv]. split; [|exact Hinv].
  rewrite Hl, Hc. apply length_map.
Qed.

End Recount.

Lemma nth_zeros (k : Z) (z : nat) : nth z (map (fun _ : nat => 0%Z) (range k)) 0%Z = 0%Z.
Proof.
  unfold range. revert z. generalize 0 as s.
  induction (Z.to_nat k) as [|n IH]; intros s [|z]; simpl; auto.
Qed.

Lemma recount_ones (z : nat) (d_z : list nat) (corpus : list bow) :
  length d_z = length corpus ->
  recount (fun _ => 1%Z) z d_z corpus = Z.of_nat (count_occ Nat.eq_dec d_z z).
Proof.
  rewrite recount_sum. revert corpus.
  induction d_z as [|x d_z IH]; intros [|doc corpus] Hlen;
    cbn [combine map length fst snd count_occ] in *; try discriminate; [reflexivity|].
  rewrite zsum_cons, IH by lia.
  destruct (Nat.eqb_spec x z) as [E1|E1], (Nat.eq_dec x z) as [E|E];
    try congruence; lia.
Qed.

Lemma list_as_map (m : list Z) :
  m = map (fun z => nth z m 0%Z) (seq 0 (length m)).
Proof.
  induction m as [|x m IH]; simpl; [reflexivity|].
  f_equal. rewrite <- seq_shift, map_map. exact IH.
Qed.

Lemma filter_map_length {A B : Type} (p : B -> bool) (f : A -> B) (l : list A) :
  length (filter p (map f l)) = length (filter (fun x => p (f x)) l).
Proof.
  induction l as [|x l IH]; simpl; [reflexivity|].
  destruct (p (f x)); simpl; rewrite IH; reflexivity.
Qed.

(** The number of positive entries of a counter that holds, for each of [k]
    labels, how often the label occurs in [d_z], is the number of distinct
    labels of [d_z]. *)
Lemma populated_distinct (k : nat) (m : list Z) (d_z : list nat) :
  length m = k ->
  Forall (fun z => z < k) d_z ->
  (forall z, nth z m 0%Z = Z.of_nat (count_occ Nat.eq_dec d_z z)) ->
  populated m = len (nodup Nat.eq_dec d_z).
Proof.
  intros Hlen Hlab Hm. unfold populated, len. f_equal.
  rewrite (list_as_map m) at 1. rewrite filter_map_length, Hlen.
  apply Permutation_length. apply NoDup_Permutation.
  - apply NoDup_filter. apply seq_NoDup.
  - apply NoDup_nodup.
  - intros z. rewrite filter_In, nodup_In, in_seq, Hm.
    rewrite (count_occ_In Nat.eq_dec). rewrite Forall_forall in Hlab.
    split.
    + intros [_ Hz]. apply Z.ltb_lt in Hz. lia.
    + intros Hz. split.
      * apply (count_occ_In Nat.eq_dec) in Hz as Hin. specialize (Hlab z Hin). lia.
      * apply Z.ltb_lt. lia.
Qed.

Section RecountFit.

Context {NP : Numpy} {RS : RandomSource}.

(** X1. When [fit] returns on an object as [__init__] leaves it, it returns
    one label per document, [doc_count[z]] is the number of documents that
    carry the label [z], no more, no less, and the number of populated
    clusters ([doc_count > 0]) is the number of distinct labels returned. *)
Theorem fit_doc_count_counts_labels (k : Z) (a b : R) (n : Z) (self : MovieGroupProcess)
    (docs : list (list string)) (rs : RandomState) (d_z : list nat)
    (self' : MovieGroupProcess) (rs' : RandomState) (out : list line) :
  __init__ k a b n = Ok self ->
  fit self docs rs = Ok (d_z, self', rs', out) ->
  length d_z = length docs /\
  (forall z, nth z (cluster_doc_count self') 0%Z =
             Z.of_nat (count_occ Nat.eq_dec d_z z)) /\
  populated (cluster_doc_count self') = len (nodup Nat.eq_dec d_z).
Proof.
  intros Hnew Hfit.
  pose proof Hfit as Hfit'.
  apply fit_Ok in Hfit' as (corpus & st0 & Hinit & _).
  assert (Hafter : after_passes corpus st0 (self', d_z, rs'))
    by (eapply fit_after_passes; eassumption).
  destruct (@fit_recounted _ _ _ _ _ _ _ Hinit _ _ _ Hafter) as (Hc & Hlen & Hinv).
  assert (Hfresh : self = {| K := k; alpha := a; beta := b; n_iters := n;
            number_docs := None; vocab_size := None;
            cluster_doc_count := map (fun _ => 0%Z) (range k);
            cluster_word_count := map (fun _ => 0%Z) (range k);
            cluster_word_distribution := mk_ndarray2 0 (map (fun _ => []) (range k));
            dictionary := None; corpus := None |})
    by (unfold __init__ in Hnew; congruence).
  apply __init___Ok in Hnew as (HK & _ & _ & _ & Hl & _).
  assert (Hl' : length (cluster_doc_count self) = Z.to_nat (K self)) by congruence.
  destruct (fit_doc_count_from Hl' Hinit Hafter) as [_ _ Hlab Hml _].
  assert (Hcnt : forall z, nth z (cluster_doc_count self') 0%Z =
                           Z.of_nat (count_occ Nat.eq_dec d_z z)).
  { intros z. destruct (Hinv z) as (H1 & _). rewrite H1.
    rewrite recount_ones by (rewrite Hlen, Hc, length_map; reflexivity).
    rewrite Hfresh. cbn [cluster_doc_count]. rewrite nth_zeros. lia. }
  split; [exact Hlen|]. split; [exact Hcnt|].
  eapply populated_distinct; eauto.
Qed.

(** X2. When [fit] returns on an object as [__init__] leaves it, the word
    statistics are those of the assignment it returns: [word_count[z]] is the
    number of (token_id, cnt) pairs of the documents labelled [z], and
    [word_distribution[z][w]] is the sum of the counts of token [w] over the
    documents labelled [z]. *)
Theorem fit_word_statistics_recount (k : Z) (a b : R) (n : Z) (self : MovieGroupProcess)
    (docs : list (list string)) (rs : RandomState) (d_z : list nat)
    (self' : MovieGroupProcess) (rs' : RandomState) (out : list line) :
  __init__ k a b n = Ok self ->
  fit self docs rs = Ok (d_z, self', rs', out) ->
  let corpus := map (Dictionary.doc2bow (Dictionary.create docs)) docs in
  forall z,
    nth z (cluster_word_count self') 0%Z =
      zsum (map (fun doc => len doc) (docs_of z d_z corpus)) /\
    forall w, entry (cluster_word_distribution self') z w =
              zsum (map (count_of w) (docs_of z d_z corpus)).
Proof.
  intros Hnew Hfit corpus z.
  pose proof Hfit as Hfit'.
  apply fit_Ok in Hfit' as (corpus' & st0 & Hinit & _).
  assert (Hafter : after_passes corpus' st0 (self', d_z, rs'))
    by (eapply fit_after_passes; eassumption).
  destruct (@fit_recounted _ _ _ _ _ _ _ Hinit _ _ _ Hafter) as (Hc & Hlen & Hinv).
  unfold __init__ in Hnew. injection Hnew as <-. cbn [cluster_word_count] in Hinv.
  destruct (Hinv z) as (_ & H2 & H3). subst corpus'. fold corpus in H2, H3.
  split.
  - rewrite H2, nth_zeros. unfold recount. rewrite Z.add_0_l. reflexivity.
  - intros w. rewrite H3. reflexivity.
Qed.

End RecountFit.

(** ** What [fit] leaves on the object *)

Lemma same_config_refl (a : MovieGroupProcess) : same_config a a.
Proof. unfold same_config. tauto. Qed.

Lemma same_config_trans (a b c : MovieGroupProcess) :
  same_config a b -> same_config b c -> same_config a c.
Proof.
  unfold same_config. intros (H1 & H2 & H3 & H4 & H5 & H6 & H7 & H8)
    (G1 & G2 & G3 & G4 & G5 & G6 & G7 & G8).
  repeat split; congruence.
Qed.

Section Config.

Context {NP : Numpy} {RS : RandomSource}.

Lemma init_docs_same_config (l : list bow) :
  forall self d_z rs self' d_z' rs',
  foldM init_doc l (self, d_z, rs) = Ok (self', d_z', rs') -> same_config self self'.
Proof.
  induction l as [|doc l IH]; intros self d_z rs self' d_z' rs' H; cbn [foldM] in H.
  - injection H as <- <- <-. apply same_config_refl.
  - apply bind_Ok in H as ([[s1 d1] r1] & H1 & H).
    apply init_doc_Ok in H1 as (Hc & _). apply IH in H.
    eapply same_config_trans; eassumption.
Qed.

Lemma pass_docs_same_config (l : list (nat * bow)) :
  forall self d_z rs t self' d_z' rs' t',
  foldM pass_doc l (self, d_z, rs, t) = Ok (self', d_z', rs', t') ->
  same_config self self'.
Proof.
  induction l as [|[i doc] l IH]; intros self d_z rs t self' d_z' rs' t' H;
    cbn [foldM] in H.
  - injection H as <- <- <- <-. apply same_config_refl.
  - apply bind_Ok in H as ([[[s1 d1] r1] t1] & H1 & H).
    apply pass_doc_Ok in H1 as (Hc & _). apply IH in H.
    eapply same_config_trans; eassumption.
Qed.

(** The passes leave the options and what the start of [fit] recorded as
    they are. *)
Lemma after_passes_same_config (corpus : list bow) (st0 st : fit_state) :
  after_passes corpus st0 st -> same_config (fst (fst st0)) (fst (fst st)).
Proof.
  induction 1 as [|[[s1 d1] r1] [[s2 d2] r2] t Hafter IH Hpass].
  - apply same_config_refl.
  - unfold fit_pass in Hpass. apply pass_docs_same_config in Hpass.
    eapply same_config_trans; eassumption.
Qed.

Lemma fit_initialize_config (self : MovieGroupProcess) (docs : list (list string))
    (rs : RandomState) (corpus : list bow) (st0 : fit_state) :
  fit_initialize self docs rs = Ok (corpus, st0) ->
  same_config
    (set_number_docs (create_dictionary self docs) (Some (len docs)))
    (fst (fst st0)) /\
  (0 <= K self)%Z.
Proof.
  unfold fit_initialize. simpl. intros H.
  apply bind_Ok in H as (w & Hw & H).
  apply bind_Ok in H as ([[s1 d1] r1] & Hf & H). injection H as _ <-.
  apply init_docs_same_config in Hf. simpl.
  split.
  - unfold same_config in *. simpl in *. unfold len in *. rewrite length_map in Hf.
    exact Hf.
  - unfold np_zeros in Hw. destruct (Z.ltb_spec (K self) 0); [discriminate | lia].
Qed.

End Config.

(** ** Shapes kept by the loops *)

Lemma inplace_at_shape (op : Z -> Z -> Z) (k v : nat) (a a' : ndarray2) (z : nat)
    (idx : list nat) (cnt : list Z) :
  inplace_at op a z idx cnt = Ok a' -> has_shape k v a -> has_shape k v a'.
Proof.
  unfold inplace_at. intros H (Hc & Hr & Hrows).
  apply bind_Ok in H as (row & Hrow & H). apply bind_Ok in H as (old & _ & H).
  injection H as <-. apply getitem_Ok in Hrow as [Hrow _].
  unfold has_shape. cbn [ncols rows].
  split; [exact Hc|]. split; [rewrite update_length; exact Hr|].
  apply Forall_update; [exact Hrows|]. rewrite put_length.
  apply nth_error_In in Hrow. rewrite Forall_forall in Hrows. auto.
Qed.

Section Shapes.

Context {NP : Numpy} {RS : RandomSource}.

Lemma init_doc_shapes (m n k v : nat) (self self' : MovieGroupProcess)
    (d_z d_z' : list nat) (rs rs' : RandomState) (doc : bow) :
  init_doc (self, d_z, rs) doc = Ok (self', d_z', rs') ->
  shapes m n k v self -> shapes m n k v self'.
Proof.
  unfold init_doc. intros H (Hm & Hn & Hw).
  apply bind_Ok in H as ([z rs1] & Hz & H).
  apply bind_Ok in H as (m_z & Hmz & H). simpl in H.
  apply bind_Ok in H as (n_z & Hnz & H). simpl in H.
  apply bind_Ok in H as ([idx cnt] & Hu & H).
  apply bind_Ok in H as (n_z_w & Hnzw & H). simpl in H.
  injection H as <- <- <-.
  apply iadd_Ok in Hmz as (_ & Hml & _). apply iadd_Ok in Hnz as (_ & Hnl & _).
  unfold shapes. simpl. split; [congruence|]. split; [congruence|].
  eapply inplace_at_shape; eassumption.
Qed.

Lemma pass_doc_shapes (m n k v : nat) (self self' : MovieGroupProcess)
    (d_z d_z' : list nat) (rs rs' : RandomState) (t t' : Z) (idoc : nat * bow) :
  pass_doc (self, d_z, rs, t) idoc = Ok (self', d_z', rs', t') ->
  shapes m n k v self -> shapes m n k v self'.
Proof.
  unfold pass_doc. destruct idoc as [i doc]. intros H (Hm & Hn & Hw).
  apply bind_Ok in H as (z_old & Hold & H).
  apply bind_Ok in H as (m1 & Hm1 & H). simpl in H.
  apply bind_Ok in H as (n1 & Hn1 & H). simpl in H.
  apply bind_Ok in H as ([idx cnt] & Hu & H).
  apply bind_Ok in H as (w1 & Hw1 & H). simpl in H.
  apply bind_Ok in H as ([p self1] & Hs & H).
  apply bind_Ok in H as ([z_new rs1] & Hz & H).
  apply bind_Ok in H as (m2 & Hm2 & H). simpl in H.
  apply bind_Ok in H as (n2 & Hn2 & H). simpl in H.
  apply bind_Ok in H as (w2 & Hw2 & H). simpl in H.
  injection H as <- <- <- <-.
  apply score_self in Hs. subst self1. simpl in *.
  apply iadd_Ok in Hm1 as (_ & Hml1 & _). apply iadd_Ok in Hn1 as (_ & Hnl1 & _).
  apply iadd_Ok in Hm2 as (_ & Hml2 & _). apply iadd_Ok in Hn2 as (_ & Hnl2 & _).
  unfold shapes. simpl. split; [congruence|]. split; [congruence|].
  eapply inplace_at_shape; [exact Hw2|]. eapply inplace_at_shape; eassumption.
Qed.

Lemma init_docs_shapes (m n k v : nat) (l : list bow) :
  forall self d_z rs self' d_z' rs',
  foldM init_doc l (self, d_z, rs) = Ok (self', d_z', rs') ->
  shapes m n k v self -> shapes m n k v self'.
Proof.
  induction l as [|doc l IH]; intros self d_z rs self' d_z' rs' H Hs; cbn [foldM] in H.
  - injection H as <- <- <-. exact Hs.
  - apply bind_Ok in H as ([[s1 d1] r1] & H1 & H).
    eapply IH; [exact H|]. eapply init_doc_shapes; eassumption.
Qed.

Lemma pass_docs_shapes (m n k v : nat) (l : list (nat * bow)) :
  forall self d_z rs t self' d_z' rs' t',
  foldM pass_doc l (self, d_z, rs, t) = Ok (self', d_z', rs', t') ->
  shapes m n k v self -> shapes m n k v self'.
Proof.
  induction l as [|idoc l IH]; intros self d_z rs t self' d_z' rs' t' H Hs;
    cbn [foldM] in H.
  - injection H as <- <- <- <-. exact Hs.
  - apply bind_Ok in H as ([[[s1 d1] r1] t1] & H1 & H).
    eapply IH; [exact H|]. eapply pass_doc_shapes; eassumption.
Qed.

Lemma after_passes_shapes (m n k v : nat) (corpus : list bow) (st0 st : fit_state) :
  after_passes corpus st0 st ->
  shapes m n k v (fst (fst st0)) -> shapes m n k v (fst (fst st)).
Proof.
  induction 1 as [|[[s1 d1] r1] [[s2 d2] r2] t Hafter IH Hpass]; intros Hs.
  - exact Hs.
  - unfold fit_pass in Hpass. eapply pass_docs_shapes; [exact Hpass|]. auto.
Qed.

(** What a run of [fit] that returns leaves on the object. *)
Lemma fit_leaves (self : MovieGroupProcess) (docs : list (list string))
    (rs : RandomState) (d_z : list nat) (self' : MovieGroupProcess)
    (rs' : RandomState) (out : list line) :
  fit self docs rs = Ok (d_z, self', rs', out) ->
  same_config (set_number_docs (create_dictionary self docs) (Some (len docs))) self' /\
  (0 <= K self)%Z /\
  shapes (length (cluster_doc_count self)) (length (cluster_word_count self))
         (Z.to_nat (K self)) (Dictionary.size (Dictionary.create docs)) self'.
Proof.
  intros Hfit. pose proof Hfit as Hfit'.
  apply fit_Ok in Hfit' as (corpus & st0 & Hinit & _).
  assert (Hafter : after_passes corpus st0 (self', d_z, rs'))
    by (eapply fit_after_passes; eassumption).
  destruct (fit_initialize_config _ _ _ Hinit) as [Hc0 HK].
  pose proof (after_passes_same_config Hafter) as Hc1. simpl in Hc1.
  split; [eapply same_config_trans; eassumption|]. split; [exact HK|].
  apply (after_passes_shapes Hafter : _ -> shapes _ _ _ _ (fst (fst (self', d_z, rs')))).
  unfold fit_initialize in Hinit. simpl in Hinit.
  apply bind_Ok in Hinit as (w & Hw & Hinit).
  apply bind_Ok in Hinit as ([[s1 d1] r1] & Hf & Hinit). injection Hinit as _ <-.
  simpl. eapply init_docs_shapes; [exact Hf|].
  destruct (@np_zeros_shape (K self) (Dictionary.size (Dictionary.create docs)) HK)
    as (a & Ha & Hshape).
  rewrite Ha in Hw. injection Hw as <-.
  unfold shapes. simpl. auto.
Qed.

(** X3. When [fit] returns, the options [K], [alpha], [beta] and [n_iters]
    are as they were; the object records [D = len(docs)], the vocabulary of
    the corpus, its size [V] and the bag-of-words corpus; the word
    distribution is a [K] x [V] array and the two counters keep the lengths
    they had. *)
Theorem fit_records_corpus (self : MovieGroupProcess) (docs : list (list string))
    (rs : RandomState) (d_z : list nat) (self' : MovieGroupProcess)
    (rs' : RandomState) (out : list line) :
  fit self docs rs = Ok (d_z, self', rs', out) ->
  let d := Dictionary.create docs in
  K self' = K self /\ alpha self' = alpha self /\ beta self' = beta self /\
  n_iters self' = n_iters self /\
  number_docs self' = Some (len docs) /\
  dictionary self' = Some d /\
  vocab_size self' = Some (Dictionary.size d) /\
  corpus self' = Some (map (Dictionary.doc2bow d) docs) /\
  has_shape (Z.to_nat (K self)) (Dictionary.size d) (cluster_word_distribution self') /\
  length (cluster_doc_count self') = length (cluster_doc_count self) /\
  length (cluster_word_count self') = length (cluster_word_count self).
Proof.
  intros Hfit d. apply fit_leaves in Hfit as (Hc & _ & Hm & Hn & Hw).
  unfold same_config in Hc. simpl in Hc.
  destruct Hc as (H1 & H2 & H3 & H4 & H5 & H6 & H7 & H8).
  repeat split; auto; apply Hw.
Qed.

End Shapes.

(** ** [save] and [load] *)

Lemma append_inj_l (a b c : string) : (a ++ b)%string = (a ++ c)%string -> b = c.
Proof.
  induction a as [|x a IH]; simpl; intros H; [exact H|].
  injection H as H. auto.
Qed.

Lemma append_length (a b : string) :
  String.length (a ++ b) = String.length a + String.length b.
Proof. induction a as [|x a IH]; simpl; [reflexivity | rewrite IH; reflexivity]. Qed.

Lemma Path_neq_folder (folder_path name : string) : Path folder_path name <> folder_path.
Proof.
  unfold Path. intros H. apply (f_equal String.length) in H.
  rewrite append_length in H. simpl in H. lia.
Qed.

Lemma Path_inj (folder_path a b : string) :
  Path folder_path a = Path folder_path b -> a = b.
Proof.
  unfold Path. intros H. apply append_inj_l in H. simpl in H. congruence.
Qed.

(** What [save] leaves in storage on a path that did not exist, for an object
    with a vocabulary. *)
Lemma save_fresh (self : MovieGroupProcess) (folder_path : string) (w : world)
    (d : Dictionary.t) :
  lookup (fs w) folder_path = None ->
  dictionary self = Some d ->
  save self folder_path w =
    (Ok tt,
     mk_world
       ((Path folder_path "dictionary.npy", TextFile d)
        :: (Path folder_path "gsdmm.npy",
            NpyFile [npy_int (K self); npy_float (alpha self); npy_float (beta self);
                     npy_array (cluster_doc_count self);
                     npy_array (cluster_word_count self);
                     npy_array2 (cluster_word_distribution self)])
        :: (folder_path, Directory) :: fs w)
       (stdout w)).
Proof.
  intros Hn Hd. unfold save, io_bind, os_path_isdir, os_mkdir, print, io_ret, write_file.
  rewrite Hn. simpl. rewrite Hn. simpl. rewrite Hd. reflexivity.
Qed.

Lemma load_saved (self : MovieGroupProcess) (folder_path : string)
    (d : Dictionary.t) (files : list (string * node)) (out : list line) :
  load folder_path
    (mk_world
       ((Path folder_path "dictionary.npy", TextFile d)
        :: (Path folder_path "gsdmm.npy",
            NpyFile [npy_int (K self); npy_float (alpha self); npy_float (beta self);
                     npy_array (cluster_doc_count self);
                     npy_array (cluster_word_count self);
                     npy_array2 (cluster_word_distribution self)])
        :: files) out) =
  match from_data (K self) (alpha self) (beta self) d (cluster_doc_count self)
                  (cluster_word_count self) (cluster_word_distribution self) with
  | Ok mgp => inr mgp
  | Raise e => inl (Engine e)
  end.
Proof.
  unfold load, open_rb, load_from_text. cbn [fs lookup].
  destruct (string_dec (Path folder_path "dictionary.npy") (Path folder_path "gsdmm.npy"))
    as [E|_]; [apply Path_inj in E; discriminate|].
  destruct (string_dec (Path folder_path "gsdmm.npy") (Path folder_path "gsdmm.npy"))
    as [_|E]; [|congruence].
  destruct (string_dec (Path folder_path "dictionary.npy")
                       (Path folder_path "dictionary.npy")) as [_|E]; [|congruence].
  reflexivity.
Qed.

(** [save] on a path that does not exist, then [load]: what comes back. *)
Lemma save_then_load (self : MovieGroupProcess) (folder_path : string) (w : world)
    (d : Dictionary.t) :
  lookup (fs w) folder_path = None ->
  dictionary self = Some d ->
  exists w',
    save self folder_path w = (Ok tt, w') /\
    load folder_path w' =
      inr {| K := K self; alpha := alpha self; beta := beta self; n_iters := 30;
             number_docs := Some (zsum (cluster_doc_count self));
             vocab_size := Some (Dictionary.size d);
             cluster_doc_count := cluster_doc_count self;
             cluster_word_count := cluster_word_count self;
             cluster_word_distribution := cluster_word_distribution self;
             dictionary := Some d;
             corpus := None |}.
Proof.
  intros Hn Hd. eexists. split; [apply (@save_fresh self folder_path w d Hn Hd)|].
  rewrite load_saved. reflexivity.
Qed.

Section Persistence.

Context {NP : Numpy} {RS : RandomSource}.

(** X4. Round trip. A model that [fit] returned, saved to a path that does
    not exist yet and loaded from it, comes back with the same [K], [alpha],
    [beta], the same three statistics, the same vocabulary and vocabulary
    size. What is not stored is not restored: [n_iters] is 30 whatever it
    was, [number_docs] is the sum of [doc_count], and there is no corpus. *)
Theorem save_load_round_trip (self0 : MovieGroupProcess) (docs : list (list string))
    (rs : RandomState) (d_z : list nat) (self : MovieGroupProcess)
    (rs' : RandomState) (out : list line) (folder_path : string) (w : world) :
  fit self0 docs rs = Ok (d_z, self, rs', out) ->
  lookup (fs w) folder_path = None ->
  exists w' mgp,
    save self folder_path w = (Ok tt, w') /\
    load folder_path w' = inr mgp /\
    K mgp = K self /\ alpha mgp = alpha self /\ beta mgp = beta self /\
    cluster_doc_count mgp = cluster_doc_count self /\
    cluster_word_count mgp = cluster_word_count self /\
    cluster_word_distribution mgp = cluster_word_distribution self /\
    dictionary mgp = dictionary self /\
    vocab_size mgp = vocab_size self /\
    n_iters mgp = 30%Z /\
    number_docs mgp = Some (zsum (cluster_doc_count self)) /\
    corpus mgp = None.
Proof.
  intros Hfit Hn. apply fit_leaves in Hfit as (Hc & _ & _).
  unfold same_config in Hc. simpl in Hc.
  destruct Hc as (_ & _ & _ & _ & _ & HV & Hd & _).
  destruct (@save_then_load self folder_path w _ Hn Hd) as (w' & Hsave & Hload).
  eexists w', _. split; [exact Hsave|]. split; [exact Hload|].
  cbn [K alpha beta n_iters number_docs vocab_size cluster_doc_count cluster_word_count
       cluster_word_distribution dictionary corpus].
  rewrite Hd, HV. repeat split; reflexivity.
Qed.

End Persistence.

(** [score] reads the options, [number_docs], [vocab_size] and the three
    statistics, nothing else. *)
Lemma score_unnormalized_ext {NP : Numpy} (a b : MovieGroupProcess) (doc : bow) :
  K a = K b -> alpha a = alpha b -> beta a = beta b ->
  number_docs a = number_docs b -> vocab_size a = vocab_size b ->
  cluster_doc_count a = cluster_doc_count b ->
  cluster_word_count a = cluster_word_count b ->
  cluster_word_distribution a = cluster_word_distribution b ->
  score_unnormalized a doc = score_unnormalized b doc.
Proof.
  intros HK Ha Hb HD HV Hm Hn Hw.
  unfold score_unnormalized, lD1, lN1, lN2, lD2.
  rewrite HK, Ha, Hb, HD, HV, Hm, Hn, Hw. reflexivity.
Qed.

Lemma choose_best_label_ext {NP : Numpy} (a b : MovieGroupProcess) (doc : list string) :
  K a = K b -> alpha a = alpha b -> beta a = beta b ->
  number_docs a = number_docs b -> vocab_size a = vocab_size b ->
  cluster_doc_count a = cluster_doc_count b ->
  cluster_word_count a = cluster_word_count b ->
  cluster_word_distribution a = cluster_word_distribution b ->
  dictionary a = dictionary b ->
  answer (choose_best_label a doc) = answer (choose_best_label b doc).
Proof.
  intros HK Ha Hb HD HV Hm Hn Hw Hd.
  unfold choose_best_label, score. rewrite Hd.
  destruct (dictionary b) as [d|]; [|reflexivity]. cbn [from_option bind].
  rewrite (@score_unnormalized_ext _ a b (Dictionary.doc2bow d doc) HK Ha Hb HD HV Hm Hn Hw).
  destruct (score_unnormalized b (Dictionary.doc2bow d doc)) as [q|e]; [|reflexivity].
  cbn [bind]. destruct (np_argmax (normalize q)) as [z|e]; [|reflexivity].
  cbn [bind]. destruct (py_max (normalize q)) as [m|e]; reflexivity.
Qed.

Section Persistence2.

Context {NP : Numpy} {RS : RandomSource}.

(** X5. A model fitted from an object as [__init__] leaves it, saved to a
    path that does not exist yet and loaded from it, answers every document
    as the fitted model does: [choose_best_label] returns the same label and
    probability, or raises the same exception. *)
Theorem loaded_model_answers_alike (k : Z) (a b : R) (n : Z)
    (self0 : MovieGroupProcess) (docs : list (list string))
    (rs : RandomState) (d_z : list nat) (self : MovieGroupProcess)
    (rs' : RandomState) (out : list line) (folder_path : string) (w : world) :
  __init__ k a b n = Ok self0 ->
  fit self0 docs rs = Ok (d_z, self, rs', out) ->
  lookup (fs w) folder_path = None ->
  exists w' mgp,
    save self folder_path w = (Ok tt, w') /\
    load folder_path w' = inr mgp /\
    number_docs mgp = number_docs self /\
    forall doc,
      answer (choose_best_label mgp doc) = answer (choose_best_label self doc).
Proof.
  intros Hnew Hfit Hn.
  pose proof Hfit as Hleaves. apply fit_leaves in Hleaves as (Hc & _ & _).
  unfold same_config in Hc. simpl in Hc.
  destruct Hc as (_ & _ & _ & _ & HD0 & HV & Hd & _).
  destruct (@save_then_load self folder_path w _ Hn Hd) as (w' & Hsave & Hload).
  eexists w', _. split; [exact Hsave|]. split; [exact Hload|].
  cbn [number_docs].
  assert (HD' : Some (zsum (cluster_doc_count self)) = number_docs self).
  { pose proof Hfit as Hfit'.
    apply fit_Ok in Hfit' as (corpus & st0 & Hinit & _).
    assert (Hafter : after_passes corpus st0 (self, d_z, rs'))
      by (eapply fit_after_passes; eassumption).
    apply __init___Ok in Hnew as (HK0 & _ & _ & _ & Hl & Hz & _).
    assert (Hl' : length (cluster_doc_count self0) = Z.to_nat (K self0)) by congruence.
    destruct (fit_doc_count_from Hl' Hinit Hafter) as [_ _ _ _ Hsum].
    rewrite HD0, Hsum, Hz. unfold len. f_equal. }
  split; [exact HD'|]. intros doc.
  apply choose_best_label_ext; cbn [K alpha beta number_docs vocab_size cluster_doc_count
    cluster_word_count cluster_word_distribution dictionary]; congruence.
Qed.

End Persistence2.

(** X6. [save] is not atomic. On an object as [__init__] leaves it (never
    fitted, never loaded: it has no [dictionary] attribute) and a path that
    does not exist, [save] raises [AttributeError] after it has created the
    folder and written [gsdmm.npy]; the folder it leaves behind makes every
    later [save] to that path fail with [FileExistsError]. *)
Theorem save_unfitted_leaves_folder (k : Z) (a b : R) (n : Z) (self : MovieGroupProcess)
    (folder_path : string) (w : world) :
  __init__ k a b n = Ok self ->
  lookup (fs w) folder_path = None ->
  exists w',
    save self folder_path w = (Raise AttributeError, w') /\
    lookup (fs w') folder_path = Some Directory /\
    (exists items, lookup (fs w') (Path folder_path "gsdmm.npy") = Some (NpyFile items)) /\
    forall other, fst (save other folder_path w') = Raise FileExistsError.
Proof.
  intros Hnew Hn. unfold __init__ in Hnew. injection Hnew as <-.
  set (items := [npy_int k; npy_float a; npy_float b;
                 npy_array (map (fun _ : nat => 0%Z) (range k));
                 npy_array (map (fun _ : nat => 0%Z) (range k));
                 npy_array2 (mk_ndarray2 0 (map (fun _ : nat => []) (range k)))]).
  set (w' := mk_world ((Path folder_path "gsdmm.npy", NpyFile items)
                       :: (folder_path, Directory) :: fs w) (stdout w)).
  assert (Hfolder : lookup (fs w') folder_path = Some Directory).
  { unfold w'. cbn [fs lookup].
    destruct (string_dec (Path folder_path "gsdmm.npy") folder_path) as [E|_];
      [exfalso; exact (@Path_neq_folder _ _ E)|].
    destruct (string_dec folder_path folder_path) as [_|E]; [reflexivity | congruence]. }
  exists w'. split; [|split; [exact Hfolder|split]].
  - unfold save, io_bind, os_path_isdir, os_mkdir, print, io_ret, write_file, io_raise.
    rewrite Hn. simpl. rewrite Hn. simpl. reflexivity.
  - exists items. unfold w'. cbn [fs lookup].
    destruct (string_dec (Path folder_path "gsdmm.npy") (Path folder_path "gsdmm.npy"))
      as [_|E]; [reflexivity | congruence].
  - intros other. clearbody w'.
    unfold save, io_bind, os_path_isdir, os_mkdir, print, io_ret.
    rewrite Hfolder. simpl. rewrite Hfolder. reflexivity.
Qed.

(** ** Labelling documents with a fitted model *)

Lemma add_tokens_inv (doc : list string) :
  forall d x, In x (fold_left Dictionary.add_token doc d) -> In x d \/ In x doc.
Proof.
  induction doc as [|tok doc IH]; intros d x Hx; simpl in *; [auto|].
  apply IH in Hx as [Hx|Hx]; [|auto].
  unfold Dictionary.add_token in Hx.
  destruct (in_dec string_dec tok d); [auto|].
  apply in_app_or in Hx as [Hx|[Hx|[]]]; auto.
Qed.

Lemma create_inv (docs_toks : list (list string)) (tok : string) :
  In tok (Dictionary.create docs_toks) -> In tok (concat docs_toks).
Proof.
  unfold Dictionary.create.
  assert (G : forall docs d,
             In tok (fold_left (fun d0 doc => fold_left Dictionary.add_token doc d0) docs d) ->
             In tok d \/ In tok (concat docs)).
  { induction docs as [|doc docs IH]; intros d H; simpl in *; [auto|].
    apply IH in H as [H|H].
    - apply add_tokens_inv in H as [H|H]; [auto|]. right. apply in_or_app. auto.
    - right. apply in_or_app. auto. }
  intros H. apply G in H as [[]|H]. exact H.
Qed.

Lemma create_concat (docs_toks : list (list string)) (tok : string) :
  In tok (concat docs_toks) -> In tok (Dictionary.create docs_toks).
Proof.
  intros H. apply in_concat in H as (doc & Hdoc & Htok).
  eapply create_In; eassumption.
Qed.

Section Labelling.

Context {NP : Numpy} {RS : RandomSource}.

(** A model fitted from an object as [__init__] leaves it, on a corpus with
    at least one document, is ready for scoring. *)
Lemma fit_shaped (k : Z) (a b : R) (n : Z) (self0 : MovieGroupProcess)
    (docs : list (list string)) (rs : RandomState) (d_z : list nat)
    (self : MovieGroupProcess) (rs' : RandomState) (out : list line) :
  __init__ k a b n = Ok self0 ->
  fit self0 docs rs = Ok (d_z, self, rs', out) ->
  docs <> [] ->
  K self = k /\ dictionary self = Some (Dictionary.create docs) /\
  shaped (Dictionary.size (Dictionary.create docs)) self.
Proof.
  intros Hnew Hfit Hdocs.
  pose proof Hfit as Hfit'.
  apply fit_Ok in Hfit' as (corpus & st0 & Hinit & _).
  assert (Hafter : after_passes corpus st0 (self, d_z, rs'))
    by (eapply fit_after_passes; eassumption).
  apply fit_leaves in Hfit as (Hc & _ & Hm & Hn & Hw).
  unfold same_config in Hc. simpl in Hc.
  destruct Hc as (HK & _ & _ & _ & HD & HV & Hd & _).
  apply __init___Ok in Hnew as (HK0 & _ & _ & _ & Hl & _ & Hlw & _).
  assert (Hl' : length (cluster_doc_count self0) = Z.to_nat (K self0)) by congruence.
  destruct (fit_doc_count_from Hl' Hinit Hafter) as [_ Hlen Hlab _ _].
  assert (Hk : (1 <= k)%Z).
  { destruct d_z as [|z d_z].
    - destruct docs; [congruence | discriminate].
    - inversion Hlab; subst. lia. }
  split; [congruence|]. split; [exact Hd|].
  constructor; try congruence.
Qed.

(** X7. A model fitted from an object as [__init__] leaves it labels a
    document exactly when it knows one of its tokens: if some token of the
    document occurs in the training corpus, [choose_best_label] returns a
    label below [K] and leaves the object as it was; if none does, it raises
    the unpacking error of [zip( *doc)]. *)
Theorem choose_best_label_known_token (k : Z) (a b : R) (n : Z)
    (self0 : MovieGroupProcess) (docs : list (list string)) (rs : RandomState)
    (d_z : list nat) (self : MovieGroupProcess) (rs' : RandomState)
    (out : list line) (doc : list string) :
  __init__ k a b n = Ok self0 ->
  fit self0 docs rs = Ok (d_z, self, rs', out) ->
  ((exists tok, In tok doc /\ In tok (concat docs)) ->
   exists z m, choose_best_label self doc = Ok ((z, m), self) /\ (Z.of_nat z < k)%Z) /\
  ((forall tok, In tok doc -> ~ In tok (concat docs)) ->
   choose_best_label self doc = Raise (ValueError_unpack 0)).
Proof.
  intros Hnew Hfit. split.
  - intros (tok & Hdoc & Htok).
    assert (Hdocs : docs <> []) by (destruct docs; [contradiction | discriminate]).
    destruct (@fit_shaped k a b n self0 docs rs d_z self rs' out Hnew Hfit Hdocs)
      as (HK & Hd & Hs).
    set (d := Dictionary.create docs) in *.
    assert (Hbow : Dictionary.doc2bow d doc <> [])
      by (eapply doc2bow_seen; [exact Hdoc | apply create_concat; exact Htok]).
    destruct (score_total Hs Hbow (doc2bow_ids_below d doc)) as (p & Hp & Hlen).
    assert (Hpne : p <> []).
    { destruct Hs as [HK1 _ _ _ _ _]. destruct p; [simpl in Hlen; lia | discriminate]. }
    destruct (np_argmax_py_max Hpne) as (z & m & Hz & Hm & Hlt & _).
    exists z, m. split; [|lia].
    unfold choose_best_label. rewrite Hd. cbn [from_option bind].
    fold d. rewrite Hp. cbn [bind]. rewrite Hz. cbn [bind]. rewrite Hm. reflexivity.
  - intros Hun.
    apply fit_leaves in Hfit as (Hc & _ & _).
    unfold same_config in Hc. simpl in Hc.
    destruct Hc as (_ & _ & _ & _ & HD & _ & Hd & _).
    unfold choose_best_label. rewrite Hd. cbn [from_option bind].
    rewrite doc2bow_unseen.
    + rewrite (score_empty self HD). reflexivity.
    + intros tok Ht Hin. apply (Hun tok Ht). apply create_inv. exact Hin.
Qed.

(** ** [fit] without clusters, [fit] without documents *)

(** X8. [fit] checks [K] no more than [__init__] does. On an object built
    with a negative [K] it raises the [ValueError] of [np.zeros] whatever the
    corpus; on an object built with [K = 0] it raises [IndexError] at the
    first draw as soon as the corpus has a document. *)
Theorem fit_without_clusters (k : Z) (a b : R) (n : Z) (self : MovieGroupProcess)
    (docs : list (list string)) (rs : RandomState) :
  __init__ k a b n = Ok self ->
  ((k < 0)%Z -> fit self docs rs = Raise ValueError_negative_dimensions) /\
  (k = 0%Z -> docs <> [] -> fit self docs rs = Raise IndexError).
Proof.
  intros Hnew. unfold __init__ in Hnew. injection Hnew as <-. split.
  - intros Hk. unfold fit, fit_initialize, np_zeros. simpl.
    destruct (Z.ltb_spec k 0); [reflexivity | lia].
  - intros -> Hdocs. destruct docs as [|doc docs]; [congruence|].
    unfold fit, fit_initialize, np_zeros. simpl Z.ltb.
    cbn [create_dictionary corpus vocab_size from_option bind K set_number_docs
         set_cluster_word_distribution map foldM init_doc range Z.to_nat seq].
    unfold _sample.
    pose proof (multinomial_length 1 [] rs) as Hlen.
    destruct (multinomial 1 [] rs) as [draw rs1]. simpl in Hlen.
    destruct draw; [|discriminate]. reflexivity.
Qed.

End Labelling.

Section EmptyCorpus.

Context {NP : Numpy} {RS : RandomSource}.

Lemma fit_iterate_empty_corpus (st : fit_state) (m : nat) :
  forall s cc out,
  s <= 26 ->
  (s <> 0 -> cc = populated (cluster_doc_count (fst (fst st)))) ->
  fit_iterate (seq s m) [] st cc out =
    Ok (st,
        out
        ++ stage_lines s (repeat (0%Z, populated (cluster_doc_count (fst (fst st))))
                                 (Nat.min m (27 - s)))
        ++ (if 27 - s <=? m then [Converged] else [])).
Proof.
  set (c0 := populated (cluster_doc_count (fst (fst st)))).
  induction m as [|m IH]; intros s cc out Hs Hcc.
  - destruct (Nat.leb_spec (27 - s) 0); [lia|].
    cbn [seq fit_iterate Nat.min repeat]. unfold stage_lines.
    cbn [length seq combine map app]. rewrite app_nil_r. reflexivity.
  - cbn [seq fit_iterate]. unfold fit_pass. cbn [enumerate length seq combine foldM bind].
    fold c0. cbn [Z.eqb andb].
    destruct (Nat.eq_dec s 26) as [->|Hne].
    + rewrite (Hcc ltac:(lia)). fold c0. rewrite Z.eqb_refl. cbn [Nat.ltb Nat.leb andb].
      replace (Nat.min (S m) (27 - 26)) with 1 by lia.
      replace (27 - 26 <=? S m) with true by (symmetry; apply Nat.leb_le; lia).
      rewrite <- app_assoc. reflexivity.
    + replace (25 <? s) with false by (symmetry; apply Nat.ltb_ge; lia).
      rewrite andb_false_r.
      rewrite (IH (S s) c0 (out ++ [Stage s 0 c0])) by (auto; lia).
      replace (27 - s) with (S (27 - S s)) by lia.
      rewrite <- Nat.succ_min_distr. cbn [repeat]. rewrite stage_lines_cons.
      cbn [Nat.leb]. rewrite <- app_assoc. reflexivity.
Qed.

(** X9. [fit] on an empty corpus, for [K >= 0]: it returns the empty
    assignment, draws no random number and leaves both counters as they
    were; the object records [D = 0], [V = 0] and an empty vocabulary. The
    passes run all the same: [min(n_iters, 27)] of them, each printing zero
    transfers, and the run ends on "Converged" when [n_iters >= 27]. *)
Theorem fit_empty_corpus (self : MovieGroupProcess) (rs : RandomState) :
  (0 <= K self)%Z ->
  exists self',
    fit self [] rs =
      Ok ([], self', rs,
          stage_lines 0 (repeat (0%Z, populated (cluster_doc_count self))
                                (Nat.min (Z.to_nat (n_iters self)) 27))
          ++ (if 27 <=? Z.to_nat (n_iters self) then [Converged] else [])) /\
    cluster_doc_count self' = cluster_doc_count self /\
    cluster_word_count self' = cluster_word_count self /\
    number_docs self' = Some 0%Z /\ vocab_size self' = Some 0 /\
    dictionary self' = Some [] /\ corpus self' = Some [].
Proof.
  intros HK. unfold fit, fit_initialize, np_zeros.
  cbn [create_dictionary corpus vocab_size from_option bind K set_number_docs
       set_cluster_word_distribution map foldM Dictionary.create fold_left
       Dictionary.size length n_iters].
  destruct (Z.ltb_spec (K self) 0) as [|_]; [lia|].
  cbn [bind]. unfold range. rewrite fit_iterate_empty_corpus by (try lia; congruence).
  cbn [bind fst snd cluster_doc_count app].
  eexists. split; [reflexivity|]. repeat split.
Qed.

End EmptyCorpus.

(** ** Topic words *)

Lemma Permutation_NoDup_seq (l : list nat) (n : nat) :
  Permutation l (seq 0 n) -> NoDup l /\ forall x, In x l <-> x < n.
Proof.
  intros H. split.
  - eapply Permutation_NoDup; [apply Permutation_sym; exact H | apply seq_NoDup].
  - intros x. split; intros Hx.
    + eapply Permutation_in in Hx; [|exact H]. apply in_seq in Hx. lia.
    + eapply Permutation_in; [apply Permutation_sym; exact H|]. apply in_seq. lia.
Qed.

Lemma dict_setitem_new {Val : Type} (d : list (nat * Val)) (k : nat) (v : Val) :
  ~ In k (map fst d) -> dict_setitem Nat.eq_dec d k v = d ++ [(k, v)].
Proof.
  induction d as [|[k' v'] d IH]; simpl; intros Hnin; [reflexivity|].
  destruct (Nat.eq_dec k' k) as [E|_]; [tauto|]. rewrite IH by tauto. reflexivity.
Qed.

Lemma firstn_incl {A : Type} (n : nat) (l : list A) (x : A) :
  In x (firstn n l) -> In x l.
Proof. intros H. rewrite <- (firstn_skipn n l). apply in_or_app. auto. Qed.

Lemma skipn_incl {A : Type} (n : nat) (l : list A) (x : A) :
  In x (skipn n l) -> In x l.
Proof. intros H. rewrite <- (firstn_skipn n l). apply in_or_app. auto. Qed.

Lemma slice_to_incl {A : Type} (n : Z) (l : list A) (x : A) :
  In x (slice_to n l) -> In x l.
Proof. apply firstn_incl. Qed.

Lemma slice_from_incl {A : Type} (n : Z) (l : list A) (x : A) :
  In x (slice_from n l) -> In x l.
Proof. apply skipn_incl. Qed.

Lemma NoDup_firstn {A : Type} (n : nat) (l : list A) : NoDup l -> NoDup (firstn n l).
Proof.
  intros H. rewrite <- (firstn_skipn n l) in H. apply NoDup_app_remove_r in H. exact H.
Qed.

Lemma NoDup_skipn {A : Type} (n : nat) (l : list A) : NoDup l -> NoDup (skipn n l).
Proof.
  intros H. rewrite <- (firstn_skipn n l) in H. apply NoDup_app_remove_l in H. exact H.
Qed.

Section TopWords.

Context {AS : Argsort}.

Lemma top_index_spec (self : MovieGroupProcess) :
  NoDup (top_index self) /\
  forall z, In z (top_index self) -> z < length (cluster_doc_count self).
Proof.
  unfold top_index.
  destruct (@Permutation_NoDup_seq _ _ (argsort_permutation (cluster_doc_count self)))
    as [Hnd Hin].
  split.
  - apply NoDup_rev. apply NoDup_skipn. exact Hnd.
  - intros z Hz. apply in_rev in Hz. apply slice_from_incl in Hz. apply Hin. exact Hz.
Qed.

Lemma top_ids_spec (self : MovieGroupProcess) (n_toks : Z) (z : nat) :
  NoDup (top_ids self n_toks z) /\
  forall w, In w (top_ids self n_toks z) ->
            w < length (nth z (rows (cluster_word_distribution self)) []).
Proof.
  unfold top_ids.
  set (row := nth z (rows (cluster_word_distribution self)) []).
  destruct (@Permutation_NoDup_seq _ _ (argsort_permutation (map Z.opp row))) as [Hnd Hin].
  rewrite length_map in Hin. split.
  - apply NoDup_firstn. exact Hnd.
  - intros w Hw. apply slice_to_incl in Hw. apply Hin. exact Hw.
Qed.

Lemma words_loop (self : MovieGroupProcess) (d : Dictionary.t) (join_tok : string)
    (ids : list nat) :
  dictionary self = Some d ->
  Forall (fun w => w < length d) ids ->
  forall words_,
  efoldM (fun words_ idx =>
            (d <- lift (from_option AttributeError (dictionary self)) ;;
             tok <- dictionary_getitem d idx ;;
             inr (words_ ++ join_tok ++ tok)%string)%exc)
         ids words_ =
  inr (fold_left (fun words_ idx => (words_ ++ join_tok ++ nth idx d EmptyString)%string)
                 ids words_).
Proof.
  intros Hd. rewrite Hd. cbn [from_option lift ebind].
  induction 1 as [|w ids Hw _ IH]; intros words_; cbn [efoldM fold_left].
  - reflexivity.
  - unfold dictionary_getitem at 1.
    rewrite (nth_error_nth' d EmptyString Hw). cbn [ebind]. apply IH.
Qed.

(** On a summarizable object [top_words] raises nothing: it returns, for each
    cluster of [top_index] in turn, the joined tokens of its [top_ids]. *)
Lemma top_words_value (d : Dictionary.t) (self : MovieGroupProcess) (n_toks : Z)
    (join_tok : string) :
  summarizable d self ->
  top_words self n_toks join_tok =
    inr (map (fun z => (z, joined d join_tok (top_ids self n_toks z))) (top_index self)).
Proof.
  intros (HV & Hd & Hrows & Hlen). unfold top_words, neg_word_distribution.
  destruct (vocab_size self) as [V|]; [|congruence]. cbn [ebind].
  fold (top_index self).
  destruct (top_index_spec self) as [Hnd Hlt].
  set (tci := map (fun row => slice_to n_toks (argsort row))
                  (map (map Z.opp) (rows (cluster_word_distribution self)))).
  assert (Hstep : forall acc l,
            NoDup (map fst acc ++ l) ->
            (forall z, In z l -> z < length (cluster_doc_count self)) ->
            efoldM
              (fun topic_words cluster =>
                 (idxs <- lift (getitem tci cluster) ;;
                  words_ <-
                    efoldM
                      (fun words_ idx =>
                         d <- lift (from_option AttributeError (dictionary self)) ;;
                         tok <- dictionary_getitem d idx ;;
                         inr (words_ ++ join_tok ++ tok)%string)
                      idxs EmptyString ;;
                  inr (dict_setitem Nat.eq_dec topic_words cluster words_))%exc)
              l acc =
            inr (acc ++ map (fun z => (z, joined d join_tok (top_ids self n_toks z))) l)).
  { intros acc l; revert acc. induction l as [|z l IH]; intros acc Hnd' Hlt'; cbn [efoldM map].
    - rewrite app_nil_r. reflexivity.
    - assert (Hz : z < length (rows (cluster_word_distribution self)))
        by (rewrite Hrows; apply Hlt'; left; reflexivity).
      assert (Hget : getitem tci z = Ok (top_ids self n_toks z)).
      { unfold getitem, tci, top_ids. rewrite !nth_error_map.
        rewrite (nth_error_nth' _ [] Hz). reflexivity. }
      rewrite Hget. cbn [lift ebind].
      rewrite (@words_loop self d join_tok (top_ids self n_toks z) Hd).
      + cbn [ebind]. fold (joined d join_tok (top_ids self n_toks z)).
        rewrite dict_setitem_new.
        * rewrite IH.
          -- rewrite <- app_assoc. reflexivity.
          -- rewrite map_app. cbn [map fst]. rewrite <- app_assoc. exact Hnd'.
          -- intros z' Hz'. apply Hlt'. right. exact Hz'.
        * apply NoDup_remove_2 in Hnd'. intros Hin. apply Hnd'.
          apply in_or_app. left. exact Hin.
      + apply Forall_forall. intros w Hw.
        destruct (top_ids_spec self n_toks z) as [_ Hw'].
        specialize (Hw' _ Hw).
        rewrite Forall_forall in Hlen.
        assert (length (nth z (rows (cluster_word_distribution self)) []) <= length d)
          by (apply Hlen; apply nth_In; exact Hz).
        lia. }
  rewrite Hstep; [reflexivity | exact Hnd | exact Hlt].
Qed.

End TopWords.

Lemma StronglySorted_app_inv {A : Type} (R : A -> A -> Prop) (l1 l2 : list A) :
  StronglySorted R (l1 ++ l2) ->
  StronglySorted R l1 /\ StronglySorted R l2 /\
  forall x y, In x l1 -> In y l2 -> R x y.
Proof.
  induction l1 as [|a l1 IH]; simpl; intros H.
  - split; [constructor|]. split; [exact H|]. intros x y [].
  - inversion H as [|? ? Hs Hall]; subst. destruct (IH Hs) as (H1 & H2 & H3).
    rewrite Forall_forall in Hall. split; [|split; [exact H2|]].
    + constructor; [exact H1|]. apply Forall_forall. intros x Hx. apply Hall.
      apply in_or_app. auto.
    + intros x y [<-|Hx] Hy; [|auto]. apply Hall. apply in_or_app. auto.
Qed.

Lemma StronglySorted_app {A : Type} (R : A -> A -> Prop) (l1 l2 : list A) :
  StronglySorted R l1 -> StronglySorted R l2 ->
  (forall x y, In x l1 -> In y l2 -> R x y) ->
  StronglySorted R (l1 ++ l2).
Proof.
  induction 1 as [|a l1 Hs IH Hall]; simpl; intros H2 H12; [exact H2|].
  constructor.
  - apply IH; [exact H2|]. intros x y Hx Hy. apply H12; [right; exact Hx | exact Hy].
  - apply Forall_app. split; [exact Hall|].
    apply Forall_forall. intros y Hy. apply H12; [left; reflexivity | exact Hy].
Qed.

Lemma StronglySorted_rev {A : Type} (R : A -> A -> Prop) (l : list A) :
  StronglySorted R l -> StronglySorted (fun x y => R y x) (rev l).
Proof.
  induction 1 as [|a l Hs IH Hall]; simpl; [constructor|].
  apply StronglySorted_app; [exact IH | constructor; [constructor | constructor] |].
  intros x y Hx [<-|[]]. apply in_rev in Hx. rewrite Forall_forall in Hall. auto.
Qed.

Lemma StronglySorted_skipn {A : Type} (R : A -> A -> Prop) (n : nat) (l : list A) :
  StronglySorted R l -> StronglySorted R (skipn n l).
Proof.
  intros H. rewrite <- (firstn_skipn n l) in H.
  apply StronglySorted_app_inv in H. tauto.
Qed.

Lemma StronglySorted_firstn {A : Type} (R : A -> A -> Prop) (n : nat) (l : list A) :
  StronglySorted R l -> StronglySorted R (firstn n l).
Proof.
  intros H. rewrite <- (firstn_skipn n l) in H.
  apply StronglySorted_app_inv in H. tauto.
Qed.

Lemma filter_length_Permutation {A : Type} (p : A -> bool) (l l' : list A) :
  Permutation l l' -> length (filter p l) = length (filter p l').
Proof.
  induction 1 as [|x l l' _ IH|x y l|l l' l'' _ IH1 _ IH2]; simpl.
  - reflexivity.
  - destruct (p x); simpl; congruence.
  - destruct (p x), (p y); reflexivity.
  - congruence.
Qed.

(** In a list sorted by non-decreasing key, the elements whose key is
    positive are the last ones. *)
Lemma sorted_positive_suffix (key : nat -> Z) (l : list nat) :
  StronglySorted (fun i j => (key i <= key j)%Z) l ->
  skipn (length l - length (filter (fun i => 0 <? key i)%Z l)) l =
  filter (fun i => 0 <? key i)%Z l.
Proof.
  induction 1 as [|a l Hs IH Hall]; [reflexivity|].
  cbn [filter]. destruct (Z.ltb_spec 0 (key a)) as [Hpos|Hnpos].
  - assert (Hfil : filter (fun i => (0 <? key i)%Z) l = l).
    { apply forallb_filter_id. apply forallb_forall. intros x Hx.
      rewrite Forall_forall in Hall. specialize (Hall _ Hx). apply Z.ltb_lt. lia. }
    rewrite Hfil. cbn [length]. rewrite Nat.sub_diag. reflexivity.
  - pose proof (filter_length_le (fun i => (0 <? key i)%Z) l) as Hle.
    cbn [length].
    replace (S (length l) - length (filter (fun i => (0 <? key i)%Z) l))
      with (S (length l - length (filter (fun i => (0 <? key i)%Z) l))) by lia.
    cbn [skipn]. exact IH.
Qed.

Section TopWordsClusters.

Context {AS : Argsort}.

Lemma populated_argsort (m : list Z) :
  populated m = len (filter (fun z => 0 <? nth z m 0)%Z (argsort m)).
Proof.
  unfold populated, len. f_equal.
  rewrite (filter_length_Permutation _ (argsort_permutation m)).
  rewrite (list_as_map m) at 1. rewrite filter_map_length. reflexivity.
Qed.

(** The clusters [top_words] goes through when some cluster is populated:
    the populated ones. *)
Lemma top_index_populated (self : MovieGroupProcess) :
  (0 < populated (cluster_doc_count self))%Z ->
  top_index self =
  rev (filter (fun z => 0 <? nth z (cluster_doc_count self) 0)%Z
              (argsort (cluster_doc_count self))).
Proof.
  intros Hpos. unfold top_index, slice_from. f_equal.
  set (m := cluster_doc_count self) in *.
  pose proof (populated_argsort m) as Hn.
  pose proof (filter_length_le (fun z => (0 <? nth z m 0)%Z) (argsort m)) as Hle.
  destruct (Z.ltb_spec (- populated m) 0) as [_|]; [|lia].
  rewrite <- (sorted_positive_suffix (fun z => nth z m 0%Z) (argsort_sorted m)).
  f_equal. unfold len in *. lia.
Qed.

(** With no populated cluster the slice [[-0:]] keeps every index. *)
Lemma top_index_unpopulated (self : MovieGroupProcess) :
  populated (cluster_doc_count self) = 0%Z ->
  top_index self = rev (argsort (cluster_doc_count self)).
Proof.
  intros Hz. unfold top_index, slice_from. rewrite Hz. cbn [Z.opp Z.ltb Z.compare].
  rewrite Z.min_l by (unfold len; lia). reflexivity.
Qed.

(** X10. On an object whose word distribution is an array with one row per
    document counter and no more columns than the vocabulary has tokens (as
    [fit], [from_data] and [load] leave it), [top_words] raises nothing and
    its keys are distinct clusters ordered by non-increasing [doc_count]; if
    some cluster is populated ([doc_count > 0]) the keys are exactly the
    populated clusters. *)
Theorem top_words_lists_populated_clusters (d : Dictionary.t) (self : MovieGroupProcess)
    (n_toks : Z) (join_tok : string) :
  summarizable d self ->
  exists topic_words,
    top_words self n_toks join_tok = inr topic_words /\
    NoDup (map fst topic_words) /\
    StronglySorted (fun x y => (nth y (cluster_doc_count self) 0
                                <= nth x (cluster_doc_count self) 0)%Z)
                   (map fst topic_words) /\
    ((0 < populated (cluster_doc_count self))%Z ->
     forall z, In z (map fst topic_words) <->
               z < length (cluster_doc_count self) /\
               (0 < nth z (cluster_doc_count self) 0)%Z).
Proof.
  intros Hs. eexists. split; [apply (top_words_value n_toks join_tok Hs)|].
  rewrite map_map. cbn [fst]. rewrite map_id.
  destruct (top_index_spec self) as [Hnd Hlt].
  split; [exact Hnd|]. split.
  - unfold top_index. apply StronglySorted_rev. apply StronglySorted_skipn.
    apply argsort_sorted.
  - intros Hpos z. rewrite (top_index_populated self Hpos).
    rewrite <- in_rev, filter_In.
    destruct (@Permutation_NoDup_seq _ _ (argsort_permutation (cluster_doc_count self)))
      as [_ Hin].
    rewrite Hin, Z.ltb_lt. tauto.
Qed.

(** X11. The slice [[-n_topics_with_docs:]] keeps everything when the count
    is 0: on such an object with no populated cluster, [top_words] lists
    every cluster instead of none. *)
Theorem top_words_lists_every_cluster_when_none_is_populated (d : Dictionary.t)
    (self : MovieGroupProcess) (n_toks : Z) (join_tok : string) :
  summarizable d self ->
  populated (cluster_doc_count self) = 0%Z ->
  exists topic_words,
    top_words self n_toks join_tok = inr topic_words /\
    length topic_words = length (cluster_doc_count self) /\
    forall z, In z (map fst topic_words) <-> z < length (cluster_doc_count self).
Proof.
  intros Hs Hz. eexists. split; [apply (top_words_value n_toks join_tok Hs)|].
  rewrite map_map. cbn [fst]. rewrite map_id, length_map.
  rewrite (top_index_unpopulated self Hz).
  pose proof (argsort_permutation (cluster_doc_count self)) as Hp.
  split.
  - rewrite length_rev, (Permutation_length Hp). apply length_seq.
  - intros z. rewrite <- in_rev.
    destruct (@Permutation_NoDup_seq _ _ Hp) as [_ Hin]. apply Hin.
Qed.

End TopWordsClusters.

Lemma joined_from (d : Dictionary.t) (join_tok : string) (ids : list nat) :
  forall words_,
  fold_left (fun words_ idx => (words_ ++ join_tok ++ nth idx d EmptyString)%string) ids words_ =
  (words_ ++ joined d join_tok ids)%string.
Proof.
  unfold joined.
  assert (Hassoc : forall a b c : string, ((a ++ b) ++ c = a ++ (b ++ c))%string).
  { intros a b c. induction a as [|x a IH]; simpl; [reflexivity | rewrite IH; reflexivity]. }
  assert (Hnil : forall a : string, (a ++ EmptyString = a)%string).
  { intros a. induction a as [|x a IH]; simpl; [reflexivity | rewrite IH; reflexivity]. }
  induction ids as [|i ids IH]; intros words_; cbn [fold_left].
  - rewrite Hnil. reflexivity.
  - rewrite IH. rewrite (IH (EmptyString ++ join_tok ++ nth i d EmptyString)%string).
    cbn [append]. rewrite Hassoc. reflexivity.
Qed.

Lemma slice_to_length {A : Type} (n : Z) (l : list A) :
  (0 <= n)%Z -> length (slice_to n l) = Nat.min (Z.to_nat n) (length l).
Proof.
  intros Hn. unfold slice_to. destruct (Z.ltb_spec n 0); [lia|].
  rewrite length_firstn. unfold len. lia.
Qed.

Lemma StronglySorted_weaken {A : Type} (R R' : A -> A -> Prop) (l : list A) :
  (forall x y, R x y -> R' x y) -> StronglySorted R l -> StronglySorted R' l.
Proof.
  intros HR. induction 1 as [|a l Hs IH Hall]; constructor; [exact IH|].
  eapply Forall_impl; [|exact Hall]. intros y. apply HR.
Qed.

Section TopWordsTokens.

Context {AS : Argsort}.

(** X12. What [top_words] writes for a cluster it lists: [join_tok] and the
    token, for each of the token ids it took, so a summary that has a token
    starts with the separator. The ids are distinct columns of the word
    distribution, [min(n_toks, V)] of them for [n_toks >= 0], in order of
    non-increasing count in the cluster, and no column left out has a
    larger count than one taken; they are taken whether or not their count
    in the cluster is positive. *)
Theorem top_words_takes_the_largest_counts (d : Dictionary.t) (self : MovieGroupProcess)
    (n_toks : Z) (join_tok : string) (topic_words : list (nat * string))
    (z : nat) (words_ : string) :
  summarizable d self ->
  top_words self n_toks join_tok = inr topic_words ->
  In (z, words_) topic_words ->
  let n_z_w := cluster_word_distribution self in
  let v := length (nth z (rows n_z_w) []) in
  exists ids,
    words_ = joined d join_tok ids /\
    NoDup ids /\
    Forall (fun w => w < v) ids /\
    ((0 <= n_toks)%Z -> length ids = Nat.min (Z.to_nat n_toks) v) /\
    StronglySorted (fun w w' => (entry n_z_w z w' <= entry n_z_w z w)%Z) ids /\
    (forall w w', In w ids -> w' < v -> ~ In w' ids ->
                  (entry n_z_w z w' <= entry n_z_w z w)%Z) /\
    (ids <> [] -> exists rest, words_ = (join_tok ++ rest)%string).
Proof.
  intros Hs Htw Hin n_z_w v.
  rewrite (top_words_value n_toks join_tok Hs) in Htw. injection Htw as <-.
  apply in_map_iff in Hin as (z' & Heq & _). injection Heq as -> <-.
  exists (top_ids self n_toks z).
  destruct (top_ids_spec self n_toks z) as [Hnd Hlt].
  set (row := nth z (rows n_z_w) []) in *.
  assert (Hkey : forall i, nth i (map Z.opp row) 0%Z = (- nth i row 0)%Z).
  { intros i. change 0%Z with (Z.opp 0) at 1. apply map_nth. }
  pose proof (argsort_sorted (map Z.opp row)) as Hsorted.
  assert (Hsorted' : StronglySorted (fun w w' => (entry n_z_w z w' <= entry n_z_w z w)%Z)
                                    (argsort (map Z.opp row))).
  { eapply StronglySorted_weaken; [|exact Hsorted]. intros w w' H. simpl in H.
    unfold entry. fold row. rewrite !Hkey in H. lia. }
  split; [reflexivity|]. split; [exact Hnd|].
  split; [apply Forall_forall; exact Hlt|].
  split; [|split; [|split]].
  - intros Hn. unfold top_ids. fold n_z_w row. rewrite slice_to_length by exact Hn.
    rewrite (Permutation_length (argsort_permutation (map Z.opp row))).
    rewrite length_seq, length_map. reflexivity.
  - unfold top_ids, slice_to. fold n_z_w row. apply StronglySorted_firstn. exact Hsorted'.
  - intros w w' Hw Hw' Hnin. unfold top_ids, slice_to in Hw, Hnin. fold n_z_w row in Hw, Hnin.
    set (k := Z.to_nat _) in *.
    rewrite <- (firstn_skipn k (argsort (map Z.opp row))) in Hsorted'.
    apply StronglySorted_app_inv in Hsorted' as (_ & _ & H12).
    apply H12; [exact Hw|].
    destruct (@Permutation_NoDup_seq _ _ (argsort_permutation (map Z.opp row))) as [_ Hall].
    rewrite length_map in Hall. apply Hall in Hw'.
    rewrite <- (firstn_skipn k (argsort (map Z.opp row))) in Hw'.
    apply in_app_or in Hw' as [Hw'|Hw']; [contradiction | exact Hw'].
  - intros Hne. destruct (top_ids self n_toks z) as [|i ids] eqn:E; [congruence|].
    unfold joined. cbn [fold_left]. rewrite joined_from. cbn [append].
    assert (Hassoc : forall a b c : string, ((a ++ b) ++ c = a ++ (b ++ c))%string).
    { intros a0 b c. induction a0 as [|x a0 IH]; simpl; [reflexivity | rewrite IH; reflexivity]. }
    rewrite Hassoc. eexists. reflexivity.
Qed.

End TopWordsTokens.

(** ** The stable argsort obeys the laws of [Argsort] *)

Lemma insert_by_permutation (key : nat -> Z) (i : nat) (l : list nat) :
  Permutation (insert_by key i l) (i :: l).
Proof.
  induction l as [|j l IH]; simpl; [reflexivity|].
  destruct (key i <=? key j)%Z; [reflexivity|].
  rewrite IH. apply perm_swap.
Qed.

Lemma insert_by_sorted (key : nat -> Z) (i : nat) (l : list nat) :
  StronglySorted (fun x y => (key x <= key y)%Z) l ->
  StronglySorted (fun x y => (key x <= key y)%Z) (insert_by key i l).
Proof.
  induction 1 as [|j l Hs IH Hall]; simpl; [repeat constructor|].
  destruct (Z.leb_spec (key i) (key j)) as [Hle|Hgt].
  - constructor; [constructor; assumption|].
    constructor; [exact Hle|].
    eapply Forall_impl; [|exact Hall]. simpl. intros y Hy. lia.
  - constructor; [exact IH|].
    eapply Permutation_Forall; [apply Permutation_sym; apply insert_by_permutation|].
    constructor; [lia | exact Hall].
Qed.

Lemma stable_argsort_permutation (a : list Z) :
  Permutation (stable_argsort a) (seq 0 (length a)).
Proof.
  unfold stable_argsort. induction (seq 0 (length a)) as [|i l IH]; simpl; [reflexivity|].
  rewrite insert_by_permutation. constructor. exact IH.
Qed.

Lemma stable_argsort_sorted (a : list Z) :
  StronglySorted (fun i j => (nth i a 0 <= nth j a 0)%Z) (stable_argsort a).
Proof.
  unfold stable_argsort. induction (seq 0 (length a)) as [|i l IH]; simpl; [constructor|].
  apply (insert_by_sorted (fun i => nth i a 0%Z)). exact IH.
Qed.

Definition stable : Argsort :=
  {| argsort := stable_argsort;
     argsort_permutation := stable_argsort_permutation;
     argsort_sorted := stable_argsort_sorted |}.

(** ** [revdict] *)

Section DictLaws.

Context {Key Val : Type}.
Variable eq_dec : forall a b : Key, {a = b} + {a <> b}.

Lemma dict_get_setitem (d : list (Key * Val)) (k k' : Key) (v : Val) :
  dict_get eq_dec (dict_setitem eq_dec d k v) k' =
  if eq_dec k k' then Some v else dict_get eq_dec d k'.
Proof.
  induction d as [|[k0 v0] d IH]; simpl.
  - destruct (eq_dec k k'); reflexivity.
  - destruct (eq_dec k0 k) as [->|Hne]; simpl.
    + destruct (eq_dec k k'); reflexivity.
    + rewrite IH. destruct (eq_dec k0 k') as [->|]; [|reflexivity].
      destruct (eq_dec k k'); [congruence | reflexivity].
Qed.

Lemma dict_setitem_keys (d : list (Key * Val)) (k : Key) (v : Val) (x : Key) :
  In x (map fst (dict_setitem eq_dec d k v)) <-> x = k \/ In x (map fst d).
Proof.
  induction d as [|[k0 v0] d IH]; simpl; [intuition|].
  destruct (eq_dec k0 k) as [->|Hne]; simpl; [intuition|].
  rewrite IH. intuition.
Qed.

Lemma dict_setitem_NoDup (d : list (Key * Val)) (k : Key) (v : Val) :
  NoDup (map fst d) -> NoDup (map fst (dict_setitem eq_dec d k v)).
Proof.
  induction d as [|[k0 v0] d IH]; simpl; intros H.
  - constructor; [intros [] | constructor].
  - inversion H as [|? ? Hnin Hd]; subst.
    destruct (eq_dec k0 k) as [->|Hne]; simpl; [constructor; assumption|].
    constructor; [|auto]. rewrite dict_setitem_keys. intros [E|Hin]; [congruence | auto].
Qed.

Lemma dict_setitem_fresh (d : list (Key * Val)) (k : Key) (v : Val) :
  ~ In k (map fst d) -> dict_setitem eq_dec d k v = d ++ [(k, v)].
Proof.
  induction d as [|[k0 v0] d IH]; simpl; intros Hnin; [reflexivity|].
  destruct (eq_dec k0 k) as [E|_]; [tauto|]. rewrite IH by tauto. reflexivity.
Qed.

Lemma dict_get_In (d : list (Key * Val)) (k : Key) (v : Val) :
  NoDup (map fst d) -> In (k, v) d -> dict_get eq_dec d k = Some v.
Proof.
  induction d as [|[k0 v0] d IH]; simpl; intros Hnd Hin; [contradiction|].
  destruct Hin as [E|Hin].
  - injection E as -> ->. destruct (eq_dec k k); [reflexivity | congruence].
  - inversion Hnd as [|? ? Hnin Hd]; subst.
    destruct (eq_dec k0 k) as [->|_]; [|auto].
    exfalso. apply Hnin. apply in_map_iff. exists (k, v). auto.
Qed.

Lemma dict_get_Some (d : list (Key * Val)) (k : Key) (v : Val) :
  dict_get eq_dec d k = Some v -> In (k, v) d.
Proof.
  induction d as [|[k0 v0] d IH]; simpl; [discriminate|].
  destruct (eq_dec k0 k) as [->|_]; [intros H; injection H as ->; auto | auto].
Qed.

End DictLaws.

Lemma find_append {A : Type} (p : A -> bool) (l1 l2 : list A) :
  find p (l1 ++ l2) = match find p l1 with Some x => Some x | None => find p l2 end.
Proof.
  induction l1 as [|x l1 IH]; simpl; [reflexivity|]. destruct (p x); auto.
Qed.

Section RevdictLaws.

Context {Key Val : Type}.
Variable key_eq_dec : forall a b : Key, {a = b} + {a <> b}.
Variable val_eq_dec : forall a b : Val, {a = b} + {a <> b}.

Lemma dict_of_NoDup (d : list (Key * Val)) : NoDup (map fst (dict_of key_eq_dec d)).
Proof.
  unfold dict_of.
  assert (G : forall acc, NoDup (map fst acc) ->
             NoDup (map fst (fold_left
               (fun acc kv => dict_setitem key_eq_dec acc (fst kv) (snd kv)) d acc))).
  { induction d as [|kv d IH]; intros acc Hacc; simpl; [exact Hacc|].
    apply IH. apply dict_setitem_NoDup. exact Hacc. }
  apply G. constructor.
Qed.

(** A dict is its own [dict(...)]. *)
Lemma dict_of_dict (d : list (Key * Val)) :
  NoDup (map fst d) -> dict_of key_eq_dec d = d.
Proof.
  unfold dict_of. intros Hnd.
  assert (G : forall acc, NoDup (map fst (acc ++ d)) ->
             fold_left (fun acc kv => dict_setitem key_eq_dec acc (fst kv) (snd kv)) d acc
             = acc ++ d).
  { clear Hnd. induction d as [|[k v] d IH]; intros acc Hacc; simpl.
    - rewrite app_nil_r. reflexivity.
    - rewrite dict_setitem_fresh.
      + rewrite IH; rewrite <- app_assoc; [reflexivity | exact Hacc].
      + rewrite map_app in Hacc. simpl in Hacc. apply NoDup_remove_2 in Hacc.
        intros Hin. apply Hacc. apply in_or_app. auto. }
  apply (G []). exact Hnd.
Qed.

Lemma revdict_get_from (l : list (Key * Val)) (v : Val) :
  forall acc,
  dict_get val_eq_dec
    (fold_left (fun acc kv => dict_setitem val_eq_dec acc (snd kv) (fst kv)) l acc) v =
  match last_key_of val_eq_dec l v with
  | Some k => Some k
  | None => dict_get val_eq_dec acc v
  end.
Proof.
  unfold last_key_of.
  induction l as [|[k0 v0] l IH]; intros acc; simpl; [reflexivity|].
  rewrite IH, find_append.
  destruct (find _ (rev l)) as [[k1 v1]|]; simpl; [reflexivity|].
  rewrite dict_get_setitem.
  destruct (val_eq_dec v0 v); reflexivity.
Qed.

(** X13. [revdict] maps a value to the key that its argument, read as a
    dict, maps to it, and when several keys map to one value it keeps the
    last of them in the order of the dict (which one is not arbitrary);
    every item of the result is an item of the argument, reversed. *)
Theorem revdict_keeps_the_last_key (d : list (Key * Val)) (v : Val) :
  dict_get val_eq_dec (revdict key_eq_dec val_eq_dec d) v =
    last_key_of val_eq_dec (dict_of key_eq_dec d) v /\
  forall k, dict_get val_eq_dec (revdict key_eq_dec val_eq_dec d) v = Some k ->
            dict_get key_eq_dec (dict_of key_eq_dec d) k = Some v.
Proof.
  assert (H1 : dict_get val_eq_dec (revdict key_eq_dec val_eq_dec d) v =
               last_key_of val_eq_dec (dict_of key_eq_dec d) v).
  { unfold revdict. rewrite revdict_get_from.
    destruct (last_key_of val_eq_dec (dict_of key_eq_dec d) v); reflexivity. }
  split; [exact H1|].
  intros k Hk. rewrite H1 in Hk. unfold last_key_of in Hk.
  destruct (find _ (rev (dict_of key_eq_dec d))) as [[k1 v1]|] eqn:E; [|discriminate].
  simpl in Hk. injection Hk as ->.
  apply find_some in E as [Hin Hv]. simpl in Hv.
  destruct (val_eq_dec v1 v) as [->|]; [|discriminate].
  apply in_rev in Hin. apply dict_get_In; [apply dict_of_NoDup | exact Hin].
Qed.

Lemma revdict_injective (d : list (Key * Val)) :
  NoDup (map fst d) -> NoDup (map snd d) ->
  revdict key_eq_dec val_eq_dec d = map (fun kv => (snd kv, fst kv)) d.
Proof.
  intros Hk Hv. unfold revdict. rewrite (@dict_of_dict d Hk).
  assert (G : forall acc, NoDup (map fst acc ++ map snd d) ->
             fold_left (fun acc kv => dict_setitem val_eq_dec acc (snd kv) (fst kv)) d acc
             = acc ++ map (fun kv => (snd kv, fst kv)) d).
  { clear Hk Hv. induction d as [|[k v] d IH]; intros acc Hacc; simpl.
    - rewrite app_nil_r. reflexivity.
    - rewrite dict_setitem_fresh.
      + rewrite IH.
        * rewrite <- app_assoc. reflexivity.
        * rewrite map_app. simpl. rewrite <- app_assoc. exact Hacc.
      + simpl in Hacc. apply NoDup_remove_2 in Hacc.
        intros Hin. apply Hacc. apply in_or_app. auto. }
  apply (G []). exact Hv.
Qed.

End RevdictLaws.

(** X14. On a dict that maps distinct keys to distinct values, [revdict]
    swaps each item and keeps their order, and reversing twice gives the
    dict back. *)
Theorem revdict_involutive {Key Val : Type}
    (key_eq_dec : forall a b : Key, {a = b} + {a <> b})
    (val_eq_dec : forall a b : Val, {a = b} + {a <> b})
    (d : list (Key * Val)) :
  NoDup (map fst d) -> NoDup (map snd d) ->
  revdict key_eq_dec val_eq_dec d = map (fun kv => (snd kv, fst kv)) d /\
  revdict val_eq_dec key_eq_dec (revdict key_eq_dec val_eq_dec d) = d.
Proof.
  intros Hk Hv. split; [apply revdict_injective; assumption|].
  rewrite (@revdict_injective _ _ key_eq_dec val_eq_dec d Hk Hv).
  rewrite revdict_injective.
  - rewrite map_map. simpl. rewrite <- (map_id d) at 2. apply map_ext.
    intros [k v]. reflexivity.
  - rewrite map_map. simpl. exact Hv.
  - rewrite map_map. simpl. exact Hk.
Qed.

(** ** The token-list variant *)

Lemma emapM_pure {A B : Type} (f : A -> exception + B) (g : A -> B) (l : list A) :
  (forall x, In x l -> f x = inr (g x)) -> emapM f l = inr (map g l).
Proof.
  induction l as [|x l IH]; intros H; cbn [emapM map]; [reflexivity|].
  rewrite H by (left; reflexivity). cbn [ebind].
  rewrite IH by (intros y Hy; apply H; right; exact Hy). reflexivity.
Qed.

(** X15. The token-list variant scores a document without tokens, where the
    array variant raises: with [number_docs] set and a document counter for
    each of the [K] labels, [score([])] returns the normalised vector of
    [exp(log(m_z[label] + alpha) - lD1)], one entry per label, without
    reading the word statistics or the vocabulary size. *)
Theorem under_the_hood_score_empty_document {NP : Numpy} (self : UnderTheHood.MovieGroupProcess)
    (D : Z) :
  UnderTheHood.number_docs self = Some D ->
  Z.to_nat (UnderTheHood.K self) <= length (UnderTheHood.cluster_doc_count self) ->
  let lD1 := np_log (IZR D - 1 + IZR (UnderTheHood.K self) * UnderTheHood.alpha self) in
  let p := map (fun label =>
                  np_exp (np_log (IZR (nth label (UnderTheHood.cluster_doc_count self) 0%Z)
                                  + UnderTheHood.alpha self) - lD1 + 0 - 0)%R)
               (range (UnderTheHood.K self)) in
  UnderTheHood.score self [] = inr (normalize p) /\
  length (normalize p) = Z.to_nat (UnderTheHood.K self).
Proof.
  intros HD Hlen lD1 p. split.
  - unfold UnderTheHood.score. rewrite HD. cbn [from_option lift ebind]. fold lD1.
    rewrite (@emapM_pure _ _ (UnderTheHood.score_label self lD1 [])
               (fun label =>
                  np_exp (np_log (IZR (nth label (UnderTheHood.cluster_doc_count self) 0%Z)
                                  + UnderTheHood.alpha self) - lD1 + 0 - 0)%R)).
    + reflexivity.
    + intros label Hin. unfold range in Hin. apply in_seq in Hin.
      unfold UnderTheHood.score_label. unfold getitem.
      rewrite (@nth_error_nth' _ (UnderTheHood.cluster_doc_count self) label 0%Z) by lia.
      reflexivity.
  - rewrite normalize_length. unfold p, range. rewrite length_map, length_seq. reflexivity.
Qed.

(** *** The word statistics of the token-list variant *)

Lemma values_sum_delitem (d : UnderTheHood.dict) (word : string) :
  UnderTheHood.values_sum (UnderTheHood.delitem d word) =
  (UnderTheHood.values_sum d - UnderTheHood.get d word 0)%Z.
Proof.
  unfold UnderTheHood.values_sum.
  induction d as [|[w c] d IH]; cbn [UnderTheHood.delitem UnderTheHood.get map snd].
  - change (zsum []) with 0%Z. lia.
  - destruct (string_dec w word) as [_|_]; cbn [map snd]; rewrite !zsum_cons; [lia|].
    rewrite IH. lia.
Qed.

Lemma remove_words_values_sum (doc : list string) :
  forall d d',
  UnderTheHood.remove_words d doc = inr d' ->
  UnderTheHood.values_sum d' = (UnderTheHood.values_sum d - len doc)%Z.
Proof.
  unfold UnderTheHood.remove_words, len.
  induction doc as [|word doc IH]; intros d d' H; cbn [efoldM length] in H.
  - injection H as <-. simpl. lia.
  - destruct (UnderTheHood.contains d word); [|discriminate H]. cbn [ebind] in H.
    apply IH in H. rewrite H. cbn [length].
    set (d1 := UnderTheHood.setitem d word (UnderTheHood.get d word 0 - 1)).
    assert (H1 : UnderTheHood.values_sum d1 = (UnderTheHood.values_sum d - 1)%Z).
    { unfold d1. rewrite values_sum_setitem. lia. }
    destruct (UnderTheHood.get d1 word 0 =? 0)%Z eqn:E.
    + apply Z.eqb_eq in E. rewrite values_sum_delitem, E, H1. lia.
    + rewrite H1. lia.
Qed.

Lemma Forall2_update {A B : Type} (P : A -> B -> Prop) (l : list A) (l' : list B)
    (i : nat) (x : A) (y : B) :
  Forall2 P l l' -> P x y -> Forall2 P (update l i x) (update l' i y).
Proof.
  intros H Hxy. revert i. induction H as [|a b l l' Hab Hl IH]; intros [|i]; simpl;
    constructor; auto.
Qed.

Lemma Forall2_nth_error {A B : Type} (P : A -> B -> Prop) (l : list A) (l' : list B)
    (i : nat) (x : A) (y : B) :
  Forall2 P l l' -> nth_error l i = Some x -> nth_error l' i = Some y -> P x y.
Proof.
  intros H. revert i. induction H as [|a b l l' Hab _ IH]; intros [|i] Hx Hy;
    simpl in *; try discriminate.
  - congruence.
  - eauto.
Qed.

Lemma add_to_balanced (n_z_w n_z_w' : list UnderTheHood.dict) (n_z n_z' : list Z)
    (z : nat) (doc : list string) :
  Forall2 (fun d n => UnderTheHood.values_sum d = n) n_z_w n_z ->
  iadd n_z z (len doc) = Ok n_z' ->
  UnderTheHood.add_to n_z_w z doc = inr n_z_w' ->
  Forall2 (fun d n => UnderTheHood.values_sum d = n) n_z_w' n_z'.
Proof.
  intros Hb Hn Hw. apply iadd_Ok in Hn as (_ & _ & _ & x & Hx & ->).
  destruct doc as [|word doc].
  - unfold UnderTheHood.add_to in Hw. injection Hw as <-. unfold len. simpl. rewrite Z.add_0_r.
    rewrite (update_same _ _ Hx). exact Hb.
  - change (UnderTheHood.add_to n_z_w z (word :: doc))
      with (d <- lift (getitem n_z_w z) ;;
            inr (update n_z_w z (UnderTheHood.add_words d (word :: doc))))%exc in Hw.
    set (doc' := word :: doc) in *. clearbody doc'.
    destruct (getitem n_z_w z) as [d|e] eqn:Ed; [|discriminate Hw].
    cbn [lift ebind] in Hw. injection Hw as <-.
    apply getitem_Ok in Ed as [Ed _].
    apply Forall2_update; [exact Hb|].
    rewrite (add_words_values_sum doc' d).
    pose proof (Forall2_nth_error _ Hb Ed Hx) as E. simpl in E. rewrite E. reflexivity.
Qed.

Lemma remove_from_balanced (n_z_w n_z_w' : list UnderTheHood.dict) (n_z n_z' : list Z)
    (z : nat) (doc : list string) :
  Forall2 (fun d n => UnderTheHood.values_sum d = n) n_z_w n_z ->
  iadd n_z z (- len doc) = Ok n_z' ->
  UnderTheHood.remove_from n_z_w z doc = inr n_z_w' ->
  Forall2 (fun d n => UnderTheHood.values_sum d = n) n_z_w' n_z'.
Proof.
  intros Hb Hn Hw. apply iadd_Ok in Hn as (_ & _ & _ & x & Hx & ->).
  destruct doc as [|word doc].
  - unfold UnderTheHood.remove_from in Hw. injection Hw as <-. unfold len. simpl. rewrite Z.add_0_r.
    rewrite (update_same _ _ Hx). exact Hb.
  - change (UnderTheHood.remove_from n_z_w z (word :: doc))
      with (d <- lift (getitem n_z_w z) ;;
            d <- UnderTheHood.remove_words d (word :: doc) ;;
            inr (update n_z_w z d))%exc in Hw.
    set (doc' := word :: doc) in *. clearbody doc'.
    destruct (getitem n_z_w z) as [d|e] eqn:Ed; [|discriminate Hw].
    cbn [lift ebind] in Hw.
    destruct (UnderTheHood.remove_words d doc') as [e|d'] eqn:Er; [discriminate Hw|].
    cbn [ebind] in Hw. injection Hw as <-.
    apply getitem_Ok in Ed as [Ed _].
    apply Forall2_update; [exact Hb|].
    rewrite (remove_words_values_sum _ _ Er).
    pose proof (Forall2_nth_error _ Hb Ed Hx) as E. simpl in E. rewrite E. lia.
Qed.

Lemma ebind_inr {A B : Type} (r : exception + A) (k : A -> exception + B) (b : B) :
  ebind r k = inr b -> exists a, r = inr a /\ k a = inr b.
Proof. destruct r as [e|a]; simpl; intros H; [discriminate | eauto]. Qed.

Lemma lift_inr {A : Type} (r : Result A) (a : A) : lift r = inr a -> r = Ok a.
Proof. destruct r; simpl; intros H; [congruence | discriminate]. Qed.

Section Balanced.

Context {NP : Numpy} {RS : RandomSource}.

Lemma init_doc_balanced (self self' : UnderTheHood.MovieGroupProcess) (d_z d_z' : list nat)
    (rs rs' : RandomState) (doc : list string) :
  UnderTheHood.init_doc (self, d_z, rs) doc = inr (self', d_z', rs') ->
  balanced self ->
  balanced self' /\
  zsum (UnderTheHood.cluster_word_count self') = (zsum (UnderTheHood.cluster_word_count self) + len doc)%Z.
Proof.
  unfold UnderTheHood.init_doc. intros H Hb.
  apply ebind_inr in H as ([z rs1] & Hz & H).
  apply ebind_inr in H as (m_z & Hm & H).
  apply ebind_inr in H as (n_z & Hn & H).
  apply ebind_inr in H as (n_z_w & Hw & H).
  injection H as <- <- <-.
  apply lift_inr in Hn. unfold balanced. simpl. split.
  - eapply add_to_balanced; eassumption.
  - apply iadd_Ok in Hn as (_ & _ & Hs & _). exact Hs.
Qed.

Lemma pass_doc_balanced (self self' : UnderTheHood.MovieGroupProcess) (d_z d_z' : list nat)
    (rs rs' : RandomState) (t t' : Z) (idoc : nat * list string) :
  UnderTheHood.pass_doc (self, d_z, rs, t) idoc = inr (self', d_z', rs', t') ->
  balanced self ->
  balanced self' /\
  zsum (UnderTheHood.cluster_word_count self') = zsum (UnderTheHood.cluster_word_count self).
Proof.
  unfold UnderTheHood.pass_doc. destruct idoc as [i doc]. intros H Hb.
  apply ebind_inr in H as (z_old & Hold & H).
  apply ebind_inr in H as (m1 & Hm1 & H).
  apply ebind_inr in H as (n1 & Hn1 & H).
  apply ebind_inr in H as (w1 & Hw1 & H).
  apply ebind_inr in H as (p & Hp & H).
  apply ebind_inr in H as ([z_new rs1] & Hz & H).
  apply ebind_inr in H as (m2 & Hm2 & H).
  apply ebind_inr in H as (n2 & Hn2 & H).
  apply ebind_inr in H as (w2 & Hw2 & H).
  injection H as <- <- <- <-.
  apply lift_inr in Hn1, Hn2. simpl in *. unfold balanced. simpl. split.
  - eapply add_to_balanced; [|exact Hn2|exact Hw2].
    eapply remove_from_balanced; eassumption.
  - apply iadd_Ok in Hn1 as (_ & _ & Hs1 & _). apply iadd_Ok in Hn2 as (_ & _ & Hs2 & _).
    lia.
Qed.

Lemma init_docs_balanced (l : list (list string)) :
  forall self d_z rs self' d_z' rs',
  efoldM UnderTheHood.init_doc l (self, d_z, rs) = inr (self', d_z', rs') ->
  balanced self ->
  balanced self' /\
  zsum (UnderTheHood.cluster_word_count self') =
    (zsum (UnderTheHood.cluster_word_count self) + len (concat l))%Z.
Proof.
  induction l as [|doc l IH]; intros self d_z rs self' d_z' rs' H Hb; cbn [efoldM] in H.
  - injection H as <- <- <-. split; [exact Hb|]. unfold len. simpl. lia.
  - apply ebind_inr in H as ([[s1 d1] r1] & H1 & H).
    apply init_doc_balanced in H1 as [Hb1 Hs1]; [|exact Hb].
    apply IH in H as [Hb2 Hs2]; [|exact Hb1].
    split; [exact Hb2|]. rewrite Hs2, Hs1. unfold len. simpl. rewrite length_app. lia.
Qed.

Lemma pass_docs_balanced (l : list (nat * list string)) :
  forall self d_z rs t self' d_z' rs' t',
  efoldM UnderTheHood.pass_doc l (self, d_z, rs, t) = inr (self', d_z', rs', t') ->
  balanced self ->
  balanced self' /\
  zsum (UnderTheHood.cluster_word_count self') = zsum (UnderTheHood.cluster_word_count self).
Proof.
  induction l as [|idoc l IH]; intros self d_z rs t self' d_z' rs' t' H Hb;
    cbn [efoldM] in H.
  - injection H as <- <- <- <-. auto.
  - apply ebind_inr in H as ([[[s1 d1] r1] t1] & H1 & H).
    apply pass_doc_balanced in H1 as [Hb1 Hs1]; [|exact Hb].
    apply IH in H as [Hb2 Hs2]; [|exact Hb1].
    split; [exact Hb2 | congruence].
Qed.

Lemma fit_iterate_balanced (docs : list (list string)) (iters : list nat) :
  forall self d_z rs cc out self' d_z' rs' out',
  UnderTheHood.fit_iterate iters docs (self, d_z, rs) cc out = inr ((self', d_z', rs'), out') ->
  balanced self ->
  balanced self' /\
  zsum (UnderTheHood.cluster_word_count self') = zsum (UnderTheHood.cluster_word_count self).
Proof.
  induction iters as [|_iter iters IH]; intros self d_z rs cc out self' d_z' rs' out' H Hb;
    cbn [UnderTheHood.fit_iterate] in H.
  - injection H as <- <- <- <-. auto.
  - apply ebind_inr in H as ([[[s1 d1] r1] t1] & H1 & H).
    unfold UnderTheHood.fit_pass in H1.
    apply pass_docs_balanced in H1 as [Hb1 Hs1]; [|exact Hb].
    cbn [fst] in H.
    match type of H with (if ?c then _ else _) = _ => destruct c end.
    + injection H as <- <- <- <-. auto.
    + apply IH in H as [Hb2 Hs2]; [|exact Hb1]. split; [exact Hb2 | congruence].
Qed.

(** X16. The invariant of the word statistics holds in the token-list
    variant, where [len(doc)] is the number of token occurrences: when its
    [fit] returns on an object whose dicts add up to its word counts (as
    [__init__] leaves it: empty dicts, zero counts), then for every cluster
    the values of the dict add up to the word count, and the word counts
    have grown by the number of token occurrences of the corpus. *)
Theorem under_the_hood_fit_keeps_word_counts (self : UnderTheHood.MovieGroupProcess)
    (docs : list (list string)) (vocab_size : Z) (rs : RandomState)
    (d_z : list nat) (self' : UnderTheHood.MovieGroupProcess) (rs' : RandomState)
    (out : list line) :
  balanced self ->
  UnderTheHood.fit self docs vocab_size rs = inr (d_z, self', rs', out) ->
  balanced self' /\
  zsum (UnderTheHood.cluster_word_count self') =
    (zsum (UnderTheHood.cluster_word_count self) + len (concat docs))%Z.
Proof.
  intros Hb H. unfold UnderTheHood.fit in H.
  apply ebind_inr in H as ([[s0 d0] r0] & H0 & H).
  apply ebind_inr in H as ([[[s1 d1] r1] o1] & H1 & H).
  injection H as <- <- <- <-.
  apply init_docs_balanced in H0 as [Hb0 Hs0]; [|exact Hb].
  apply fit_iterate_balanced in H1 as [Hb1 Hs1]; [|exact Hb0].
  split; [exact Hb1|]. rewrite Hs1, Hs0. reflexivity.
Qed.

Lemma init_balanced (k : Z) (a b : R) (n : Z) : balanced (UnderTheHood.__init__ k a b n).
Proof.
  unfold balanced, UnderTheHood.__init__. simpl.
  induction (range k) as [|x l IH]; simpl; constructor; [reflexivity | exact IH].
Qed.

End Balanced.

(** ** The two variants on documents without repeated tokens *)

Lemma list_as_map_seq {A : Type} (l : list A) (d : A) :
  l = map (fun z => nth z l d) (seq 0 (length l)).
Proof.
  induction l as [|x l IH]; simpl; [reflexivity|].
  f_equal. rewrite <- seq_shift, map_map. exact IH.
Qed.

Lemma combine_map_same {A B C : Type} (f : A -> B) (g : A -> C) (l : list A) :
  combine (map f l) (map g l) = map (fun x => (f x, g x)) l.
Proof. induction l as [|x l IH]; simpl; [reflexivity | rewrite IH; reflexivity]. Qed.

Lemma doc2bow_unit (d : Dictionary.t) (doc : list string) :
  NoDup doc -> Forall (fun ic => snd ic = 1%Z) (Dictionary.doc2bow d doc).
Proof.
  intros Hnd. apply Forall_forall. intros [i c] Hin.
  unfold Dictionary.doc2bow in Hin.
  apply in_flat_map in Hin as ([j tok] & _ & Hin). cbn [fst snd] in Hin.
  destruct (Nat.eqb_spec (count_occ string_dec doc tok) 0) as [|Hne]; [contradiction|].
  destruct Hin as [Hin|[]]. injection Hin as _ <-. cbn [snd].
  pose proof (proj1 (NoDup_count_occ string_dec doc) Hnd tok). lia.
Qed.

Lemma zsum_ones (l : list Z) : Forall (fun c => c = 1%Z) l -> zsum l = len l.
Proof.
  induction 1 as [|c l -> _ IH]; [reflexivity|].
  rewrite zsum_cons, IH. unfold len. simpl length. lia.
Qed.

Lemma doc2bow_length (d : Dictionary.t) (doc : list string) :
  NoDup d -> NoDup doc -> (forall tok, In tok doc -> In tok d) ->
  length (Dictionary.doc2bow d doc) = length doc.
Proof.
  intros Hd Hdoc Hin.
  pose proof (doc2bow_counts doc Hd Hin) as Hc.
  rewrite zsum_ones in Hc by (apply Forall_map; apply doc2bow_unit; exact Hdoc).
  unfold len in Hc. rewrite length_map in Hc. lia.
Qed.

Lemma efoldM_pure {A B : Type} (f : A -> B -> exception + A) (g : A -> B -> A)
    (l : list B) :
  (forall a x, In x l -> f a x = inr (g a x)) ->
  forall a, efoldM f l a = inr (fold_left g l a).
Proof.
  induction l as [|x l IH]; intros H a; cbn [efoldM fold_left]; [reflexivity|].
  rewrite H by (left; reflexivity). cbn [ebind].
  apply IH. intros a' y Hy. apply H. right. exact Hy.
Qed.

Lemma fold_left_sum {A : Type} (h : A -> R) (l : list A) :
  fold_left (fun acc x => (acc + h x)%R) l 0%R = sum (map h l).
Proof.
  assert (G : forall acc, fold_left (fun acc x => (acc + h x)%R) l acc
                          = (acc + sum (map h l))%R).
  { induction l as [|x l IH]; intros acc; simpl.
    - rewrite sum_nil. lra.
    - rewrite IH, sum_cons. lra. }
  rewrite G. lra.
Qed.

Lemma nth_map_lt {A B : Type} (f : A -> B) (l : list A) (z : nat) (d : A) (d' : B) :
  z < length l -> nth z (map f l) d' = f (nth z l d).
Proof.
  intros Hz. rewrite (nth_indep (map f l) d' (f d)) by (rewrite length_map; exact Hz).
  apply map_nth.
Qed.

Lemma broadcast_maps {NP : Numpy} (f1 f2 f3 : nat -> R) (l : list nat) :
  (t <- broadcast Rplus (map f1 l) (map f2 l) ;;
   t <- broadcast Rminus t (map f3 l) ;; Ok (map np_exp t)) =
  Ok (map (fun z => np_exp (f1 z + f2 z - f3 z)%R) l).
Proof.
  unfold broadcast. rewrite !length_map, Nat.eqb_refl.
  rewrite combine_map_same, map_map. cbn [fst snd bind].
  rewrite !length_map, Nat.eqb_refl.
  rewrite combine_map_same, map_map. cbn [fst snd bind].
  rewrite map_map. reflexivity.
Qed.

(** The two broadcast operations of [score] on vectors of one length. *)
Lemma broadcast_formula {NP : Numpy} (n1 n2 d2 : list R) (k : nat) :
  length n1 = k -> length n2 = k -> length d2 = k ->
  (t <- broadcast Rplus n1 n2 ;; t <- broadcast Rminus t d2 ;; Ok (map np_exp t)) =
  Ok (map (fun z => np_exp (nth z n1 0 + nth z n2 0 - nth z d2 0)%R) (seq 0 k)).
Proof.
  intros H1 H2 H3.
  assert (E1 : map (fun z => nth z n1 0%R) (seq 0 k) = n1)
    by (rewrite <- H1; symmetry; apply list_as_map_seq).
  assert (E2 : map (fun z => nth z n2 0%R) (seq 0 k) = n2)
    by (rewrite <- H2; symmetry; apply list_as_map_seq).
  assert (E3 : map (fun z => nth z d2 0%R) (seq 0 k) = d2)
    by (rewrite <- H3; symmetry; apply list_as_map_seq).
  rewrite <- (broadcast_maps (fun z => nth z n1 0%R) (fun z => nth z n2 0%R)
                             (fun z => nth z d2 0%R) (seq 0 k)).
  rewrite E1, E2, E3. reflexivity.
Qed.

(** X17. On a document without repeated tokens, all in the vocabulary, the
    array variant and the token-list variant give the same probability
    vector when they hold the same model. (With a repeated token they
    differ: the array variant adds one log term per distinct token.) *)
Theorem variants_agree_without_repeated_tokens {NP : Numpy} (V : nat)
    (d : Dictionary.t) (self : MovieGroupProcess) (self' : UnderTheHood.MovieGroupProcess)
    (doc : list string) :
  shaped V self ->
  Dictionary.size d = V -> NoDup d ->
  same_model d self self' ->
  doc <> [] -> NoDup doc -> (forall tok, In tok doc -> In tok d) ->
  exists p,
    score self (Dictionary.doc2bow d doc) = Ok (p, self) /\
    UnderTheHood.score self' doc = inr p.
Proof.
  intros [HK Hm Hn Hw HV HD] HdV Hd
    (EK & Ea & Eb & ED & EV & Em & En & Elen & Eget) Hne Hdoc Hin.
  set (bow := Dictionary.doc2bow d doc).
  set (k := Z.to_nat (K self)) in *.
  destruct (number_docs self) as [D|] eqn:HD'; [|congruence].
  assert (Hbne : bow <> []).
  { destruct doc as [|tok doc]; [congruence|].
    apply doc2bow_seen with (tok := tok); [left; reflexivity|].
    apply Hin. left. reflexivity. }
  assert (Hidx : Forall (fun i => i < V) (map fst bow)).
  { apply ids_below_idx. rewrite <- HdV. apply doc2bow_ids_below. }
  assert (Hblen : length bow = length doc) by (apply doc2bow_length; assumption).
  set (d1 := np_log (IZR D - 1 + IZR (K self) * alpha self)).
  set (F := fun z : nat =>
              np_exp (np_log (IZR (nth z (cluster_doc_count self) 0%Z) + alpha self) - d1
                      + sum (map (fun i => np_log
                                   (IZR (nth i (nth z (rows (cluster_word_distribution self)) [])
                                             0%Z) + beta self))
                                 (map fst bow))
                      - sum (map (fun j => np_log
                                   (IZR (nth z (cluster_word_count self) 0%Z)
                                    + INR V * beta self + INR j - 1))
                                 (seq 1 (length bow))))%R).
  exists (normalize (map F (seq 0 k))). split.
  - unfold score, score_unnormalized, lD1, lN1, lN2, lD2.
    rewrite HD'. cbn [from_option bind]. fold bow.
    rewrite (unzip_doc_total Hbne). cbn [bind].
    rewrite (take_cols_rows Hw Hidx). cbn [bind]. rewrite HV. cbn [from_option bind].
    destruct Hw as (_ & Hrows & _).
    rewrite (@broadcast_formula _ _ _ _ k)
      by (rewrite ?length_map; assumption).
    cbn [bind]. f_equal. f_equal. f_equal. apply map_ext_in. intros z Hz.
    apply in_seq in Hz. unfold F.
    rewrite (@nth_map_lt _ _ _ _ z 0%R 0%R) by (rewrite length_map; lia).
    rewrite (@nth_map_lt _ _ _ _ z 0%Z 0%R) by lia.
    rewrite (@nth_map_lt _ _ _ _ z [] 0%R) by (rewrite length_map; lia).
    rewrite (@nth_map_lt _ _ _ _ z [] []) by lia.
    rewrite (@nth_map_lt _ _ _ _ z 0%Z 0%R) by lia.
    rewrite map_map. reflexivity.
  - unfold UnderTheHood.score. rewrite ED. cbn [from_option lift ebind].
    rewrite EK, Ea. fold d1. unfold range. fold k.
    rewrite (@emapM_pure _ _ _ F); [reflexivity|].
    intros z Hz. apply in_seq in Hz.
    unfold UnderTheHood.score_label. rewrite Em, En, Ea, Eb, EV, HV. cbn [option_map].
    unfold getitem.
    rewrite (@nth_error_nth' _ (cluster_doc_count self) z 0%Z) by lia.
    cbn [from_option lift ebind].
    assert (Hdoc' : match doc with
                    | [] => inr 0%R
                    | _ :: _ =>
                        ebind (lift (from_option IndexError
                                 (nth_error (UnderTheHood.cluster_word_distribution self') z)))
                              (fun d0 => inr (UnderTheHood.lN2 d0 (beta self) doc))
                    end =
                    inr (UnderTheHood.lN2 (nth z (UnderTheHood.cluster_word_distribution self') [])
                                          (beta self) doc) :> exception + R).
    { destruct doc; [congruence|].
      rewrite (@nth_error_nth' _ (UnderTheHood.cluster_word_distribution self') z []).
      - reflexivity.
      - destruct Hw as (_ & Hrows & _). lia. }
    rewrite Hdoc'. cbn [ebind].
    rewrite (@efoldM_pure _ _ _
               (fun acc j => (acc + np_log (IZR (nth z (cluster_word_count self) 0%Z)
                                           + IZR (Z.of_nat V) * beta self + INR j - 1))%R)).
    + cbn [ebind]. unfold F. f_equal. f_equal. f_equal.
      * f_equal.
        rewrite (@under_the_hood_lN2_occurrence_weighted _ d _
                   (nth z (rows (cluster_word_distribution self)) []) (beta self) doc
                   Hd Hin (Eget z)).
        fold bow. rewrite map_map. apply sum_map_ext_in. intros [i c] Hic.
        pose proof (doc2bow_unit d Hdoc) as Hu. rewrite Forall_forall in Hu.
        specialize (Hu _ Hic). cbn [fst snd] in *. rewrite Hu. lra.
      * rewrite fold_left_sum, Hblen. apply sum_map_ext_in. intros j _.
        rewrite <- INR_IZR_INZ. reflexivity.
    + intros acc j _.
      rewrite (@nth_error_nth' _ (cluster_word_count self) z 0%Z) by lia.
      reflexivity.
Qed.

(** ** Runs and instances of the properties *)

Lemma idle_from_data :
  from_data 2 (1 / 10) (1 / 10) ["a"%string] [0%Z; 0%Z] [0%Z; 0%Z]
            (mk_ndarray2 1 [[0%Z]; [0%Z]]) = Ok idle.
Proof. reflexivity. Qed.

Lemma two_tokens_fit :
  @fit ideal scripted one_cluster [["a"%string; "b"%string]] [] =
    Ok ([0], two_tokens, [], quiet_log).
Proof. lazy. reflexivity. Qed.

Lemma token_list_fit :
  @UnderTheHood.fit ideal scripted (UnderTheHood.__init__ 1 (1 / 10) (1 / 10) 30)
    [["a"%string; "b"%string]] 2 [] =
    inr ([0], token_list_fitted, [], quiet_log).
Proof. lazy. reflexivity. Qed.

Lemma one_cluster_fitted_summarizable : summarizable ["a"%string] one_cluster_fitted.
Proof.
  split; [discriminate|]. split; [reflexivity|]. split; [reflexivity|].
  repeat constructor.
Qed.

Lemma idle_summarizable : summarizable ["a"%string] idle.
Proof.
  split; [discriminate|]. split; [reflexivity|]. split; [reflexivity|].
  repeat constructor.
Qed.

Lemma two_tokens_shaped : shaped 2 two_tokens.
Proof.
  constructor; simpl; try reflexivity; try lia; try discriminate.
  repeat split. repeat constructor.
Qed.

Lemma two_tokens_same_model :
  same_model ["a"%string; "b"%string] two_tokens token_list_fitted.
Proof.
  repeat (split; [reflexivity|]).
  intros z i tok H.
  destruct i as [|[|i]]; simpl in H; try (destruct i; discriminate H);
    injection H as <-; destruct z as [|[|z]]; reflexivity.
Qed.

Lemma fit_doc_count_counts_labels_witness :
  __init__ 1 (1 / 10) (1 / 10) 30 = Ok one_cluster /\
  @fit ideal scripted one_cluster [["a"%string; "a"%string]] [] =
    Ok ([0], one_cluster_fitted, [], quiet_log) /\
  length [0] = length [["a"%string; "a"%string]] /\
  (forall z, nth z (cluster_doc_count one_cluster_fitted) 0%Z =
             Z.of_nat (count_occ Nat.eq_dec [0] z)) /\
  populated (cluster_doc_count one_cluster_fitted) = len (nodup Nat.eq_dec [0]).
Proof.
  split; [exact one_cluster_init|]. split; [exact one_cluster_fit|].
  eapply (@fit_doc_count_counts_labels ideal scripted);
    [exact one_cluster_init | exact one_cluster_fit].
Defined.

Lemma fit_word_statistics_recount_witness :
  __init__ 1 (1 / 10) (1 / 10) 30 = Ok one_cluster /\
  @fit ideal scripted one_cluster [["a"%string; "b"%string]] [] =
    Ok ([0], two_tokens, [], quiet_log) /\
  let corpus := map (Dictionary.doc2bow (Dictionary.create [["a"%string; "b"%string]]))
                    [["a"%string; "b"%string]] in
  forall z,
    nth z (cluster_word_count two_tokens) 0%Z =
      zsum (map (fun doc => len doc) (docs_of z [0] corpus)) /\
    forall w, entry (cluster_word_distribution two_tokens) z w =
              zsum (map (count_of w) (docs_of z [0] corpus)).
Proof.
  split; [exact one_cluster_init|]. split; [exact two_tokens_fit|].
  eapply (@fit_word_statistics_recount ideal scripted);
    [exact one_cluster_init | exact two_tokens_fit].
Defined.

Lemma fit_records_corpus_witness :
  @fit ideal scripted one_cluster [["a"%string; "b"%string]] [] =
    Ok ([0], two_tokens, [], quiet_log) /\
  let d := Dictionary.create [["a"%string; "b"%string]] in
  K two_tokens = K one_cluster /\ alpha two_tokens = alpha one_cluster /\
  beta two_tokens = beta one_cluster /\ n_iters two_tokens = n_iters one_cluster /\
  number_docs two_tokens = Some (len [["a"%string; "b"%string]]) /\
  dictionary two_tokens = Some d /\
  vocab_size two_tokens = Some (Dictionary.size d) /\
  corpus two_tokens = Some (map (Dictionary.doc2bow d) [["a"%string; "b"%string]]) /\
  has_shape (Z.to_nat (K one_cluster)) (Dictionary.size d)
            (cluster_word_distribution two_tokens) /\
  length (cluster_doc_count two_tokens) = length (cluster_doc_count one_cluster) /\
  length (cluster_word_count two_tokens) = length (cluster_word_count one_cluster).
Proof.
  split; [exact two_tokens_fit|].
  eapply (@fit_records_corpus ideal scripted). exact two_tokens_fit.
Defined.

Lemma save_load_round_trip_witness :
  lookup (fs (mk_world [] [])) "model" = None /\
  exists w' mgp,
    save two_tokens "model" (mk_world [] []) = (Ok tt, w') /\
    load "model" w' = inr mgp /\
    K mgp = K two_tokens /\ alpha mgp = alpha two_tokens /\ beta mgp = beta two_tokens /\
    cluster_doc_count mgp = cluster_doc_count two_tokens /\
    cluster_word_count mgp = cluster_word_count two_tokens /\
    cluster_word_distribution mgp = cluster_word_distribution two_tokens /\
    dictionary mgp = dictionary two_tokens /\
    vocab_size mgp = vocab_size two_tokens /\
    n_iters mgp = 30%Z /\
    number_docs mgp = Some (zsum (cluster_doc_count two_tokens)) /\
    corpus mgp = None.
Proof.
  split; [reflexivity|].
  eapply (@save_load_round_trip ideal scripted); [exact two_tokens_fit | reflexivity].
Defined.

Lemma loaded_model_answers_alike_witness :
  exists w' mgp,
    save two_tokens "model" (mk_world [] []) = (Ok tt, w') /\
    load "model" w' = inr mgp /\
    number_docs mgp = number_docs two_tokens /\
    forall doc,
      answer (@choose_best_label ideal mgp doc) =
      answer (@choose_best_label ideal two_tokens doc).
Proof.
  eapply (@loaded_model_answers_alike ideal scripted);
    [exact one_cluster_init | exact two_tokens_fit | reflexivity].
Defined.

Lemma save_unfitted_leaves_folder_witness :
  __init__ 1 (1 / 10) (1 / 10) 30 = Ok one_cluster /\
  lookup (fs (mk_world [] [])) "model" = None /\
  exists w',
    save one_cluster "model" (mk_world [] []) = (Raise AttributeError, w') /\
    lookup (fs w') "model" = Some Directory /\
    (exists items, lookup (fs w') (Path "model" "gsdmm.npy") = Some (NpyFile items)) /\
    forall other, fst (save other "model" w') = Raise FileExistsError.
Proof.
  split; [exact one_cluster_init|]. split; [reflexivity|].
  eapply save_unfitted_leaves_folder; [exact one_cluster_init | reflexivity].
Defined.

Lemma choose_best_label_known_token_witness :
  (exists z m, @choose_best_label ideal two_tokens ["b"%string; "c"%string] =
                 Ok ((z, m), two_tokens) /\ (Z.of_nat z < 1)%Z) /\
  @choose_best_label ideal two_tokens ["c"%string] = Raise (ValueError_unpack 0).
Proof.
  destruct (@choose_best_label_known_token ideal scripted 1 (1 / 10) (1 / 10) 30
              one_cluster [["a"%string; "b"%string]] [] [0] two_tokens [] quiet_log
              ["b"%string; "c"%string] one_cluster_init two_tokens_fit) as [Hknown _].
  destruct (@choose_best_label_known_token ideal scripted 1 (1 / 10) (1 / 10) 30
              one_cluster [["a"%string; "b"%string]] [] [0] two_tokens [] quiet_log
              ["c"%string] one_cluster_init two_tokens_fit) as [_ Hunknown].
  split.
  - apply Hknown. exists "b"%string. split; simpl; auto.
  - apply Hunknown. intros tok [<-|[]] [E|[E|[]]]; discriminate E.
Defined.

Lemma fit_without_clusters_witness :
  (exists self, __init__ (-1) (1 / 10) (1 / 10) 30 = Ok self /\
                @fit ideal scripted self [] [] = Raise ValueError_negative_dimensions) /\
  (exists self, __init__ 0 (1 / 10) (1 / 10) 30 = Ok self /\
                @fit ideal scripted self [["a"%string]] [] = Raise IndexError).
Proof.
  split; eexists; (split; [reflexivity|]).
  - apply (proj1 (@fit_without_clusters ideal scripted (-1) (1 / 10) (1 / 10) 30 _
                    [] [] eq_refl)). reflexivity.
  - apply (proj2 (@fit_without_clusters ideal scripted 0 (1 / 10) (1 / 10) 30 _
                    [["a"%string]] [] eq_refl)); [reflexivity | discriminate].
Defined.

Lemma fit_empty_corpus_witness :
  (0 <= K one_cluster)%Z /\
  exists self',
    @fit ideal scripted one_cluster [] [] =
      Ok ([], self', [],
          stage_lines 0 (repeat (0%Z, populated (cluster_doc_count one_cluster))
                                (Nat.min (Z.to_nat (n_iters one_cluster)) 27))
          ++ (if 27 <=? Z.to_nat (n_iters one_cluster) then [Converged] else [])) /\
    cluster_doc_count self' = cluster_doc_count one_cluster /\
    cluster_word_count self' = cluster_word_count one_cluster /\
    number_docs self' = Some 0%Z /\ vocab_size self' = Some 0 /\
    dictionary self' = Some [] /\ corpus self' = Some [].
Proof.
  split; [simpl; lia|].
  apply (@fit_empty_corpus ideal scripted one_cluster []). simpl. lia.
Defined.

Lemma top_words_lists_populated_clusters_witness :
  summarizable ["a"%string] one_cluster_fitted /\
  exists topic_words,
    @top_words stable one_cluster_fitted 5 " " = inr topic_words /\
    NoDup (map fst topic_words) /\
    StronglySorted (fun x y => (nth y (cluster_doc_count one_cluster_fitted) 0
                                <= nth x (cluster_doc_count one_cluster_fitted) 0)%Z)
                   (map fst topic_words) /\
    ((0 < populated (cluster_doc_count one_cluster_fitted))%Z ->
     forall z, In z (map fst topic_words) <->
               z < length (cluster_doc_count one_cluster_fitted) /\
               (0 < nth z (cluster_doc_count one_cluster_fitted) 0)%Z).
Proof.
  split; [exact one_cluster_fitted_summarizable|].
  apply (@top_words_lists_populated_clusters stable ["a"%string]).
  exact one_cluster_fitted_summarizable.
Defined.

Lemma top_words_lists_every_cluster_when_none_is_populated_witness :
  summarizable ["a"%string] idle /\
  populated (cluster_doc_count idle) = 0%Z /\
  exists topic_words,
    @top_words stable idle 5 " " = inr topic_words /\
    length topic_words = length (cluster_doc_count idle) /\
    forall z, In z (map fst topic_words) <-> z < length (cluster_doc_count idle).
Proof.
  split; [exact idle_summarizable|]. split; [reflexivity|].
  apply (@top_words_lists_every_cluster_when_none_is_populated stable ["a"%string]);
    [exact idle_summarizable | reflexivity].
Defined.

Lemma top_words_takes_the_largest_counts_witness :
  @top_words stable two_tokens 1 ", " = inr [(0, ", a"%string)] /\
  let n_z_w := cluster_word_distribution two_tokens in
  let v := length (nth 0 (rows n_z_w) []) in
  exists ids,
    ", a"%string = joined ["a"%string; "b"%string] ", " ids /\
    NoDup ids /\
    Forall (fun w => w < v) ids /\
    ((0 <= 1)%Z -> length ids = Nat.min (Z.to_nat 1) v) /\
    StronglySorted (fun w w' => (entry n_z_w 0 w' <= entry n_z_w 0 w)%Z) ids /\
    (forall w w', In w ids -> w' < v -> ~ In w' ids ->
                  (entry n_z_w 0 w' <= entry n_z_w 0 w)%Z) /\
    (ids <> [] -> exists rest, ", a"%string = (", " ++ rest)%string).
Proof.
  split; [reflexivity|].
  apply (@top_words_takes_the_largest_counts stable ["a"%string; "b"%string] two_tokens
           1 ", " [(0, ", a"%string)] 0 ", a"%string).
  - split; [discriminate|]. split; [reflexivity|]. split; [reflexivity|].
    repeat constructor.
  - reflexivity.
  - left. reflexivity.
Defined.

Lemma revdict_keeps_the_last_key_witness :
  let d := [("a"%string, 0); ("b"%string, 0)] in
  (dict_get Nat.eq_dec (revdict string_dec Nat.eq_dec d) 0 =
     last_key_of Nat.eq_dec (dict_of string_dec d) 0 /\
   forall k, dict_get Nat.eq_dec (revdict string_dec Nat.eq_dec d) 0 = Some k ->
             dict_get string_dec (dict_of string_dec d) k = Some 0) /\
  dict_get Nat.eq_dec (revdict string_dec Nat.eq_dec d) 0 = Some "b"%string.
Proof.
  split; [apply revdict_keeps_the_last_key | reflexivity].
Defined.

Lemma revdict_involutive_witness :
  let token2id := [("a"%string, 0); ("b"%string, 1)] in
  revdict string_dec Nat.eq_dec token2id = [(0, "a"%string); (1, "b"%string)] /\
  revdict Nat.eq_dec string_dec (revdict string_dec Nat.eq_dec token2id) = token2id.
Proof.
  apply (@revdict_involutive string nat string_dec Nat.eq_dec
           [("a"%string, 0); ("b"%string, 1)]).
  - repeat constructor; simpl; intuition discriminate.
  - repeat constructor; simpl; intuition discriminate.
Defined.

Lemma under_the_hood_score_empty_document_witness :
  let lD1 := @np_log ideal (IZR 1 - 1 + IZR (UnderTheHood.K token_list_fitted)
                            * UnderTheHood.alpha token_list_fitted) in
  let p := map (fun label =>
                  @np_exp ideal
                    (@np_log ideal
                       (IZR (nth label (UnderTheHood.cluster_doc_count token_list_fitted) 0%Z)
                        + UnderTheHood.alpha token_list_fitted) - lD1 + 0 - 0)%R)
               (range (UnderTheHood.K token_list_fitted)) in
  @UnderTheHood.score ideal token_list_fitted [] = inr (normalize p) /\
  length (normalize p) = Z.to_nat (UnderTheHood.K token_list_fitted).
Proof.
  apply (@under_the_hood_score_empty_document ideal token_list_fitted 1).
  - reflexivity.
  - simpl. lia.
Defined.

Lemma under_the_hood_fit_keeps_word_counts_witness :
  balanced token_list_fitted /\
  zsum (UnderTheHood.cluster_word_count token_list_fitted) =
    (zsum (UnderTheHood.cluster_word_count (UnderTheHood.__init__ 1 (1 / 10) (1 / 10) 30))
     + len (concat [["a"%string; "b"%string]]))%Z.
Proof.
  apply (@under_the_hood_fit_keeps_word_counts ideal scripted
           (UnderTheHood.__init__ 1 (1 / 10) (1 / 10) 30)
           [["a"%string; "b"%string]] 2 [] [0] token_list_fitted [] quiet_log).
  - apply init_balanced.
  - exact token_list_fit.
Defined.

Lemma variants_agree_without_repeated_tokens_witness :
  exists p,
    @score ideal two_tokens (Dictionary.doc2bow ["a"%string; "b"%string]
                                                ["b"%string; "a"%string]) =
      Ok (p, two_tokens) /\
    @UnderTheHood.score ideal token_list_fitted ["b"%string; "a"%string] = inr p.
Proof.
  apply (@variants_agree_without_repeated_tokens ideal 2 ["a"%string; "b"%string]
           two_tokens token_list_fitted ["b"%string; "a"%string]).
  - exact two_tokens_shaped.
  - reflexivity.
  - repeat constructor; simpl; intuition discriminate.
  - exact two_tokens_same_model.
  - discriminate.
  - repeat constructor; simpl; intuition discriminate.
  - intros tok [<-|[<-|[]]]; simpl; auto.
Defined.
